(** * NX Migrator Pro: the window's state machine and the core it drives

    A shallow embedding of [src/gui/disk_selector.py] and
    [src/gui/main_window.py].  The two widgets are Python objects that
    mutate their own attributes and call into each other; here every handler
    is a function from the state of the whole window to its next state.

    What is modelled of Tk: the value of a combobox, the text of a label,
    whether a button is enabled, the queue of callbacks handed to
    [root.after], the worker threads that were started and have not yet
    finished.  Captions, styles, geometry and the menu are not part of the
    state.  A dialog is recorded when it is shown; its nested event loop is
    not modelled, so a handler runs to its end before the next event.

    The partition scanner, the layout calculator, the two engines and the
    options, progress and partition widgets are not among the sources.  The
    widgets and the calculator are taken as an interface ([Collaborators]);
    the data model, the calculator and the engines are also written out from
    the specification, in modules of their own, where a statement is about
    them. *)

From stdpp Require Import gmap strings list pretty.
From Stdlib Require Import ZArith QArith String Bool Lia.

Open Scope Z_scope.

(** ** Text *)

Definition NL : string := String (Ascii.ascii_of_nat 10) EmptyString.

(** Python's [',' .join(parts)]. *)
Fixpoint join (sep : string) (parts : list string) : string :=
  match parts with
  | [] => EmptyString
  | [p] => p
  | p :: rest => p +:+ sep +:+ join sep rest
  end.



(** A Python float that is finite is a rational number; the window only
    stores such values and prints them with [f"{x:.1f}"] or [f"{x:.2f}"],
    which rounds the exact value half to even at the given digit. *)
Definition round_half_even (q : Q) : Z :=
  let n := Qnum q in
  let d := Z.pos (Qden q) in
  let fl := n / d in
  let r2 := 2 * (n mod d) in
  if r2 <? d then fl
  else if d <? r2 then fl + 1
  else if Z.even fl then fl else fl + 1.

Fixpoint zeros (n : nat) : string :=
  match n with
  | O => EmptyString
  | S k => "0" +:+ zeros k
  end.

Definition zero_pad (width : nat) (digits : string) : string :=
  zeros (width - String.length digits) +:+ digits.

Definition format_float (prec : nat) (x : Q) : string :=
  let scale := 10 ^ Z.of_nat prec in
  let a := round_half_even (Qmake (Z.abs (Qnum x) * scale) (Qden x)) in
  let sign := if Qnum x <? 0 then "-" else EmptyString in
  let int_part := pretty (a / scale) in
  match prec with
  | O => sign +:+ int_part
  | _ => sign +:+ int_part +:+ "." +:+ zero_pad prec (pretty (a mod scale))
  end.

(** [f"{n:,}"] on an integer: groups of three digits. *)
Fixpoint group_thousands (fuel : nat) (n : Z) : string :=
  match fuel with
  | O => pretty n
  | S f => if n <? 1000 then pretty n
           else group_thousands f (n / 1000) +:+ "," +:+ zero_pad 3 (pretty (n mod 1000))
  end.

Definition format_thousands (n : Z) : string :=
  if n <? 0 then "-" +:+ group_thousands (Z.to_nat (Z.abs n)) (Z.abs n)
  else group_thousands (Z.to_nat n) n.

(** ** Data *)

Inductive mode := migration | cleanup.

Definition mode_eqb (a b : mode) : bool :=
  match a, b with
  | migration, migration | cleanup, cleanup => true
  | _, _ => false
  end.

(** One element of [DiskManager.list_drive_letters()]. *)
Module Drive.
Record t := mk {
  letter : string;
  name : string;
  disk_name : string;
  physical_drive : string;
  physical_index : Z;
  size_bytes : Z;
  size_gb : Q;
  partition_size_gb : Q
}.
End Drive.

(** One value of [DiskSelectorFrame.disk_map]. *)
Module DiskInfo.
Record t := mk {
  letter : string;
  name : string;
  path : string;
  index : Z;
  size_bytes : Z;
  size_gb : Q;
  partition_size_gb : Q
}.
End DiskInfo.

(** Modelled from the spec: the classes of [core/partition_scanner.py] are
    missing; these are the categories, the table entry and the layout of
    section 3.  The five flags of a layout are the attributes the window
    reads. *)
Inductive Category :=
  Boot | Fat32 | Linux | AndroidTraditional | AndroidDynamic | Emummc | Unknown.

Definition Category_eqb (a b : Category) : bool :=
  match a, b with
  | Boot, Boot | Fat32, Fat32 | Linux, Linux
  | AndroidTraditional, AndroidTraditional | AndroidDynamic, AndroidDynamic
  | Emummc, Emummc | Unknown, Unknown => true
  | _, _ => false
  end.

Record Partition := mkPartition {
  category : Category;
  start_sector : Z;
  sector_count : Z;
  label : string;
  identifier : Z
}.

Record PartitionLayout := mkPartitionLayout {
  partitions : list Partition;
  has_linux : bool;
  has_android : bool;
  android_dynamic : bool;
  has_emummc : bool;
  emummc_double : bool
}.

(** The options dictionary of the options frame and of
    [MainWindow.migration_options]. *)
Record Options := mkOptions {
  migrate_fat32 : bool;
  migrate_linux : bool;
  migrate_android : bool;
  migrate_emummc : bool;
  expand_fat32 : bool
}.

(** [MainWindow.cleanup_options]. *)
Module CleanupOptions.
Record t := mk {
  remove_linux : bool;
  remove_android : bool;
  remove_emummc : bool;
  expand_fat32 : bool
}.
End CleanupOptions.

(** What an engine reports to its caller. *)
Inductive callback :=
  | on_progress (stage : string) (percent : Z) (message : string)
  | on_complete
  | on_error (message : string).

Definition is_terminal (c : callback) : bool :=
  match c with
  | on_progress _ _ _ => false
  | on_complete | on_error _ => true
  end.

(** ** The disk selector ([gui/disk_selector.py]) *)

Module DiskSelectorFrame.

(** The attributes of the frame and the state of its widgets.  Both
    comboboxes are always given the same list of values. *)
Record t := mk {
  source_disk : option DiskInfo.t;
  target_disk : option DiskInfo.t;
  disk_map : gmap string DiskInfo.t;
  combobox_values : list string;
  source_combobox : string;
  target_combobox : string;
  source_info : string;
  target_info : string;
  enabled : bool;
  target_selector_shown : bool
}.

Definition set_source_disk v (w : t) : t :=
  mk v (target_disk w) (disk_map w) (combobox_values w) (source_combobox w)
     (target_combobox w) (source_info w) (target_info w) (enabled w)
     (target_selector_shown w).
Definition set_target_disk v (w : t) : t :=
  mk (source_disk w) v (disk_map w) (combobox_values w) (source_combobox w)
     (target_combobox w) (source_info w) (target_info w) (enabled w)
     (target_selector_shown w).
Definition set_disk_map v (w : t) : t :=
  mk (source_disk w) (target_disk w) v (combobox_values w) (source_combobox w)
     (target_combobox w) (source_info w) (target_info w) (enabled w)
     (target_selector_shown w).
Definition set_combobox_values v (w : t) : t :=
  mk (source_disk w) (target_disk w) (disk_map w) v (source_combobox w)
     (target_combobox w) (source_info w) (target_info w) (enabled w)
     (target_selector_shown w).
Definition set_source_combobox v (w : t) : t :=
  mk (source_disk w) (target_disk w) (disk_map w) (combobox_values w) v
     (target_combobox w) (source_info w) (target_info w) (enabled w)
     (target_selector_shown w).
Definition set_target_combobox v (w : t) : t :=
  mk (source_disk w) (target_disk w) (disk_map w) (combobox_values w)
     (source_combobox w) v (source_info w) (target_info w) (enabled w)
     (target_selector_shown w).
Definition set_source_info v (w : t) : t :=
  mk (source_disk w) (target_disk w) (disk_map w) (combobox_values w)
     (source_combobox w) (target_combobox w) v (target_info w) (enabled w)
     (target_selector_shown w).
Definition set_target_info v (w : t) : t :=
  mk (source_disk w) (target_disk w) (disk_map w) (combobox_values w)
     (source_combobox w) (target_combobox w) (source_info w) v (enabled w)
     (target_selector_shown w).
Definition set_enabled v (w : t) : t :=
  mk (source_disk w) (target_disk w) (disk_map w) (combobox_values w)
     (source_combobox w) (target_combobox w) (source_info w) (target_info w) v
     (target_selector_shown w).
Definition set_target_selector_shown v (w : t) : t :=
  mk (source_disk w) (target_disk w) (disk_map w) (combobox_values w)
     (source_combobox w) (target_combobox w) (source_info w) (target_info w) (enabled w)
     v.


(** [set_enabled] above is also the method of that name: it sets the state
    of both comboboxes and of the refresh button. *)

Definition not_selected : string := "未选择" +:+ NL +:+ NL.

Definition init : t :=
  mk None None ∅ [] EmptyString EmptyString not_selected not_selected true true.

Definition clear_target (f : t) : t :=
  set_target_info not_selected (set_target_disk None (set_target_combobox EmptyString f)).

Definition show_target_selector (f : t) : t := set_target_selector_shown true f.

Definition hide_target_selector (f : t) : t := set_target_selector_shown false f.

Definition clear_selections (f : t) : t :=
  clear_target
    (set_source_info not_selected (set_source_disk None (set_source_combobox EmptyString f))).

(** The text of an info label for a selected disk. *)
Definition disk_info_text (disk : DiskInfo.t) : string :=
  "驱动器: " +:+ DiskInfo.letter disk +:+ NL +:+
  "物理路径: " +:+ DiskInfo.path disk +:+ NL +:+
  "总容量: " +:+ format_float 2 (DiskInfo.size_gb disk) +:+ " GB".

(** The loop of [_refresh_disks] over the drives: the display names in
    order, and the map from a display name to the disk it stands for (a
    later drive with the same display name replaces an earlier one). *)
Definition display_name (drive : Drive.t) : string :=
  let volume_name :=
    if String.eqb (Drive.name drive) (Drive.letter drive) then "SD 卡"%string
    else Drive.name drive in
  Drive.letter drive +:+ " - " +:+ volume_name +:+
  " (" +:+ format_float 1 (Drive.size_gb drive) +:+ " GB)".

Definition disk_of_drive (drive : Drive.t) : DiskInfo.t :=
  DiskInfo.mk (Drive.letter drive) (Drive.disk_name drive)
    (Drive.physical_drive drive) (Drive.physical_index drive)
    (Drive.size_bytes drive) (Drive.size_gb drive)
    (Drive.partition_size_gb drive).

Fixpoint build_disk_map (drives : list Drive.t) (m : gmap string DiskInfo.t)
  : gmap string DiskInfo.t :=
  match drives with
  | [] => m
  | drive :: rest => build_disk_map rest (<[display_name drive := disk_of_drive drive]> m)
  end.

(** An element of the list that [list_drive_letters()] returned: a
    dictionary with the keys the loop reads, or one on which the body of the
    loop raises (a key is missing, a size is no number) before it gets to
    [self.disk_map[name] = ...]; [inl] carries the text of the exception. *)
Definition listed_drive : Type := string + Drive.t.

(** The drives the loop gets through, and the exception that ends it if
    one does. *)
Fixpoint read_drives (drives : list listed_drive) : list Drive.t * option string :=
  match drives with
  | [] => ([], None)
  | inl e :: _ => ([], Some e)
  | inr drive :: rest =>
      let (read, failure) := read_drives rest in (drive :: read, failure)
  end.

(** All the well-formed elements of a listing. *)
Fixpoint drives_of (drives : list listed_drive) : list Drive.t :=
  match drives with
  | [] => []
  | inl _ :: rest => drives_of rest
  | inr drive :: rest => drive :: drives_of rest
  end.

(** The frame lives inside a window [W]: it reads and writes itself through
    [frame] and [set_frame], shows its dialogs through [main_window] and
    reports selections through the two callbacks, each of which may be
    absent as in the constructor's defaults. *)
Record window_ref (W : Type) := mk_window_ref {
  current_mode : W -> mode;
  show_custom_info : string -> string -> W -> W
}.
Arguments current_mode {W}.
Arguments show_custom_info {W}.

Section Handlers.
Context {W : Type}.
Variable frame : W -> t.
Variable set_frame : t -> W -> W.
Variable main_window : option (window_ref W).
Variable on_source_selected : option (DiskInfo.t -> W -> W).
Variable on_target_selected : option (DiskInfo.t -> W -> W).

Definition update (g : t -> t) (w : W) : W := set_frame (g (frame w)) w.

Definition notify (title message : string) (w : W) : W :=
  match main_window with
  | Some mw => show_custom_info mw title message w
  | None => w
  end.

(** [drives] is what [disk_manager.list_drive_letters()] returned, or the
    text of the exception it raised.  The [try] also covers the loop, which
    starts from [self.disk_map = {}]: when its body raises, the map holds the
    drives read so far, the names collected for the comboboxes are lost with
    the local list, and the comboboxes keep their old values. *)
Definition _refresh_disks (drives : string + list listed_drive) (w : W) : W :=
  match drives with
  | inl e =>
      notify "错误" ("列出驱动器失败:" +:+ NL +:+ NL +:+ e) w
  | inr [] =>
      notify "未找到SD卡" "未检测到可移动驱动器。请插入SD卡并刷新。" w
  | inr listed =>
      match read_drives listed with
      | (read, Some e) =>
          let w1 := update (set_disk_map (build_disk_map read ∅)) w in
          notify "错误" ("列出驱动器失败:" +:+ NL +:+ NL +:+ e) w1
      | (drives, None) =>
      let w1 :=
        update (fun f => set_combobox_values (map display_name drives)
                           (set_disk_map (build_disk_map drives ∅) f)) w in
      let count := pretty (List.length drives) in
      match main_window with
      | None => w1
      | Some mw =>
          match current_mode mw w1 with
          | cleanup =>
              show_custom_info mw "检测到SD卡"
                ("成功检测到 " +:+ count +:+ " 张SD卡。" +:+ NL +:+ NL +:+
                 "请从下拉菜单中选择要清理的SD卡。") w1
          | migration =>
              if (2 <=? List.length drives)%nat then
                show_custom_info mw "检测到SD卡"
                  ("成功检测到 " +:+ count +:+ " 张SD卡。" +:+ NL +:+ NL +:+
                   "请从下拉菜单中选择源驱动器和目标驱动器。") w1
              else if (List.length drives =? 1)%nat then
                show_custom_info mw "SD卡数量不足"
                  ("仅检测到 " +:+ count +:+ " 张SD卡。" +:+ NL +:+ NL +:+
                   "迁移模式需要两张已挂载的SD卡:" +:+ NL +:+
                   "• 源SD卡 (较小容量)" +:+ NL +:+
                   "• 目标SD卡 (较大容量)" +:+ NL +:+ NL +:+
                   "请插入另一张SD卡并刷新。") w1
              else w1
          end
      end
      end
  end.

(** The handler of the source combobox.  An entry missing from
    [disk_map] raises [KeyError] before anything is changed. *)
Definition _on_source_selected (w : W) : W :=
  let selection := source_combobox (frame w) in
  if String.eqb selection EmptyString then w
  else
    match disk_map (frame w) !! selection with
    | None => w
    | Some disk =>
        let w1 := update (set_source_disk (Some disk)) w in
        let w2 := update (set_source_info (disk_info_text disk)) w1 in
        match on_source_selected with
        | Some cb => cb disk w2
        | None => w2
        end
    end.

(** [self.source_disk and disk['path'] == self.source_disk['path']]: a
    disk dictionary is never empty, so it is true whenever it is set. *)
Definition same_as_source (disk : DiskInfo.t) (f : t) : bool :=
  match source_disk f with
  | Some src => String.eqb (DiskInfo.path disk) (DiskInfo.path src)
  | None => false
  end.

(** The handler of the target combobox.  [show_custom_info] returns when
    its dialog is closed; [during] is what the loop of the dialog has run
    by then, after which the handler goes on. *)
Definition _on_target_selected (during : W -> W) (w : W) : W :=
  let selection := target_combobox (frame w) in
  if String.eqb selection EmptyString then w
  else
    match disk_map (frame w) !! selection with
    | None => w
    | Some disk =>
        if same_as_source disk (frame w) then
          let w1 :=
            match main_window with
            | Some mw => during (show_custom_info mw "无效选择" "目标磁盘不能与源磁盘相同!" w)
            | None => w
            end in
          update (set_target_combobox EmptyString) w1
        else
          let w1 := update (set_target_disk (Some disk)) w in
          let w2 := update (set_target_info (disk_info_text disk)) w1 in
          match on_target_selected with
          | Some cb => cb disk w2
          | None => w2
          end
    end.
End Handlers.

End DiskSelectorFrame.

(** ** What the window calls and is not among the sources *)

(** The options frame ([gui/migration_options.py]) and the methods of
    [PartitionScanner] and [PartitionLayout] the window uses.  A call of
    [calculate_target_layout] returns a layout or raises; [inl] carries the
    text of the exception.  It is taken as a function of its three
    arguments: the specification has it deterministic and free of side
    effects. *)
Class Collaborators := {
  MigrationOptionsFrame : Type;
  options : MigrationOptionsFrame -> Options;
  set_mode : mode -> MigrationOptionsFrame -> MigrationOptionsFrame;
  update_available_partitions :
    bool -> bool -> bool -> MigrationOptionsFrame -> MigrationOptionsFrame;
  options_set_enabled : bool -> MigrationOptionsFrame -> MigrationOptionsFrame;
  calculate_target_layout : PartitionLayout -> Z -> Options -> string + PartitionLayout;
  get_summary : PartitionLayout -> string;
  get_fat32_size_mb : PartitionLayout -> Z;
  get_linux_size_mb : PartitionLayout -> Z;
  get_android_size_mb : PartitionLayout -> Z;
  get_emummc_size_mb : PartitionLayout -> Z
}.

(** A call of a method of the progress panel. *)
Inductive progress_call :=
  | progress_reset (m : mode)
  | progress_start
  | progress_update (stage : string) (percent : Z)
  | progress_complete
  | progress_error.

(** A dialog that was shown, and for a confirmation what the user chose. *)
Inductive dialog :=
  | info (title message : string)
  | confirm (title message : string) (answer : bool).

(** A callback handed to [root.after(0, ...)], to be run by the main loop. *)
Inductive task :=
  | scan_complete (source_layout : PartitionLayout)
  | scan_error (error_msg : string)
  | panel_update (stage : string) (percent : Z)
  | update_status (message : string)
  | complete_ui
  | error_ui (error_msg : string).

(** An engine as the window constructs it. *)
Inductive engine :=
  | MigrationEngine (source_disk target_disk : DiskInfo.t)
      (source_layout target_layout : option PartitionLayout) (opts : Options)
  | CleanupEngine (source_disk : DiskInfo.t)
      (source_layout target_layout : option PartitionLayout) (opts : CleanupOptions.t).

(** The text of the [TypeError] raised by [None['key']]. *)
Definition none_not_subscriptable : string := "'NoneType' object is not subscriptable".

(** ** The main window ([gui/main_window.py]) *)

Module MainWindow.
Section Window.
Context `{Collaborators}.

(** The attributes of the window and the state of its widgets: a button is
    [true] when enabled, a partition view holds what [display_layout] was
    last given ([None] after [clear]), the progress panel and the dialogs
    are the calls made on them in order.  Then what the main loop and the
    worker threads still have to do ([after_queue], [scan_threads],
    [engine_threads]), and a record of the calls made to the scanner. *)
Record t := mk {
  current_mode : mode;
  source_disk : option DiskInfo.t;
  target_disk : option DiskInfo.t;
  source_layout : option PartitionLayout;
  target_layout : option PartitionLayout;
  migration_options : Options;
  cleanup_options : CleanupOptions.t;
  disk_selector : DiskSelectorFrame.t;
  source_partition_frame : option (PartitionLayout * option DiskInfo.t);
  target_partition_frame : option (PartitionLayout * option DiskInfo.t);
  migration_options_frame : MigrationOptionsFrame;
  migrate_button : bool;
  scan_button : bool;
  status_label : string;
  progress_panel : list progress_call;
  dialogs : list dialog;
  after_queue : list task;
  scan_threads : nat;
  engine_threads : list engine;
  calculator_calls : list (PartitionLayout * Z * Options);
  scanner_calls : list string
}.

Definition set_current_mode v (w : t) : t :=
  mk v (source_disk w) (target_disk w) (source_layout w) (target_layout w)
     (migration_options w) (cleanup_options w) (disk_selector w)
     (source_partition_frame w) (target_partition_frame w) (migration_options_frame w)
     (migrate_button w) (scan_button w) (status_label w) (progress_panel w) (dialogs w)
     (after_queue w) (scan_threads w) (engine_threads w) (calculator_calls w)
     (scanner_calls w).
Definition set_source_disk v (w : t) : t :=
  mk (current_mode w) v (target_disk w) (source_layout w) (target_layout w)
     (migration_options w) (cleanup_options w) (disk_selector w)
     (source_partition_frame w) (target_partition_frame w) (migration_options_frame w)
     (migrate_button w) (scan_button w) (status_label w) (progress_panel w) (dialogs w)
     (after_queue w) (scan_threads w) (engine_threads w) (calculator_calls w)
     (scanner_calls w).
Definition set_target_disk v (w : t) : t :=
  mk (current_mode w) (source_disk w) v (source_layout w) (target_layout w)
     (migration_options w) (cleanup_options w) (disk_selector w)
     (source_partition_frame w) (target_partition_frame w) (migration_options_frame w)
     (migrate_button w) (scan_button w) (status_label w) (progress_panel w) (dialogs w)
     (after_queue w) (scan_threads w) (engine_threads w) (calculator_calls w)
     (scanner_calls w).
Definition set_source_layout v (w : t) : t :=
  mk (current_mode w) (source_disk w) (target_disk w) v (target_layout w)
     (migration_options w) (cleanup_options w) (disk_selector w)
     (source_partition_frame w) (target_partition_frame w) (migration_options_frame w)
     (migrate_button w) (scan_button w) (status_label w) (progress_panel w) (dialogs w)
     (after_queue w) (scan_threads w) (engine_threads w) (calculator_calls w)
     (scanner_calls w).
Definition set_target_layout v (w : t) : t :=
  mk (current_mode w) (source_disk w) (target_disk w) (source_layout w) v
     (migration_options w) (cleanup_options w) (disk_selector w)
     (source_partition_frame w) (target_partition_frame w) (migration_options_frame w)
     (migrate_button w) (scan_button w) (status_label w) (progress_panel w) (dialogs w)
     (after_queue w) (scan_threads w) (engine_threads w) (calculator_calls w)
     (scanner_calls w).
Definition set_migration_options v (w : t) : t :=
  mk (current_mode w) (source_disk w) (target_disk w) (source_layout w)
     (target_layout w) v (cleanup_options w) (disk_selector w)
     (source_partition_frame w) (target_partition_frame w) (migration_options_frame w)
     (migrate_button w) (scan_button w) (status_label w) (progress_panel w) (dialogs w)
     (after_queue w) (scan_threads w) (engine_threads w) (calculator_calls w)
     (scanner_calls w).
Definition set_cleanup_options v (w : t) : t :=
  mk (current_mode w) (source_disk w) (target_disk w) (source_layout w)
     (target_layout w) (migration_options w) v (disk_selector w)
     (source_partition_frame w) (target_partition_frame w) (migration_options_frame w)
     (migrate_button w) (scan_button w) (status_label w) (progress_panel w) (dialogs w)
     (after_queue w) (scan_threads w) (engine_threads w) (calculator_calls w)
     (scanner_calls w).
Definition set_disk_selector v (w : t) : t :=
  mk (current_mode w) (source_disk w) (target_disk w) (source_layout w)
     (target_layout w) (migration_options w) (cleanup_options w) v
     (source_partition_frame w) (target_partition_frame w) (migration_options_frame w)
     (migrate_button w) (scan_button w) (status_label w) (progress_panel w) (dialogs w)
     (after_queue w) (scan_threads w) (engine_threads w) (calculator_calls w)
     (scanner_calls w).
Definition set_source_partition_frame v (w : t) : t :=
  mk (current_mode w) (source_disk w) (target_disk w) (source_layout w)
     (target_layout w) (migration_options w) (cleanup_options w) (disk_selector w) v
     (target_partition_frame w) (migration_options_frame w) (migrate_button w)
     (scan_button w) (status_label w) (progress_panel w) (dialogs w) (after_queue w)
     (scan_threads w) (engine_threads w) (calculator_calls w) (scanner_calls w).
Definition set_target_partition_frame v (w : t) : t :=
  mk (current_mode w) (source_disk w) (target_disk w) (source_layout w)
     (target_layout w) (migration_options w) (cleanup_options w) (disk_selector w)
     (source_partition_frame w) v (migration_options_frame w) (migrate_button w)
     (scan_button w) (status_label w) (progress_panel w) (dialogs w) (after_queue w)
     (scan_threads w) (engine_threads w) (calculator_calls w) (scanner_calls w).
Definition set_migration_options_frame v (w : t) : t :=
  mk (current_mode w) (source_disk w) (target_disk w) (source_layout w)
     (target_layout w) (migration_options w) (cleanup_options w) (disk_selector w)
     (source_partition_frame w) (target_partition_frame w) v (migrate_button w)
     (scan_button w) (status_label w) (progress_panel w) (dialogs w) (after_queue w)
     (scan_threads w) (engine_threads w) (calculator_calls w) (scanner_calls w).
Definition set_migrate_button v (w : t) : t :=
  mk (current_mode w) (source_disk w) (target_disk w) (source_layout w)
     (target_layout w) (migration_options w) (cleanup_options w) (disk_selector w)
     (source_partition_frame w) (target_partition_frame w) (migration_options_frame w) v
     (scan_button w) (status_label w) (progress_panel w) (dialogs w) (after_queue w)
     (scan_threads w) (engine_threads w) (calculator_calls w) (scanner_calls w).
Definition set_scan_button v (w : t) : t :=
  mk (current_mode w) (source_disk w) (target_disk w) (source_layout w)
     (target_layout w) (migration_options w) (cleanup_options w) (disk_selector w)
     (source_partition_frame w) (target_partition_frame w) (migration_options_frame w)
     (migrate_button w) v (status_label w) (progress_panel w) (dialogs w)
     (after_queue w) (scan_threads w) (engine_threads w) (calculator_calls w)
     (scanner_calls w).
Definition set_status_label v (w : t) : t :=
  mk (current_mode w) (source_disk w) (target_disk w) (source_layout w)
     (target_layout w) (migration_options w) (cleanup_options w) (disk_selector w)
     (source_partition_frame w) (target_partition_frame w) (migration_options_frame w)
     (migrate_button w) (scan_button w) v (progress_panel w) (dialogs w) (after_queue w)
     (scan_threads w) (engine_threads w) (calculator_calls w) (scanner_calls w).
Definition set_progress_panel v (w : t) : t :=
  mk (current_mode w) (source_disk w) (target_disk w) (source_layout w)
     (target_layout w) (migration_options w) (cleanup_options w) (disk_selector w)
     (source_partition_frame w) (target_partition_frame w) (migration_options_frame w)
     (migrate_button w) (scan_button w) (status_label w) v (dialogs w) (after_queue w)
     (scan_threads w) (engine_threads w) (calculator_calls w) (scanner_calls w).
Definition set_dialogs v (w : t) : t :=
  mk (current_mode w) (source_disk w) (target_disk w) (source_layout w)
     (target_layout w) (migration_options w) (cleanup_options w) (disk_selector w)
     (source_partition_frame w) (target_partition_frame w) (migration_options_frame w)
     (migrate_button w) (scan_button w) (status_label w) (progress_panel w) v
     (after_queue w) (scan_threads w) (engine_threads w) (calculator_calls w)
     (scanner_calls w).
Definition set_after_queue v (w : t) : t :=
  mk (current_mode w) (source_disk w) (target_disk w) (source_layout w)
     (target_layout w) (migration_options w) (cleanup_options w) (disk_selector w)
     (source_partition_frame w) (target_partition_frame w) (migration_options_frame w)
     (migrate_button w) (scan_button w) (status_label w) (progress_panel w) (dialogs w)
     v (scan_threads w) (engine_threads w) (calculator_calls w) (scanner_calls w).
Definition set_scan_threads v (w : t) : t :=
  mk (current_mode w) (source_disk w) (target_disk w) (source_layout w)
     (target_layout w) (migration_options w) (cleanup_options w) (disk_selector w)
     (source_partition_frame w) (target_partition_frame w) (migration_options_frame w)
     (migrate_button w) (scan_button w) (status_label w) (progress_panel w) (dialogs w)
     (after_queue w) v (engine_threads w) (calculator_calls w) (scanner_calls w).
Definition set_engine_threads v (w : t) : t :=
  mk (current_mode w) (source_disk w) (target_disk w) (source_layout w)
     (target_layout w) (migration_options w) (cleanup_options w) (disk_selector w)
     (source_partition_frame w) (target_partition_frame w) (migration_options_frame w)
     (migrate_button w) (scan_button w) (status_label w) (progress_panel w) (dialogs w)
     (after_queue w) (scan_threads w) v (calculator_calls w) (scanner_calls w).
Definition set_calculator_calls v (w : t) : t :=
  mk (current_mode w) (source_disk w) (target_disk w) (source_layout w)
     (target_layout w) (migration_options w) (cleanup_options w) (disk_selector w)
     (source_partition_frame w) (target_partition_frame w) (migration_options_frame w)
     (migrate_button w) (scan_button w) (status_label w) (progress_panel w) (dialogs w)
     (after_queue w) (scan_threads w) (engine_threads w) v (scanner_calls w).
Definition set_scanner_calls v (w : t) : t :=
  mk (current_mode w) (source_disk w) (target_disk w) (source_layout w)
     (target_layout w) (migration_options w) (cleanup_options w) (disk_selector w)
     (source_partition_frame w) (target_partition_frame w) (migration_options_frame w)
     (migrate_button w) (scan_button w) (status_label w) (progress_panel w) (dialogs w)
     (after_queue w) (scan_threads w) (engine_threads w) (calculator_calls w) v.

Definition init (frame : MigrationOptionsFrame) : t :=
  mk migration None None None None
     (mkOptions true true true true true)
     (CleanupOptions.mk false false false true)
     DiskSelectorFrame.init None None frame false true
     "就绪。点击'刷新磁盘'，选择源和目标驱动器，然后点击'模拟迁移'。"
     [] [] [] O [] [] [].

Definition _update_status (message : string) (w : t) : t :=
  set_status_label message w.

(** [show_custom_info] and [show_custom_confirm] put up a modal dialog
    ([grab_set]) and wait in [self.root.wait_window(dialog)] until it is
    closed.  The two definitions record the dialog; what the loop of
    [wait_window] runs meanwhile is [wait_window] below.  The handlers that
    go on to read or to assign a disk, a layout or the options after a
    dialog take it as [during]: the two [_on_target_selected] and
    [_start_migration].  The other handlers end with their dialog, or only
    set the status label ([_on_scan_error], [_calculate_layout]) and enable
    the action button ([_calculate_layout]) after it; they are taken whole,
    and what runs while their dialog is open is the events that follow
    them. *)
Definition show_custom_info (title message : string) (w : t) : t :=
  set_dialogs (dialogs w ++ [info title message]) w.

Definition show_custom_confirm (title message : string) (answer : bool) (w : t) : t :=
  set_dialogs (dialogs w ++ [confirm title message answer]) w.

Definition root_after (k : task) (w : t) : t :=
  set_after_queue (after_queue w ++ [k]) w.

Definition disk_summary (d : DiskInfo.t) : string :=
  DiskInfo.letter d +:+ " - " +:+ DiskInfo.name d +:+
  " (" +:+ format_float 1 (DiskInfo.size_gb d) +:+ " GB)".

Definition _switch_mode (m : mode) (w : t) : t :=
  if mode_eqb (current_mode w) m then w
  else
    let w := set_current_mode m w in
    let w :=
      match m with
      | migration =>
          let w := _update_status "迁移模式: 选择源和目标SD卡，然后点击'模拟迁移'。" w in
          let w := set_disk_selector
                     (DiskSelectorFrame.show_target_selector (disk_selector w)) w in
          set_migration_options_frame (set_mode migration (migration_options_frame w)) w
      | cleanup =>
          let w := _update_status "清理模式: 选择要清理不需要分区的SD卡。" w in
          let w := set_disk_selector
                     (DiskSelectorFrame.hide_target_selector (disk_selector w)) w in
          set_migration_options_frame (set_mode cleanup (migration_options_frame w)) w
      end in
    let w := set_source_disk None w in
    let w := set_target_disk None w in
    let w := set_source_layout None w in
    let w := set_target_layout None w in
    let w := set_source_partition_frame None w in
    let w := set_target_partition_frame None w in
    let w := set_migrate_button false w in
    let w := set_disk_selector (DiskSelectorFrame.clear_selections (disk_selector w)) w in
    set_progress_panel (progress_panel w ++ [progress_reset m]) w.

Definition _on_source_selected (disk_info : DiskInfo.t) (w : t) : t :=
  let w := set_source_disk (Some disk_info) w in
  let w := set_source_layout None w in
  let w := set_source_partition_frame None w in
  let w := set_target_partition_frame None w in
  let w := set_migrate_button false w in
  _update_status ("Source selected: " +:+ disk_summary disk_info) w.

Definition invalid_target_message (disk_info src : DiskInfo.t) : string :=
  "目标磁盘 (" +:+ DiskInfo.letter disk_info +:+ ", " +:+
  format_float 1 (DiskInfo.size_gb disk_info) +:+ " GB) 必须大于源磁盘 (" +:+
  DiskInfo.letter src +:+ ", " +:+ format_float 1 (DiskInfo.size_gb src) +:+ " GB)".

(** [self.source_disk and ...]: the test is made only when a source is
    selected.  The disk is stored before the test, and taken back only
    after the dialog was closed: [during] is what has run by then. *)
Definition _on_target_selected (during : t -> t) (disk_info : DiskInfo.t) (w : t) : t :=
  let w := set_target_disk (Some disk_info) w in
  let w := set_target_layout None w in
  let w := set_target_partition_frame None w in
  let w := set_migrate_button false w in
  match source_disk w with
  | Some src =>
      if DiskInfo.size_bytes disk_info <=? DiskInfo.size_bytes src then
        let w := show_custom_info "无效目标" (invalid_target_message disk_info src) w in
        let w := during w in
        let w := set_disk_selector (DiskSelectorFrame.clear_target (disk_selector w)) w in
        set_target_disk None w
      else _update_status ("Target selected: " +:+ disk_summary disk_info) w
  | None => _update_status ("Target selected: " +:+ disk_summary disk_info) w
  end.

(** The options sent to the calculator in cleanup mode. *)
Definition cleanup_options_for_calc (c : CleanupOptions.t) : Options :=
  mkOptions true
    (negb (CleanupOptions.remove_linux c))
    (negb (CleanupOptions.remove_android c))
    (negb (CleanupOptions.remove_emummc c))
    (CleanupOptions.expand_fat32 c).

(** In cleanup mode a ticked box of the options frame means removal. *)
Definition cleanup_options_of (o : Options) : CleanupOptions.t :=
  CleanupOptions.mk (migrate_linux o) (migrate_android o) (migrate_emummc o)
    (expand_fat32 o).

Definition mb (n : Z) : string := format_thousands n +:+ " MB".

Definition android_type (l : PartitionLayout) : string :=
  if android_dynamic l then "动态" else "传统".

Definition emummc_type (l : PartitionLayout) : string :=
  if emummc_double l then "双虚拟系统" else "单虚拟系统".

Definition migration_summary (src dst : PartitionLayout) (o : Options)
    (sd td : DiskInfo.t) : string :=
  "迁移摘要：" +:+ NL +:+ NL +:+
  (if migrate_fat32 o then
     let src_fat := get_fat32_size_mb src in
     let dst_fat := get_fat32_size_mb dst in
     if expand_fat32 o then
       "✓ FAT32: " +:+ mb src_fat +:+ " → " +:+ mb dst_fat +:+
       " (+" +:+ mb (dst_fat - src_fat) +:+ " 扩展)" +:+ NL
     else
       "✓ FAT32: " +:+ mb src_fat +:+ " → " +:+ mb dst_fat +:+ " (无扩展)" +:+ NL
   else EmptyString) +:+
  (if has_linux src && migrate_linux o then
     "✓ Linux: " +:+ mb (get_linux_size_mb src) +:+ " (preserved)" +:+ NL
   else EmptyString) +:+
  (if has_android src && migrate_android o then
     "✓ Android (" +:+ android_type src +:+ "): " +:+
     mb (get_android_size_mb src) +:+ " (保持)" +:+ NL
   else EmptyString) +:+
  (if has_emummc src && migrate_emummc o then
     "✓ emuMMC (" +:+ emummc_type src +:+ "): " +:+
     mb (get_emummc_size_mb src) +:+ " (保持)" +:+ NL
   else EmptyString) +:+
  NL +:+ "源磁盘：" +:+ format_float 1 (DiskInfo.size_gb sd) +:+ " GB" +:+ NL +:+
  "目标磁盘：" +:+ format_float 1 (DiskInfo.size_gb td) +:+ " GB".

Definition cleanup_summary (src dst : PartitionLayout) (c : CleanupOptions.t)
    (sd : DiskInfo.t) : string :=
  "Cleanup Summary:" +:+ NL +:+ NL +:+
  (let src_fat := get_fat32_size_mb src in
   let dst_fat := get_fat32_size_mb dst in
   if CleanupOptions.expand_fat32 c then
     "✓ FAT32: " +:+ mb src_fat +:+ " → " +:+ mb dst_fat +:+
     " (+" +:+ mb (dst_fat - src_fat) +:+ " 回收)" +:+ NL
   else "✓ FAT32: " +:+ mb src_fat +:+ " (无扩展)" +:+ NL) +:+
  (if has_linux src then
     if CleanupOptions.remove_linux c then
       "✗ Linux: " +:+ mb (get_linux_size_mb src) +:+ " (will be REMOVED)" +:+ NL
     else "✓ Linux: " +:+ mb (get_linux_size_mb src) +:+ " (preserved)" +:+ NL
   else EmptyString) +:+
  (if has_android src then
     if CleanupOptions.remove_android c then
       "✗ Android (" +:+ android_type src +:+ "): " +:+
       mb (get_android_size_mb src) +:+ " (将被删除)" +:+ NL
     else
       "✓ Android (" +:+ android_type src +:+ "): " +:+
       mb (get_android_size_mb src) +:+ " (保持)" +:+ NL
   else EmptyString) +:+
  (if has_emummc src then
     if CleanupOptions.remove_emummc c then
       "✗ emuMMC (" +:+ emummc_type src +:+ "): " +:+
       mb (get_emummc_size_mb src) +:+ " (将被删除)" +:+ NL
     else
       "✓ emuMMC (" +:+ emummc_type src +:+ "): " +:+
       mb (get_emummc_size_mb src) +:+ " (保持)" +:+ NL
   else EmptyString) +:+
  NL +:+ "SD 卡：" +:+ format_float 1 (DiskInfo.size_gb sd) +:+ " GB".

(** A handler body that may raise: the state reached, and the text of
    the exception when one was raised there.  What was changed before the
    exception stays changed. *)
Inductive outcome :=
  | ok (w : t)
  | raised (e : string) (w : t).

Definition bind (c : outcome) (k : t -> outcome) : outcome :=
  match c with
  | ok w => k w
  | raised e w => raised e w
  end.

Notation "'then' w <- c ; k" := (bind c (fun w => k))
  (at level 10, w name, c at level 100, k at level 200).

(** [try: body except Exception as e: handler(str(e))] *)
Definition try_except (body : outcome) (handler : string -> t -> t) : t :=
  match body with
  | ok w => w
  | raised e w => handler e w
  end.

(** [_show_layout_comparison]; indexing a disk that is [None] raises. *)
Definition _show_layout_comparison (w : t) : outcome :=
  match source_layout w, target_layout w with
  | Some src, Some dst =>
      match current_mode w with
      | migration =>
          match source_disk w, target_disk w with
          | Some sd, Some td =>
              ok (show_custom_info "布局对比"
                    (migration_summary src dst (migration_options w) sd td) w)
          | _, _ => raised none_not_subscriptable w
          end
      | cleanup =>
          match source_disk w with
          | Some sd =>
              ok (show_custom_info "清理摘要"
                    (cleanup_summary src dst (cleanup_options w) sd) w)
          | None => raised none_not_subscriptable w
          end
      end
  | _, _ => ok w
  end.

(** The call [self.scanner.calculate_target_layout(...)], recorded. *)
Definition call_calculator (src : PartitionLayout) (capacity : Z) (o : Options)
    (k : PartitionLayout -> t -> outcome) (w : t) : outcome :=
  let w := set_calculator_calls (calculator_calls w ++ [(src, capacity, o)]) w in
  match calculate_target_layout src capacity o with
  | inl e => raised e w
  | inr new_layout => k new_layout w
  end.

(** The two branches of the [try] of [_calculate_layout] that compute and
    display the new layout. *)
Definition calculate_and_display (src : PartitionLayout) (w : t) : outcome :=
  match current_mode w with
  | migration =>
      match target_disk w with
      | None => raised none_not_subscriptable w
      | Some td =>
          call_calculator src (DiskInfo.size_bytes td) (migration_options w)
            (fun new_layout w =>
               let w := set_target_layout (Some new_layout) w in
               ok (set_target_partition_frame (Some (new_layout, target_disk w)) w)) w
      end
  | cleanup =>
      let cleanup_options_for_calc := cleanup_options_for_calc (cleanup_options w) in
      match source_disk w with
      | None => raised none_not_subscriptable w
      | Some sd =>
          call_calculator src (DiskInfo.size_bytes sd) cleanup_options_for_calc
            (fun new_layout w =>
               let w := set_target_layout (Some new_layout) w in
               ok (set_target_partition_frame (Some (new_layout, source_disk w)) w)) w
      end
  end.

Definition _calculate_layout (w : t) : t :=
  match source_layout w with
  | None => show_custom_info "缺少信息" "请先扫描 SD 卡。" w
  | Some src =>
      match current_mode w, target_disk w with
      | migration, None => show_custom_info "缺少信息" "请先选择目标磁盘。" w
      | _, _ =>
          try_except
            (then w <- ok (_update_status "正在计算新分区布局..." w);
             then w <- calculate_and_display src w;
             then w <- _show_layout_comparison w;
             let w := set_migrate_button true w in
             ok (match current_mode w with
                 | migration => _update_status "布局计算完成。准备开始迁移。" w
                 | cleanup => _update_status "清理预览准备完成。准备开始清理。" w
                 end))
            (fun e w =>
               let w := show_custom_info "计算失败"
                          ("计算新布局失败：" +:+ NL +:+ NL +:+ e) w in
               _update_status "布局计算失败。" w)
      end
  end.

Definition _on_options_changed (o : Options) (w : t) : t :=
  let w :=
    match current_mode w with
    | migration => set_migration_options o w
    | cleanup => set_cleanup_options (cleanup_options_of o) w
    end in
  match current_mode w, source_layout w, target_disk w with
  | migration, Some _, Some _ => _calculate_layout w
  | migration, _, _ => w
  | cleanup, Some _, _ => _calculate_layout w
  | cleanup, None, _ => w
  end.

(** The click on the scan button: the checks, then the start of the
    thread that runs [scan_thread]. *)
Definition _scan_sd_cards (w : t) : t :=
  match source_disk w with
  | None => show_custom_info "未选择磁盘" "请先选择一个SD卡。" w
  | Some _ =>
      match current_mode w, target_disk w with
      | migration, None => show_custom_info "未选择目标磁盘" "请选择源和目标SD卡。" w
      | _, _ =>
          let w :=
            match current_mode w with
            | migration => _update_status "正在扫描源磁盘并模拟迁移..." w
            | cleanup => _update_status "正在扫描SD卡并模拟清理..." w
            end in
          let w := set_scan_button false w in
          set_scan_threads (S (scan_threads w)) w
      end
  end.

(** The body of the thread.  [scanned] is what [scanner.scan_disk]
    returns for the path it is given, or the text of what it raises. *)
Definition scan_thread (scanned : string + PartitionLayout) (w : t) : t :=
  match source_disk w with
  | None => root_after (scan_error none_not_subscriptable) w
  | Some d =>
      let w := set_scanner_calls (scanner_calls w ++ [DiskInfo.path d]) w in
      match scanned with
      | inr source_layout => root_after (scan_complete source_layout) w
      | inl e => root_after (scan_error e) w
      end
  end.

Definition _on_scan_complete (l : PartitionLayout) (w : t) : t :=
  let w := set_source_layout (Some l) w in
  let w := set_scan_button true w in
  let w := set_source_partition_frame (Some (l, source_disk w)) w in
  let w := set_migration_options_frame
             (update_available_partitions (has_linux l) (has_android l) (has_emummc l)
                (migration_options_frame w)) w in
  let w :=
    match current_mode w with
    | migration => set_migration_options (options (migration_options_frame w)) w
    | cleanup =>
        set_cleanup_options (cleanup_options_of (options (migration_options_frame w))) w
    end in
  let summary := get_summary l in
  let w :=
    match current_mode w with
    | migration => _update_status ("扫描完成: " +:+ summary +:+ "。正在计算目标布局...") w
    | cleanup => _update_status ("扫描完成: " +:+ summary +:+ "。选择清理选项并计算预览...") w
    end in
  _calculate_layout w.

Definition _on_scan_error (error_msg : string) (w : t) : t :=
  let w := set_scan_button true w in
  let w := show_custom_info "扫描失败" ("磁盘扫描失败:" +:+ NL +:+ NL +:+ error_msg) w in
  _update_status "扫描失败。请重试。" w.

Definition _set_ui_enabled (enabled : bool) (w : t) : t :=
  let w := set_disk_selector (DiskSelectorFrame.set_enabled enabled (disk_selector w)) w in
  let w := set_scan_button enabled w in
  let w := set_migrate_button enabled w in
  set_migration_options_frame (options_set_enabled enabled (migration_options_frame w)) w.

Definition start_thread (e : engine) (w : t) : t :=
  set_engine_threads (engine_threads w ++ [e]) w.

(** [removed_parts] of the cleanup confirmation; [None] when
    [self.source_layout.has_linux] (or its like) is read on [None]. *)
Definition removed_parts (w : t) : option (list string) :=
  let c := cleanup_options w in
  let part (remove : bool) (present : PartitionLayout -> bool) (text : string)
      (acc : option (list string)) : option (list string) :=
    match acc with
    | None => None
    | Some parts =>
        if remove then
          match source_layout w with
          | None => None
          | Some l => Some (if present l then parts ++ [text] else parts)
          end
        else Some parts
    end in
  part (CleanupOptions.remove_emummc c) has_emummc "emuMMC partition(s)"
    (part (CleanupOptions.remove_android c) has_android "Android partitions"
       (part (CleanupOptions.remove_linux c) has_linux "Linux partition" (Some []))).

Definition warning : string := "⚠️ 警告 ⚠️".
Definition last_warning : string := "⚠️ 最后警告 ⚠️".

(** The click on the action button.  [response] and [response2] are the
    user's answers to the two confirmations; the second is asked only
    after a yes to the first.  [during1] and [during2] are what has run
    while the first and the second were open: the layouts and the options
    of the engine are read after both.  The two disks are read again after
    each dialog as well; nothing that runs while a dialog is open assigns
    them (lemma [wait_window_keeps_selection]), and the values read for the
    first message stand for them.  An exception raised while the first
    message is built (a disk or a layout that is [None]) ends the handler
    with nothing changed. *)
Definition _start_migration (during1 during2 : t -> t) (response response2 : bool)
    (w : t) : t :=
  match current_mode w with
  | migration =>
      match target_disk w, source_disk w with
      | Some td, Some sd =>
          let w := show_custom_confirm "确认迁移"
                     (warning +:+ NL +:+ NL +:+
                      "这将会清除目标磁盘上的所有数据：" +:+ NL +:+
                      disk_summary td +:+ NL +:+ NL +:+
                      "源磁盘 (" +:+ DiskInfo.letter sd +:+ ") 不会被修改。" +:+ NL +:+ NL +:+
                      "您确定要继续吗？") response w in
          let w := during1 w in
          if negb response then w
          else
            let w := show_custom_confirm "最终确认"
                       (last_warning +:+ NL +:+ NL +:+
                        DiskInfo.letter td +:+ " (" +:+ DiskInfo.name td +:+
                        ") 上的所有数据将被永久清除。" +:+ NL +:+ NL +:+
                        "此操作无法撤销！") response2 w in
            let w := during2 w in
            if negb response2 then w
            else
              let w := _set_ui_enabled false w in
              let migration_engine :=
                MigrationEngine sd td (source_layout w) (target_layout w)
                  (migration_options w) in
              let w := _update_status "迁移进行中..." w in
              let w := set_progress_panel (progress_panel w ++ [progress_start]) w in
              start_thread migration_engine w
      | _, _ => w
      end
  | cleanup =>
      match removed_parts w, source_disk w with
      | Some parts, Some sd =>
          let parts_str :=
            match parts with
            | [] => "No partitions will be removed (only FAT32 expansion)"%string
            | _ => join ", " parts
            end in
          let w := show_custom_confirm "Confirm Cleanup"
                     ("⚠️ WARNING ⚠️" +:+ NL +:+ NL +:+
                      "This will MODIFY the disk:" +:+ NL +:+
                      disk_summary sd +:+ NL +:+ NL +:+
                      "Partitions to remove:" +:+ NL +:+ parts_str +:+ NL +:+ NL +:+
                      "FAT32 data will be backed up temporarily, then restored." +:+
                      NL +:+ NL +:+
                      "⚠️ IMPORTANT: Make sure you have a backup of your SD card!" +:+
                      NL +:+ NL +:+
                      "Are you sure you want to continue?") response w in
          let w := during1 w in
          if negb response then w
          else
            let w := show_custom_confirm "最终确认"
                       (last_warning +:+ NL +:+ NL +:+
                        "磁盘 " +:+ DiskInfo.letter sd +:+ " 将被修改。" +:+ NL +:+
                        "删除的分区将被永久删除。" +:+ NL +:+ NL +:+
                        "此操作无法撤销！" +:+ NL +:+ NL +:+
                        "您是否已有备份？") response2 w in
            let w := during2 w in
            if negb response2 then w
            else
              let w := _set_ui_enabled false w in
              let cleanup_engine :=
                CleanupEngine sd (source_layout w) (target_layout w)
                  (cleanup_options w) in
              let w := _update_status "清理进行中..." w in
              let w := set_progress_panel (progress_panel w ++ [progress_start]) w in
              start_thread cleanup_engine w
      | _, _ => w
      end
  end.

(** *** The three callbacks given to an engine; they run on its thread *)

Definition _on_operation_progress (stage : string) (percent : Z) (message : string)
    (w : t) : t :=
  let w := root_after (panel_update stage percent) w in
  let status_message := stage +:+ " - " +:+ message in
  root_after (update_status status_message) w.

Definition _on_operation_complete (w : t) : t := root_after complete_ui w.

Definition _on_operation_error (error_msg : string) (w : t) : t :=
  root_after (error_ui error_msg) w.

(** *** What the main loop runs for them *)

Definition run_complete_ui (w : t) : t :=
  let w := set_progress_panel (progress_panel w ++ [progress_complete]) w in
  let w := _set_ui_enabled true w in
  match current_mode w with
  | migration =>
      let w := _update_status "迁移成功完成！" w in
      show_custom_info "迁移完成"
        ("✓ SD 卡迁移成功完成！" +:+ NL +:+ NL +:+
         "您现在可以安全地移除两张 SD 卡。") w
  | cleanup =>
      let w := _update_status "清理成功完成！" w in
      show_custom_info "清理完成"
        ("✓ SD 卡清理成功完成！" +:+ NL +:+ NL +:+
         "不需要的分区已被删除，FAT32 已扩展。" +:+ NL +:+ NL +:+
         "您现在可以安全地移除 SD 卡。") w
  end.

Definition migration_failed_message (error_msg : string) : string :=
  "迁移失败，错误信息：" +:+ NL +:+ NL +:+ error_msg +:+ NL +:+ NL +:+
  "目标磁盘可能处于不一致状态。".

Definition cleanup_failed_message (error_msg : string) : string :=
  "清理失败，错误信息：" +:+ NL +:+ NL +:+ error_msg +:+ NL +:+ NL +:+
  "SD 卡可能处于不一致状态。" +:+ NL +:+
  "如有需要，请从备份恢复。".

Definition run_error_ui (error_msg : string) (w : t) : t :=
  let w := set_progress_panel (progress_panel w ++ [progress_error]) w in
  let w := _set_ui_enabled true w in
  match current_mode w with
  | migration =>
      let w := _update_status ("迁移失败：" +:+ error_msg) w in
      show_custom_info "迁移失败" (migration_failed_message error_msg) w
  | cleanup =>
      let w := _update_status ("清理失败：" +:+ error_msg) w in
      show_custom_info "清理失败" (cleanup_failed_message error_msg) w
  end.

Definition run_task (k : task) (w : t) : t :=
  match k with
  | scan_complete l => _on_scan_complete l w
  | scan_error e => _on_scan_error e w
  | panel_update stage percent =>
      set_progress_panel (progress_panel w ++ [progress_update stage percent]) w
  | update_status m => _update_status m w
  | complete_ui => run_complete_ui w
  | error_ui e => run_error_ui e w
  end.

(** *** What runs while a dialog is open

    The dialog holds the grab, so no click and no selection reaches the
    window; a worker thread goes on, and the loop of [wait_window] runs the
    callbacks of [root.after] as the main loop does. *)
Inductive background :=
  | thread_scans (scanned : string + PartitionLayout)
  | engine_reports (c : callback)
  | loop_runs_next.

Definition background_step (b : background) (w : t) : t :=
  match b with
  | thread_scans scanned =>
      match scan_threads w with
      | O => w
      | S n => scan_thread scanned (set_scan_threads n w)
      end
  | engine_reports c =>
      match engine_threads w with
      | [] => w
      | _ :: rest =>
          match c with
          | on_progress stage percent message =>
              _on_operation_progress stage percent message w
          | on_complete => _on_operation_complete (set_engine_threads rest w)
          | on_error message => _on_operation_error message (set_engine_threads rest w)
          end
      end
  | loop_runs_next =>
      match after_queue w with
      | [] => w
      | k :: rest => run_task k (set_after_queue rest w)
      end
  end.

Fixpoint wait_window (during : list background) (w : t) : t :=
  match during with
  | [] => w
  | b :: rest => wait_window rest (background_step b w)
  end.

(** *** The disk selector as the window constructs it *)

Definition as_window_ref : DiskSelectorFrame.window_ref t :=
  DiskSelectorFrame.mk_window_ref t current_mode show_custom_info.

Definition selector_refresh_disks
  : string + list DiskSelectorFrame.listed_drive -> t -> t :=
  DiskSelectorFrame._refresh_disks disk_selector set_disk_selector (Some as_window_ref).

Definition selector_on_source_selected : t -> t :=
  DiskSelectorFrame._on_source_selected disk_selector set_disk_selector
    (Some _on_source_selected).

Definition selector_on_target_selected (during : t -> t) : t -> t :=
  DiskSelectorFrame._on_target_selected disk_selector set_disk_selector
    (Some as_window_ref) (Some (_on_target_selected during)) during.

(** *** Events

    What the user, a worker thread or the main loop can do next.  A click
    or a selection on a disabled widget does nothing; a readonly combobox
    only offers its values; a thread can only run once it was started;
    the main loop runs the callbacks of [root.after] in the order they
    were queued.  A selection of a target and a click on the action button
    come with what runs while their dialogs are open. *)
Inductive event :=
  | click_refresh (drives : string + list DiskSelectorFrame.listed_drive)
  | select_source (name : string)
  | select_target_during (name : string) (during : list background)
  | click_mode (m : mode)
  | change_options (frame : MigrationOptionsFrame) (o : Options)
  | click_scan
  | click_action_during (response response2 : bool) (during1 during2 : list background)
  | scan_thread_runs (scanned : string + PartitionLayout)
  | engine_calls (c : callback)
  | main_loop_runs_next.

(** The two with nothing running meanwhile. *)
Definition select_target (name : string) : event := select_target_during name [].

Definition click_action (response response2 : bool) : event :=
  click_action_during response response2 [] [].

Definition offered (name : string) (w : t) : bool :=
  DiskSelectorFrame.enabled (disk_selector w) &&
  existsb (String.eqb name) (DiskSelectorFrame.combobox_values (disk_selector w)).

Definition step (e : event) (w : t) : t :=
  match e with
  | click_refresh drives =>
      if DiskSelectorFrame.enabled (disk_selector w)
      then selector_refresh_disks drives w else w
  | select_source name =>
      if offered name w then
        selector_on_source_selected
          (set_disk_selector
             (DiskSelectorFrame.set_source_combobox name (disk_selector w)) w)
      else w
  | select_target_during name during =>
      if offered name w && DiskSelectorFrame.target_selector_shown (disk_selector w) then
        selector_on_target_selected (wait_window during)
          (set_disk_selector
             (DiskSelectorFrame.set_target_combobox name (disk_selector w)) w)
      else w
  | click_mode m => _switch_mode m w
  | change_options frame o =>
      _on_options_changed o (set_migration_options_frame frame w)
  | click_scan => if scan_button w then _scan_sd_cards w else w
  | click_action_during response response2 during1 during2 =>
      if migrate_button w then
        _start_migration (wait_window during1) (wait_window during2) response response2 w
      else w
  | scan_thread_runs scanned => background_step (thread_scans scanned) w
  | engine_calls c => background_step (engine_reports c) w
  | main_loop_runs_next => background_step loop_runs_next w
  end.

Fixpoint run (events : list event) (w : t) : t :=
  match events with
  | [] => w
  | e :: rest => run rest (step e w)
  end.

End Window.
End MainWindow.

(** ** Where a dialog is put ([show_custom_info], [show_custom_confirm],
    [_show_scrollable_dialog], [_do_center]) *)

Module Dialog.

(** What [winfo_x], [winfo_y], [winfo_width] and [winfo_height] report of a
    window, in pixels. *)
Record rect := mk_rect {
  x : Z;
  y : Z;
  width : Z;
  height : Z
}.

(** What a float holds of an integer, or of a number of quarters: the
    nearest number with at most 53 significant bits, ties to the even one. *)
Definition to_53_bits (n : Z) : Z :=
  let e := Z.log2 (Z.abs n) + 1 - 53 in
  if e <=? 0 then n
  else round_half_even (Qmake n (Z.to_pos (2 ^ e))) * 2 ^ e.

(** The conversion of an integer that precedes its product with a float;
    from about 1.8e308 on it raises [OverflowError]. *)
Definition float_of_int (n : Z) : string + Z :=
  let a := to_53_bits n in
  if 2 ^ 1024 <=? Z.abs a then inl "int too large to convert to float"%string
  else inr a.

(** [int(size * 0.75)] on screens lower than 1440 pixels: [size] is
    converted to a float, the product with 0.75 is rounded to a float again
    (three quarters of [a] are [a * 3] quarters), and [int] truncates toward
    zero.  Up to 2^51 in absolute value nothing is rounded. *)
Definition scale_down (screen_height size : Z) : string + Z :=
  if screen_height <? 1440 then
    match float_of_int size with
    | inl e => inl e
    | inr a => inr (Z.quot (to_53_bits (a * 3)) 4)
    end
  else inr size.

(** [parent_x + (parent_w // 2) - (width // 2)] *)
Definition centered (parent_pos parent_size size : Z) : Z :=
  parent_pos + parent_size / 2 - size / 2.

(** The size and position given to [dialog.geometry] for a dialog asked for
    with [requested_width] and [requested_height], or the text of the
    exception raised when a size is scaled, before the dialog is made. *)
Definition place (screen_height : Z) (parent : rect) (requested_width requested_height : Z)
  : string + rect :=
  match scale_down screen_height requested_width with
  | inl e => inl e
  | inr w =>
      match scale_down screen_height requested_height with
      | inl e => inl e
      | inr h =>
          inr (mk_rect (centered (x parent) (width parent) w)
                 (centered (y parent) (height parent) h) w h)
      end
  end.

(** [f"{width}x{height}+{x}+{y}"] *)
Definition geometry (r : rect) : string :=
  pretty (width r) +:+ "x" +:+ pretty (height r) +:+ "+" +:+ pretty (x r) +:+
  "+" +:+ pretty (y r).

(** [_do_center]: a window that has its size already is moved, not resized. *)
Definition _do_center (parent window : rect) : rect :=
  mk_rect (centered (x parent) (width parent) (width window))
    (centered (y parent) (height parent) (height window))
    (width window) (height window).

(** [r] lies within [parent]. *)
Definition inside (parent r : rect) : Prop :=
  x parent <= x r /\ x r + width r <= x parent + width parent /\
  y parent <= y r /\ y r + height r <= y parent + height parent.

End Dialog.

(** ** The log viewer of the help menu ([_open_logs]) *)

Module Menu.

Fixpoint endswith (suffix s : string) : bool :=
  if String.eqb s suffix then true
  else
    match s with
    | EmptyString => false
    | String _ rest => endswith suffix rest
    end.

(** [f.startswith('nx_migrator_pro_') and f.endswith('.log')] *)
Definition is_log_file (f : string) : bool :=
  String.prefix "nx_migrator_pro_" f && endswith ".log" f.

(** The keys of [log_files.sort(key=...)]: [os.path.getmtime] of every file,
    in the order of the list, before anything is moved; the first call that
    raises ends the sort. *)
Fixpoint keyed (getmtime : string -> string + Q) (files : list string)
  : string + list (Q * string) :=
  match files with
  | [] => inr []
  | f :: rest =>
      match getmtime f with
      | inl e => inl e
      | inr t =>
          match keyed getmtime rest with
          | inl e => inl e
          | inr ks => inr ((t, f) :: ks)
          end
      end
  end.

(** [sort(..., reverse=True)] is stable: an element goes behind those
    already placed whose key is not smaller than its own. *)
Fixpoint insert_desc (k : Q * string) (placed : list (Q * string)) : list (Q * string) :=
  match placed with
  | [] => [k]
  | p :: rest =>
      if Qle_bool (fst k) (fst p) then p :: insert_desc k rest
      else k :: p :: rest
  end.

Definition sort_desc (ks : list (Q * string)) : list (Q * string) :=
  fold_left (fun placed k => insert_desc k placed) ks [].

(** How a file is handed to the desktop. *)
Inductive launch :=
  | startfile (file : string)
  | subprocess_run (argv : list string).

Definition opener (platform file : string) : launch :=
  if String.eqb platform "win32" then startfile file
  else if String.eqb platform "darwin" then subprocess_run ["open"%string; file]
  else subprocess_run ["xdg-open"%string; file].

Section OpenLogs.
Context `{Collaborators}.

(** [platform] is [sys.platform]; [listdir] is what [os.listdir('.')]
    returns or the text of what it raises, and likewise [getmtime]; [raises]
    tells whether handing the file over raises ([os.startfile] on a file
    with no handler, [subprocess.run] when the command is missing), in which
    case nothing is opened.  The result is the window, with the dialog that
    was shown if any, and what was launched. *)
Definition _open_logs (platform : string) (listdir : string + list string)
    (getmtime : string -> string + Q) (raises : launch -> option string)
    (w : MainWindow.t) : MainWindow.t * option launch :=
  let failed (e : string) :=
    MainWindow.show_custom_info "打开日志错误"
      ("打开日志文件失败：" +:+ NL +:+ NL +:+ e) w in
  match listdir with
  | inl e => (failed e, None)
  | inr names =>
      match List.filter is_log_file names with
      | [] =>
          (MainWindow.show_custom_info "未找到日志" "当前目录中未找到日志文件。" w, None)
      | log_files =>
          match keyed getmtime log_files with
          | inl e => (failed e, None)
          | inr ks =>
              match sort_desc ks with
              | [] => (failed "list index out of range", None)
              | (_, latest_log) :: _ =>
                  let action := opener platform latest_log in
                  match raises action with
                  | Some e => (failed e, None)
                  | None => (w, Some action)
                  end
              end
          end
      end
  end.
End OpenLogs.

(** The file a launch opens. *)
Definition opened (a : launch) : option string :=
  match a with
  | startfile file => Some file
  | subprocess_run argv => List.last (List.map Some argv) None
  end.

End Menu.

(** ** The layout calculator (specification, section 4.2) *)

Module LayoutCalculator.

(** Modelled from the spec: the calculator of [core/partition_scanner.py] is
    missing; its errors, its options and its steps are those of sections 3,
    4.2 and 7. *)
Inductive LayoutError := InsufficientSpace | SizeTooSmallFat32.

Record OperationOptions := mkOperationOptions {
  linux : bool;
  android : bool;
  emummc : bool;
  expand_fat32 : bool
}.

Definition is_android (c : Category) : bool :=
  match c with
  | AndroidTraditional | AndroidDynamic => true
  | _ => false
  end.

(** Whether a partition of category [c] is carried over under [o]: the
    boot region and FAT32 always, an optional category when it is
    selected, an unclassified entry never. *)
Definition carried (o : OperationOptions) (c : Category) : bool :=
  match c with
  | Boot | Fat32 => true
  | Linux => linux o
  | AndroidTraditional | AndroidDynamic => android o
  | Emummc => emummc o
  | Unknown => false
  end.

Definition of_category (c : Category) (ps : list Partition) : list Partition :=
  List.filter (fun p => Category_eqb (category p) c) ps.

Definition total_sectors (ps : list Partition) : Z :=
  fold_right (fun p acc => sector_count p + acc) 0 ps.

Definition move_to (start : Z) (p : Partition) : Partition :=
  mkPartition (category p) start (sector_count p) (label p) (identifier p).

Definition resize_to (count : Z) (p : Partition) : Partition :=
  mkPartition (category p) (start_sector p) count (label p) (identifier p).

Section Plan.
(** The fixed boundary every region start is aligned to, the alignment
    reserve and the minimum size of FAT32, all in sectors. *)
Variable alignment : Z.
Variable alignment_reserve : Z.
Variable fat32_min : Z.

Definition align_up (x : Z) : Z := (x + alignment - 1) / alignment * alignment.

(** Regions laid one after the other from [cursor], each start aligned. *)
Fixpoint place (cursor : Z) (ps : list Partition) : list Partition :=
  match ps with
  | [] => []
  | p :: rest =>
      let start := align_up cursor in
      move_to start p :: place (start + sector_count p) rest
  end.

(** The emuMMC slots that moved: identifier, old start, new start. *)
Fixpoint relocations (old new : list Partition) (m : gmap Z (Z * Z)) : gmap Z (Z * Z) :=
  match old, new with
  | o :: old', n :: new' =>
      let m := if start_sector o =? start_sector n then m
               else <[identifier o := (start_sector o, start_sector n)]> m in
      relocations old' new' m
  | _, _ => m
  end.

(** Step 1: the boot region, as in the source. *)
Definition boot_region (source : PartitionLayout) : list Partition :=
  of_category Boot (partitions source).

Definition boot_end (source : PartitionLayout) : Z :=
  fold_right (fun p acc => Z.max (start_sector p + sector_count p) acc) 0
    (boot_region source).

(** Step 2: the partitions of each optional category that is selected and
    present, with their source sizes, in the fixed order. *)
Definition emummc_slots (source : PartitionLayout) (o : OperationOptions) : list Partition :=
  if emummc o then of_category Emummc (partitions source) else [].

Definition selected_regions (source : PartitionLayout) (o : OperationOptions)
  : list Partition :=
  (if linux o then of_category Linux (partitions source) else []) ++
  (if android o
   then List.filter (fun p => is_android (category p)) (partitions source) else []) ++
  emummc_slots source o.

(** Step 3: the size of FAT32. *)
Definition fat32_size (source : PartitionLayout) (target_capacity : Z)
    (o : OperationOptions) : Z :=
  if expand_fat32 o
  then target_capacity - total_sectors (boot_region source)
       - total_sectors (selected_regions source o) - alignment_reserve
  else total_sectors (of_category Fat32 (partitions source)).

(** Step 4: the sum of all reserved regions. *)
Definition reserved (source : PartitionLayout) (target_capacity : Z)
    (o : OperationOptions) : Z :=
  total_sectors (boot_region source) + fat32_size source target_capacity o
  + total_sectors (selected_regions source o).

(** Step 5: what is laid out after the boot region, in the fixed order. *)
Definition regions (source : PartitionLayout) (target_capacity : Z)
    (o : OperationOptions) : list Partition :=
  List.map (resize_to (fat32_size source target_capacity o))
    (firstn 1 (of_category Fat32 (partitions source)))
  ++ selected_regions source o.

(** The layout made of the planned partitions, with its derived flags. *)
Definition layout_of (source : PartitionLayout) (new_ps : list Partition)
  : PartitionLayout :=
  let kept c := negb (forallb (fun p => negb (c (category p))) new_ps) in
  mkPartitionLayout new_ps
    (kept (Category_eqb Linux))
    (kept is_android)
    (kept is_android && android_dynamic source)
    (kept (Category_eqb Emummc))
    (kept (Category_eqb Emummc) && emummc_double source).

Definition result : Type := LayoutError + (PartitionLayout * gmap Z (Z * Z)).

(** Modelled from the spec: [calculate_target_layout] of
    [core/partition_scanner.py] is missing; this is [plan] of section 4.2,
    step by step: the boot region as in the source, the selected
    categories with their source sizes, the size of FAT32, the two
    failures, the regions in the fixed order with aligned starts, and the
    relocation of the emuMMC slots. *)
Definition plan (source : PartitionLayout) (target_capacity : Z) (o : OperationOptions)
  : result :=
  if fat32_size source target_capacity o <? fat32_min then inl SizeTooSmallFat32
  else if target_capacity <? reserved source target_capacity o then inl InsufficientSpace
  else
    let moved := place (boot_end source) (regions source target_capacity o) in
    inr (layout_of source (boot_region source ++ moved),
         relocations (emummc_slots source o) (of_category Emummc moved) ∅).

End Plan.

End LayoutCalculator.

(** The window's dictionary as the calculator reads it: the four recognized
    fields. *)
Definition operation_options_of (o : Options) : LayoutCalculator.OperationOptions :=
  LayoutCalculator.mkOperationOptions
    (migrate_linux o) (migrate_android o) (migrate_emummc o) (expand_fat32 o).

(** ** The engines (specification, sections 4.3, 4.4 and 6) *)

Module Engine.

(** Modelled from the spec: [core/migration_engine.py] and
    [core/cleanup_engine.py] are missing; the stages are the states of the
    two state machines of sections 4.3 and 4.4 other than [Done] and
    [Failed], which end a run. *)
Inductive stage :=
  | Preparing
  | WritingTable
  | Copying (c : Category)
  | ExpandingFat32
  | PatchingMetadata
  | Verifying.

Definition stage_name (s : stage) : string :=
  match s with
  | Preparing => "Preparing"
  | WritingTable => "WritingTable"
  | Copying _ => "Copying"
  | ExpandingFat32 => "ExpandingFat32"
  | PatchingMetadata => "PatchingMetadata"
  | Verifying => "Verifying"
  end.

(** What the device makes of a stage: the progress reported while it runs
    (percent and message), the warnings it collects, and the failure that
    ends it, if any. *)
Record stage_result := mk_stage_result {
  reports : list (Z * string);
  warnings : list string;
  failure : option string
}.

Definition device := stage -> stage_result.

(** The categories copied, in the fixed order. *)
Definition copied (source : PartitionLayout) (o : LayoutCalculator.OperationOptions)
  : list Category :=
  [Boot; Fat32] ++
  (if LayoutCalculator.linux o && has_linux source then [Linux] else []) ++
  (if LayoutCalculator.android o && has_android source
   then [if android_dynamic source then AndroidDynamic else AndroidTraditional]
   else []) ++
  (if LayoutCalculator.emummc o && has_emummc source then [Emummc] else []).

Definition migration_stages (source : PartitionLayout)
    (o : LayoutCalculator.OperationOptions) : list stage :=
  [Preparing; WritingTable] ++ List.map Copying (copied source o) ++
  (if LayoutCalculator.expand_fat32 o then [ExpandingFat32] else []) ++
  [PatchingMetadata; Verifying].

Definition cleanup_stages (o : LayoutCalculator.OperationOptions) : list stage :=
  [Preparing; WritingTable] ++
  (if LayoutCalculator.expand_fat32 o then [ExpandingFat32] else []) ++
  [PatchingMetadata].

Definition report (s : stage) (r : Z * string) : callback :=
  on_progress (stage_name s) (fst r) (snd r).

(** Modelled from the spec: [run] of [core/migration_engine.py] and of
    [core/cleanup_engine.py] is missing; this is the state machine of
    sections 4.3 and 4.4 with the callbacks of section 6.  The stages are
    gone through in order; each reports its progress; a failure ends the
    run in [Failed] with [on_error]; after the last stage the run is [Done]
    and calls [on_complete].  The result is the callbacks in the order they
    are made and the warnings collected on the way. *)
Fixpoint run_stages (d : device) (stages : list stage) : list callback * list string :=
  match stages with
  | [] => ([on_complete], [])
  | s :: rest =>
      let r := d s in
      match failure r with
      | Some e => (List.map (report s) (reports r) ++ [on_error e], warnings r)
      | None =>
          let (cs, ws) := run_stages d rest in
          (List.map (report s) (reports r) ++ cs, warnings r ++ ws)
      end
  end.

Definition run_migration (d : device) (source : PartitionLayout)
    (o : LayoutCalculator.OperationOptions) : list callback * list string :=
  run_stages d (migration_stages source o).

Definition run_cleanup (d : device) (o : LayoutCalculator.OperationOptions)
  : list callback * list string :=
  run_stages d (cleanup_stages o).

(** The shape of a run as its caller sees it: progress reports, then one
    terminal callback and nothing after it. *)
Fixpoint well_formed (cs : list callback) : bool :=
  match cs with
  | [] => false
  | [c] => is_terminal c
  | c :: rest => negb (is_terminal c) && well_formed rest
  end.

End Engine.

(** ** A calculator, two cards and some runs of the window

    The interface instantiated with the calculator above (sectors of 512
    bytes, starts aligned to 2048 sectors) and an options frame whose state
    is its dictionary.  The statements about the window are made for every
    instance; this one serves to run the window on concrete events. *)

Module Reference.

Definition sector_size : Z := 512.
Definition alignment : Z := 2048.
Definition alignment_reserve : Z := 2048.
Definition fat32_min : Z := 65536.

Definition calculator (source : PartitionLayout) (capacity_bytes : Z) (o : Options)
  : string + PartitionLayout :=
  match LayoutCalculator.plan alignment alignment_reserve fat32_min source
          (capacity_bytes / sector_size) (operation_options_of o) with
  | inl LayoutCalculator.InsufficientSpace => inl "InsufficientSpace"%string
  | inl LayoutCalculator.SizeTooSmallFat32 => inl "SizeTooSmallFat32"%string
  | inr (l, _) => inr l
  end.

Definition size_mb (f : Category -> bool) (l : PartitionLayout) : Z :=
  LayoutCalculator.total_sectors (List.filter (fun p => f (category p)) (partitions l))
  * sector_size / 1048576.

Definition collaborators : Collaborators := {|
  MigrationOptionsFrame := Options;
  options := fun f => f;
  set_mode := fun _ f => f;
  update_available_partitions := fun _ _ _ f => f;
  options_set_enabled := fun _ f => f;
  calculate_target_layout := calculator;
  get_summary := fun l => pretty (List.length (partitions l)) +:+ " partitions";
  get_fat32_size_mb := size_mb (Category_eqb Fat32);
  get_linux_size_mb := size_mb (Category_eqb Linux);
  get_android_size_mb := size_mb LayoutCalculator.is_android;
  get_emummc_size_mb := size_mb (Category_eqb Emummc)
|}.

Definition window : Type := @MainWindow.t collaborators.
Definition event : Type := @MainWindow.event collaborators.

Definition all_options : Options := mkOptions true true true true true.

Definition init : window := @MainWindow.init collaborators all_options.

(** Sectors in a GiB. *)
Definition GiB : Z := 2097152.

(** A card with a boot region, 16 GiB of FAT32, 4 GiB of Linux and a
    single emuMMC of 1 GiB. *)
Definition card_layout : PartitionLayout :=
  mkPartitionLayout
    [ mkPartition Boot 0 2048 "boot" 0;
      mkPartition Fat32 2048 (16 * GiB) "hos_data" 1;
      mkPartition Linux (2048 + 16 * GiB) (4 * GiB) "l4t" 2;
      mkPartition Emummc (2048 + 20 * GiB) (1 * GiB) "emummc" 3 ]
    true false false true false.

Definition drive_h : Drive.t :=
  Drive.mk "H:" "H:" "Generic SD" "PhysicalDrive1" 1
    32000000000 (Qmake 298 10) (Qmake 160 10).

Definition drive_i : Drive.t :=
  Drive.mk "I:" "SWITCH" "Generic SD" "PhysicalDrive2" 2
    64000000000 (Qmake 596 10) (Qmake 596 10).

Definition disk_h : DiskInfo.t := DiskSelectorFrame.disk_of_drive drive_h.
Definition disk_i : DiskInfo.t := DiskSelectorFrame.disk_of_drive drive_i.
Definition name_h : string := DiskSelectorFrame.display_name drive_h.
Definition name_i : string := DiskSelectorFrame.display_name drive_i.

Definition refresh : event := MainWindow.click_refresh (inr [inr drive_h; inr drive_i]).

(** The ordinary way to a computed layout in migration mode: card H into
    card I. *)
Definition select_h_into_i : list event :=
  [refresh; MainWindow.select_source name_h; MainWindow.select_target name_i].

Definition scan_succeeds : list event :=
  [MainWindow.click_scan; MainWindow.scan_thread_runs (inr card_layout);
   MainWindow.main_loop_runs_next].

Definition scan_fails (e : string) : list event :=
  [MainWindow.click_scan; MainWindow.scan_thread_runs (inl e);
   MainWindow.main_loop_runs_next].

Definition selected : window := MainWindow.run select_h_into_i init.
Definition planned : window := MainWindow.run scan_succeeds selected.

(** The same in cleanup mode, on card H alone. *)
Definition cleanup_selected : window :=
  MainWindow.run [refresh; MainWindow.click_mode cleanup; MainWindow.select_source name_h]
    init.

(** Target first, then the same card as source, then the whole way to the
    start of the engine. *)
Definition same_card_twice : list event :=
  [refresh; MainWindow.select_target name_h; MainWindow.select_source name_h] ++
  scan_succeeds ++ [MainWindow.click_action true true].

(** A migration is started, the mode is switched while it runs, and the
    engine then ends with [c]. *)
Definition switch_during_run (c : callback) : list event :=
  select_h_into_i ++ scan_succeeds ++
  [MainWindow.click_action true true; MainWindow.click_mode cleanup;
   MainWindow.engine_calls c; MainWindow.main_loop_runs_next].

(** A device on which every stage succeeds without a report, and one that
    fails while the Linux partition is copied. *)
Definition quiet_device : Engine.device :=
  fun _ => Engine.mk_stage_result [] [] None.

Definition failing_device : Engine.device :=
  fun s =>
    match s with
    | Engine.Copying Linux =>
        Engine.mk_stage_result [(40, "copying")%string] [] (Some "IoFailure(Copying)"%string)
    | Engine.Copying _ => Engine.mk_stage_result [(20, "copying")%string] [] None
    | _ => Engine.mk_stage_result [] [] None
    end.

End Reference.

(** ** Properties stated below *)

(** Zero or more progress reports, then exactly one terminal callback. *)
Definition progress_then_one_terminal (cs : list callback) : Prop :=
  exists (ps : list callback) (last : callback),
    cs = ps ++ [last] /\
    Forall (fun c => is_terminal c = false) ps /\
    is_terminal last = true.

(** The tasks the window queues for a callback of the engine. *)
Definition tasks_of (c : callback) : list task :=
  match c with
  | on_progress stage percent message =>
      [panel_update stage percent; update_status (stage +:+ " - " +:+ message)]
  | on_complete => [complete_ui]
  | on_error message => [error_ui message]
  end.

Definition ends_run (k : task) : bool :=
  match k with
  | complete_ui | error_ui _ => true
  | _ => false
  end.

(** The action button is enabled only with both layouts set. *)
Definition action_needs_layouts `{Collaborators} (w : MainWindow.t) : Prop :=
  MainWindow.migrate_button w = true ->
  MainWindow.source_layout w <> None /\ MainWindow.target_layout w <> None.

(** What a failed scan would leave behind if it always left nothing: no
    source layout, nothing displayed, the action button disabled. *)
Definition nothing_retained `{Collaborators} (w : MainWindow.t) : Prop :=
  MainWindow.source_layout w = None /\
  MainWindow.source_partition_frame w = None /\
  MainWindow.target_partition_frame w = None /\
  MainWindow.migrate_button w = false.

(** The selection of target [name] is rejected: a dialog is shown, the
    target combobox is emptied and no target disk stays stored.  [during]
    is what runs while the dialog is open, and [more] the dialogs that it
    shows. *)
Definition target_rejected `{Collaborators} (name : string)
    (during : list MainWindow.background) (w : MainWindow.t) : Prop :=
  let w' := MainWindow.step (MainWindow.select_target_during name during) w in
  (exists title message more,
     MainWindow.dialogs w' = MainWindow.dialogs w ++ info title message :: more) /\
  DiskSelectorFrame.target_combobox (MainWindow.disk_selector w') = EmptyString /\
  DiskSelectorFrame.target_disk (MainWindow.disk_selector w') = None /\
  MainWindow.target_disk w' = None.

(** The calculator leaves out the optional categories that its options
    leave out: a layout it returns has a partition of Linux, of Android or
    of emuMMC only when the option of that category is set.  Nothing is asked
    of the partitions of another category. *)
Definition leaves_out_unselected `{Collaborators} : Prop :=
  forall s capacity o l p,
    calculate_target_layout s capacity o = inr l ->
    In p (partitions l) ->
    (category p = Linux -> migrate_linux o = true) /\
    (category p = AndroidTraditional \/ category p = AndroidDynamic ->
     migrate_android o = true) /\
    (category p = Emummc -> migrate_emummc o = true).

(** No partition of the layout has a category that the options leave out. *)
Definition respects_options (l : PartitionLayout) (o : Options) : Prop :=
  forall p, In p (partitions l) ->
    LayoutCalculator.carried (operation_options_of o) (category p) = true.

(** Until an engine is started no task that ends a run is queued. *)
Definition no_run_yet `{Collaborators} (w : MainWindow.t) : Prop :=
  MainWindow.engine_threads w = [] /\
  Forall (fun k => ends_run k = false) (MainWindow.after_queue w).

(** The event runs no task that ends a run: the next task of the main loop
    is none, and where something runs while a dialog of the event is open,
    no engine was started yet. *)
Definition ends_no_run `{Collaborators} (e : MainWindow.event) (w : MainWindow.t) : Prop :=
  match e with
  | MainWindow.main_loop_runs_next =>
      forall k rest, MainWindow.after_queue w = k :: rest -> ends_run k = false
  | MainWindow.select_target_during _ during => during = [] \/ no_run_yet w
  | MainWindow.click_action_during _ _ during1 during2 =>
      (during1 = [] /\ during2 = []) \/ no_run_yet w
  | _ => True
  end.

Definition starts_engine `{Collaborators} (e : MainWindow.event) : bool :=
  match e with
  | MainWindow.click_action_during _ _ _ _ => true
  | _ => false
  end.

(** Case analysis on a run of [_calculate_layout]: on the options and disks
    it reads and on what the calculator returns. *)
Ltac break_match :=
  match goal with
  | |- context [match ?x with _ => _ end] => is_var x; destruct x; simpl
  | |- context [match calculate_target_layout ?a ?b ?c with _ => _ end] =>
      destruct (calculate_target_layout a b c) eqn:?; simpl
  end.

Ltac calculate_cases :=
  unfold MainWindow._calculate_layout, MainWindow.calculate_and_display,
    MainWindow.call_calculator, MainWindow._show_layout_comparison,
    MainWindow.try_except, MainWindow.bind;
  simpl; repeat break_match.

(** ** More properties of the window *)

(** The selector and the window agree on the two disks, the target selector
    is shown in migration mode only, no target is stored in cleanup mode, and
    no name a combobox offers is empty. *)
Definition selections_consistent `{Collaborators} (w : MainWindow.t) : Prop :=
  let ds := MainWindow.disk_selector w in
  DiskSelectorFrame.source_disk ds = MainWindow.source_disk w /\
  DiskSelectorFrame.target_disk ds = MainWindow.target_disk w /\
  DiskSelectorFrame.target_selector_shown ds
  = mode_eqb (MainWindow.current_mode w) migration /\
  (MainWindow.current_mode w = cleanup -> MainWindow.target_disk w = None) /\
  (forall name, In name (DiskSelectorFrame.combobox_values ds) -> name <> EmptyString).

(** Every name a combobox offers is a key of the disk map. *)
Definition offered_names_are_keys `{Collaborators} (w : MainWindow.t) : Prop :=
  let ds := MainWindow.disk_selector w in
  forall name, In name (DiskSelectorFrame.combobox_values ds) ->
    is_Some (DiskSelectorFrame.disk_map ds !! name).

(** The refresh, if the event is one, got through the list of drives: the
    body of its loop raised on none.  A refresh that [list_drive_letters]
    itself fails leaves map and comboboxes alone and counts as well. *)
Definition reads_every_drive `{Collaborators} (e : MainWindow.event) : bool :=
  match e with
  | MainWindow.click_refresh (inr listed) =>
      match snd (DiskSelectorFrame.read_drives listed) with
      | None => true
      | Some _ => false
      end
  | _ => true
  end.

(** The click on the action button answered with yes twice. *)
Definition confirmed_start `{Collaborators} (e : MainWindow.event) : bool :=
  match e with
  | MainWindow.click_action_during true true _ _ => true
  | _ => false
  end.

(** The part of the window that the selector's handlers and the tests of
    [_start_migration] read is in [w'] as in [w]: the mode, the two disks,
    and the selector but for its being enabled. *)
Definition same_selection `{Collaborators} (w w' : MainWindow.t) : Prop :=
  MainWindow.current_mode w' = MainWindow.current_mode w /\
  MainWindow.source_disk w' = MainWindow.source_disk w /\
  MainWindow.target_disk w' = MainWindow.target_disk w /\
  exists enabled,
    MainWindow.disk_selector w'
    = DiskSelectorFrame.set_enabled enabled (MainWindow.disk_selector w).

(** The threads of [w'] are threads of [w]: the others have ended. *)
Definition only_ended `{Collaborators} (w w' : MainWindow.t) : Prop :=
  exists gone, MainWindow.engine_threads w = gone ++ MainWindow.engine_threads w'.

(** The disk whose capacity [_calculate_layout] passes on, and the options. *)
Definition capacity_disk `{Collaborators} (w : MainWindow.t) : option DiskInfo.t :=
  match MainWindow.current_mode w with
  | migration => MainWindow.target_disk w
  | cleanup => MainWindow.source_disk w
  end.

Definition options_for_calc `{Collaborators} (w : MainWindow.t) : Options :=
  match MainWindow.current_mode w with
  | migration => MainWindow.migration_options w
  | cleanup => MainWindow.cleanup_options_for_calc (MainWindow.cleanup_options w)
  end.

(** The widgets that [_set_ui_enabled(False)] disables. *)
Definition locked `{Collaborators} (w : MainWindow.t) : Prop :=
  DiskSelectorFrame.enabled (MainWindow.disk_selector w) = false /\
  MainWindow.scan_button w = false /\
  MainWindow.migrate_button w = false.

(** The first element is not older than any other. *)
Definition newest_first (l : list (Q * string)) : Prop :=
  match l with
  | [] => True
  | p :: rest => forall q, In q rest -> (fst q <= fst p)%Q
  end.

(** The disks that a refresh lists, and those listed in the course of a
    run. *)
Definition listed_by `{Collaborators} (e : MainWindow.event) : list DiskInfo.t :=
  match e with
  | MainWindow.click_refresh (inr listed) =>
      List.map DiskSelectorFrame.disk_of_drive (DiskSelectorFrame.drives_of listed)
  | _ => []
  end.

Definition listed `{Collaborators} (events : list MainWindow.event) : list DiskInfo.t :=
  List.concat (List.map listed_by events).

(** The disks an engine was constructed with. *)
Definition engine_disks (e : engine) : list DiskInfo.t :=
  match e with
  | MigrationEngine sd td _ _ _ => [sd; td]
  | CleanupEngine sd _ _ _ => [sd]
  end.

(** The engine [_start_migration] constructs from what the window holds. *)
Definition engine_for `{Collaborators} (w : MainWindow.t) : option engine :=
  match MainWindow.current_mode w with
  | migration =>
      match MainWindow.source_disk w, MainWindow.target_disk w with
      | Some sd, Some td =>
          Some (MigrationEngine sd td (MainWindow.source_layout w)
                  (MainWindow.target_layout w) (MainWindow.migration_options w))
      | _, _ => None
      end
  | cleanup =>
      match MainWindow.source_disk w with
      | Some sd =>
          Some (CleanupEngine sd (MainWindow.source_layout w)
                  (MainWindow.target_layout w) (MainWindow.cleanup_options w))
      | None => None
      end
  end.

(** Every disk the window holds, has had scanned or has given to an engine
    is among [known]. *)
Definition only_listed `{Collaborators} (known : list DiskInfo.t) (w : MainWindow.t) : Prop :=
  (forall d, MainWindow.source_disk w = Some d -> In d known) /\
  (forall d, MainWindow.target_disk w = Some d -> In d known) /\
  (forall name d,
     DiskSelectorFrame.disk_map (MainWindow.disk_selector w) !! name = Some d ->
     In d known) /\
  (forall p, In p (MainWindow.scanner_calls w) ->
     exists d, In d known /\ DiskInfo.path d = p) /\
  (forall x d, In x (MainWindow.engine_threads w) -> In d (engine_disks x) -> In d known).

(** Nothing was started yet: no engine runs, no task that ends a run is
    queued, the selector is enabled and the progress panel was never
    started. *)
Definition never_started `{Collaborators} (w : MainWindow.t) : Prop :=
  MainWindow.engine_threads w = [] /\
  Forall (fun k => ends_run k = false) (MainWindow.after_queue w) /\
  DiskSelectorFrame.enabled (MainWindow.disk_selector w) = true /\
  ~ In progress_start (MainWindow.progress_panel w).

(** A directory with two logs and another file, the times they were last
    modified, and a card of 1 GiB, for the runs below. *)
Definition example_directory : list string :=
  ["nx_migrator_pro_20250101.log"; "notes.txt"; "nx_migrator_pro_20250102.log"]%string.

Definition example_mtime (f : string) : string + Q :=
  if String.eqb f "nx_migrator_pro_20250102.log" then inr (Qmake 200 1)
  else inr (Qmake 100 1).

Definition small_disk : DiskInfo.t :=
  DiskInfo.mk "J:" "Generic SD" "PhysicalDrive3" 3 1073741824 (Qmake 10 10) (Qmake 10 10).

(** What the progress panel is told for a callback of the engine. *)
Definition panel_call_of (c : callback) : progress_call :=
  match c with
  | on_progress stage percent _ => progress_update stage percent
  | on_complete => progress_complete
  | on_error _ => progress_error
  end.

(** * Theorems *)

Example format_float_1 : format_float 1 (Qmake 1279 10) = "127.9"%string.
Proof. vm_compute. reflexivity. Qed.

Example format_float_2 : format_float 2 (Qmake 5 100) = "0.05"%string.
Proof. vm_compute. reflexivity. Qed.

Example format_float_half_even : format_float 1 (Qmake 25 100) = "0.2"%string.
Proof. vm_compute. reflexivity. Qed.

Example format_float_whole : format_float 1 (Qmake 32 1) = "32.0"%string.
Proof. vm_compute. reflexivity. Qed.

Example format_thousands_1 : format_thousands 1234567 = "1,234,567"%string.
Proof. vm_compute. reflexivity. Qed.

Example format_thousands_2 : format_thousands 1000 = "1,000"%string.
Proof. vm_compute. reflexivity. Qed.

Example format_thousands_3 : format_thousands (-1234) = "-1,234"%string.
Proof. vm_compute. reflexivity. Qed.

(** ** The engines *)

Lemma report_not_terminal (s : Engine.stage) (rs : list (Z * string)) :
  Forall (fun c => is_terminal c = false) (List.map (Engine.report s) rs).
Proof.
  induction rs as [|r rs IH]; simpl; constructor; auto.
Qed.

Lemma run_stages_in_order (d : Engine.device) (stages : list Engine.stage) :
  progress_then_one_terminal (fst (Engine.run_stages d stages)).
Proof.
  induction stages as [|s rest IH]; simpl.
  - exists [], on_complete. repeat split. constructor.
  - destruct (Engine.failure (d s)) as [e|] eqn:Hfail; simpl.
    + exists (List.map (Engine.report s) (Engine.reports (d s))), (on_error e).
      repeat split. apply report_not_terminal.
    + destruct (Engine.run_stages d rest) as [cs ws]; simpl in *.
      destruct IH as (ps & last & -> & Hps & Hlast).
      exists (List.map (Engine.report s) (Engine.reports (d s)) ++ ps), last.
      repeat split; [now rewrite app_assoc | | exact Hlast].
      apply Forall_app. split; [apply report_not_terminal | exact Hps].
Qed.

Lemma well_formed_app (ps : list callback) (last : callback) :
  Forall (fun c => is_terminal c = false) ps ->
  is_terminal last = true ->
  Engine.well_formed (ps ++ [last]) = true.
Proof.
  intros Hps Hlast. induction Hps as [|c ps Hc _ IH]; simpl; [exact Hlast|].
  destruct (ps ++ [last]) eqn:E.
  - destruct ps; discriminate.
  - rewrite Hc. exact IH.
Qed.

(** C1. A run of either engine calls back in order: zero or more
    [on_progress], then exactly one of [on_complete] and [on_error], and
    nothing after it.  Both the decomposition and the executable check
    [well_formed] are given. *)
Theorem run_callbacks_in_order
    (d : Engine.device) (source : PartitionLayout) (o : LayoutCalculator.OperationOptions) :
  progress_then_one_terminal (fst (Engine.run_migration d source o)) /\
  progress_then_one_terminal (fst (Engine.run_cleanup d o)) /\
  Engine.well_formed (fst (Engine.run_migration d source o)) = true /\
  Engine.well_formed (fst (Engine.run_cleanup d o)) = true.
Proof.
  pose proof (run_stages_in_order d (Engine.migration_stages source o)) as Hm.
  pose proof (run_stages_in_order d (Engine.cleanup_stages o)) as Hc.
  unfold Engine.run_migration, Engine.run_cleanup.
  repeat split; try assumption.
  - destruct Hm as (ps & last & -> & Hps & Hlast). now apply well_formed_app.
  - destruct Hc as (ps & last & -> & Hps & Hlast). now apply well_formed_app.
Qed.

Example run_migration_failing :
  fst (Engine.run_migration Reference.failing_device Reference.card_layout
         (LayoutCalculator.mkOperationOptions true false false true))
  = [on_progress "Copying" 20 "copying"; on_progress "Copying" 20 "copying";
     on_progress "Copying" 40 "copying"; on_error "IoFailure(Copying)"].
Proof. reflexivity. Qed.

Example run_cleanup_quiet :
  Engine.run_cleanup Reference.quiet_device
    (LayoutCalculator.mkOperationOptions false false true true)
  = ([on_complete], []).
Proof. reflexivity. Qed.

(** ** Text *)







(** ** The window *)

Section WindowProperties.
Context `{Collaborators}.
Import MainWindow.

(** *** Callbacks of the engine *)

(** C8. Each of the three callbacks, run on the engine's thread, leaves the
    window as it was except for the queue of [root.after], to which it adds
    its tasks; and the event that delivers a callback changes nothing but
    that queue and the list of running threads.  Every change to a widget
    is therefore made by a task, on the main loop. *)
Theorem callbacks_only_schedule (w : t) :
  (forall stage percent message,
     _on_operation_progress stage percent message w
     = set_after_queue
         (after_queue w ++ tasks_of (on_progress stage percent message)) w) /\
  _on_operation_complete w
  = set_after_queue (after_queue w ++ tasks_of on_complete) w /\
  (forall error_msg,
     _on_operation_error error_msg w
     = set_after_queue (after_queue w ++ tasks_of (on_error error_msg)) w) /\
  (forall c, exists queue threads,
     step (engine_calls c) w = set_engine_threads threads (set_after_queue queue w)).
Proof.
  repeat split.
  - intros stage percent message.
    unfold _on_operation_progress, root_after, set_after_queue; simpl.
    now rewrite <- app_assoc.
  - intros c. destruct w; simpl.
    destruct engine_threads0 as [|eng rest].
    + eexists _, _. unfold set_engine_threads, set_after_queue. reflexivity.
    + destruct c; eexists _, _; unfold set_engine_threads, set_after_queue,
        _on_operation_progress, _on_operation_complete, _on_operation_error, root_after;
        simpl; reflexivity.
Qed.

(** The callbacks of one run, delivered to the window that started the
    engine, queue their tasks in the same order, and the thread is gone
    after the terminal callback. *)
Lemma run_delivered (cs : list callback) (w : t) (running : engine) (others : list engine) :
  progress_then_one_terminal cs ->
  engine_threads w = running :: others ->
  let w' := run (List.map engine_calls cs) w in
  after_queue w' = after_queue w ++ List.concat (List.map tasks_of cs) /\
  engine_threads w' = others.
Proof.
  intros (ps & last & -> & Hps & Hlast). revert w.
  induction Hps as [|c ps Hc _ IH]; intros w Hthreads; simpl.
  - rewrite Hthreads. destruct last; try discriminate; split; reflexivity.
  - destruct c; try discriminate. rewrite Hthreads.
    destruct (IH (_on_operation_progress stage percent message w) Hthreads) as [Hq Ht].
    split; [|exact Ht]. rewrite Hq. simpl. now rewrite <- !app_assoc.
Qed.

(** *** Scanning *)

(** C2.  A scan that is started and fails produces no layout: it changes
    neither of the stored layouts, nor what the two partition views display,
    nor the state of the action button, and the calculator is not called;
    the failure is shown in a dialog.  So after a failed scan that starts
    with nothing retained the source layout remains unset, no layout is
    displayed and the action button stays disabled. *)
Theorem failed_scan_changes_no_layout (w : t) (d : DiskInfo.t) (error_msg : string) :
  scan_button w = true ->
  source_disk w = Some d ->
  current_mode w = cleanup \/ target_disk w <> None ->
  after_queue w = [] ->
  let w' := run [click_scan; scan_thread_runs (inl error_msg); main_loop_runs_next] w in
  source_layout w' = source_layout w /\
  target_layout w' = target_layout w /\
  source_partition_frame w' = source_partition_frame w /\
  target_partition_frame w' = target_partition_frame w /\
  migrate_button w' = migrate_button w /\
  calculator_calls w' = calculator_calls w /\
  after_queue w' = [] /\
  dialogs w'
  = dialogs w ++ [info "扫描失败" ("磁盘扫描失败:" +:+ NL +:+ NL +:+ error_msg)] /\
  (nothing_retained w -> nothing_retained w').
Proof.
  intros Hscan Hsource Hready Hqueue w'. subst w'.
  destruct w; simpl in *; subst; simpl.
  destruct current_mode0, target_disk0;
    try (destruct Hready; congruence); simpl; repeat split; auto;
    unfold nothing_retained in *; simpl in *; tauto.
Qed.

(** *** Selecting the target *)

Lemma eqb_empty_false (name : string) : name <> EmptyString -> String.eqb name EmptyString = false.
Proof. intros Hne. now apply String.eqb_neq. Qed.

(** *** Refreshing the list of disks *)

(** A refresh changes the disk map, the values the comboboxes offer and
    the dialogs, and nothing else.  Map and values stay, or the map is
    built from the drives that were read and the values are their names, or
    stay when the loop was left by an exception. *)
Lemma refresh_shape (drives : string + list DiskSelectorFrame.listed_drive) (w : t) :
  exists m values more,
    selector_refresh_disks drives w
    = set_dialogs (dialogs w ++ more)
        (set_disk_selector
           (DiskSelectorFrame.set_combobox_values values
              (DiskSelectorFrame.set_disk_map m (disk_selector w))) w) /\
    ((m = DiskSelectorFrame.disk_map (disk_selector w) /\
      values = DiskSelectorFrame.combobox_values (disk_selector w)) \/
     exists listed,
       drives = inr listed /\
       m = DiskSelectorFrame.build_disk_map (fst (DiskSelectorFrame.read_drives listed)) ∅ /\
       values = match snd (DiskSelectorFrame.read_drives listed) with
                | None =>
                    List.map DiskSelectorFrame.display_name
                      (fst (DiskSelectorFrame.read_drives listed))
                | Some _ => DiskSelectorFrame.combobox_values (disk_selector w)
                end).
Proof.
  unfold selector_refresh_disks, DiskSelectorFrame._refresh_disks.
  destruct drives as [msg|[|d ds]].
  - destruct w as [? ? ? ? ? ? ? sel ? ? ? ? ? ? ? ? ? ? ? ? ?]; destruct sel; simpl.
    eexists _, _, _. split; [reflexivity|]. left. now split.
  - destruct w as [? ? ? ? ? ? ? sel ? ? ? ? ? ? ? ? ? ? ? ? ?]; destruct sel; simpl.
    eexists _, _, _. split; [reflexivity|]. left. now split.
  - destruct (DiskSelectorFrame.read_drives (d :: ds)) as [read [e|]] eqn:Hread.
    + destruct w as [? ? ? ? ? ? ? sel ? ? ? ? ? ? ? ? ? ? ? ? ?];
        destruct sel as [? ? ? values ? ? ? ? ? ?].
      exists (DiskSelectorFrame.build_disk_map read ∅), values. eexists.
      split; [reflexivity|]. right. exists (d :: ds).
      rewrite Hread. simpl. now repeat split.
    + destruct w as [m ? ? ? ? ? ? sel ? ? ? ? ? ? ? ? ? ? ? ? ?];
        destruct sel as [? ? ? values ? ? ? ? ? ?].
      unfold DiskSelectorFrame.update, DiskSelectorFrame.current_mode,
        DiskSelectorFrame.show_custom_info, as_window_ref. cbn [disk_selector current_mode].
      exists (DiskSelectorFrame.build_disk_map read ∅),
        (List.map DiskSelectorFrame.display_name read).
      destruct m; [destruct (2 <=? List.length read)%nat; [|destruct (List.length read =? 1)%nat]|];
        (first [eexists; split; [reflexivity|]
               | exists []; split; [simpl; rewrite app_nil_r; reflexivity|]];
         right; exists (d :: ds); rewrite Hread; simpl; now repeat split).
Qed.

(** A selection in the target combobox of the source's own device is
    turned down by the selector: a dialog is shown and the combobox is
    emptied, and nothing else changes, the stored target disks included. *)
Lemma source_as_target_rejected (w : t) (name : string) (d : DiskInfo.t) :
  offered name w = true ->
  DiskSelectorFrame.target_selector_shown (disk_selector w) = true ->
  name <> EmptyString ->
  DiskSelectorFrame.disk_map (disk_selector w) !! name = Some d ->
  DiskSelectorFrame.same_as_source d (disk_selector w) = true ->
  step (select_target name) w
  = set_disk_selector
      (DiskSelectorFrame.set_target_combobox EmptyString (disk_selector w))
      (show_custom_info "无效选择" "目标磁盘不能与源磁盘相同!" w).
Proof.
  intros Hoff Hshown Hname Hmap Hsame.
  unfold select_target, step. rewrite Hoff, Hshown. simpl.
  unfold selector_on_target_selected, DiskSelectorFrame._on_target_selected.
  destruct w as [? ? ? ? ? ? ? ds ? ? ? ? ? ? ? ? ? ? ? ? ?]; destruct ds; simpl in *.
  rewrite (eqb_empty_false name Hname), Hmap.
  unfold DiskSelectorFrame.same_as_source in *; simpl in *. rewrite Hsame.
  reflexivity.
Qed.

(** *** Layout calculation *)

(** What [_calculate_layout] never touches. *)
Lemma calculate_layout_frame (w : t) :
  let w' := _calculate_layout w in
  current_mode w' = current_mode w /\
  source_disk w' = source_disk w /\
  target_disk w' = target_disk w /\
  source_layout w' = source_layout w /\
  source_partition_frame w' = source_partition_frame w /\
  scanner_calls w' = scanner_calls w /\
  after_queue w' = after_queue w /\
  engine_threads w' = engine_threads w /\
  scan_threads w' = scan_threads w /\
  scan_button w' = scan_button w /\
  disk_selector w' = disk_selector w /\
  cleanup_options w' = cleanup_options w /\
  migration_options w' = migration_options w.
Proof.
  destruct w. calculate_cases; repeat split.
Qed.

(** It enables the action button only with both layouts set, and disables
    nothing. *)
Lemma calculate_layout_keeps_invariant (w : t) :
  action_needs_layouts w -> action_needs_layouts (_calculate_layout w).
Proof.
  unfold action_needs_layouts. destruct w. calculate_cases; intros Hinv Hbutton;
    try (specialize (Hinv Hbutton); destruct Hinv as [Hs Ht]);
    split; congruence.
Qed.

(** *** What runs while a dialog is open *)

(** A calculation shows a dialog when it fails and none otherwise. *)
Lemma calculate_layout_dialogs (w : t) :
  exists more, dialogs (_calculate_layout w) = dialogs w ++ more.
Proof.
  destruct w. calculate_cases;
    first [now eexists | exists []; simpl; now rewrite app_nil_r].
Qed.

Lemma same_selection_refl (w : t) : same_selection w w.
Proof.
  repeat split. exists (DiskSelectorFrame.enabled (disk_selector w)).
  now destruct (disk_selector w).
Qed.

Lemma same_selection_trans (w1 w2 w3 : t) :
  same_selection w1 w2 -> same_selection w2 w3 -> same_selection w1 w3.
Proof.
  intros (Hm & Hs & Ht & en & Hds) (Hm' & Hs' & Ht' & en' & Hds').
  split; [congruence|]. split; [congruence|]. split; [congruence|].
  exists en'. rewrite Hds', Hds. reflexivity.
Qed.

Lemma background_step_keeps_selection (b : background) (w : t) :
  same_selection w (background_step b w).
Proof.
  destruct b; simpl.
  - destruct (scan_threads w); [apply same_selection_refl|].
    unfold scan_thread. simpl.
    destruct (source_disk w) eqn:Hs; [destruct scanned|];
      (split; [reflexivity|]; split; [simpl; now rewrite ?Hs|]; split; [reflexivity|];
       exists (DiskSelectorFrame.enabled (disk_selector w));
       destruct w as [? ? ? ? ? ? ? ds ? ? ? ? ? ? ? ? ? ? ? ? ?]; now destruct ds).
  - destruct (engine_threads w); [apply same_selection_refl|].
    destruct c;
      (repeat (split; [reflexivity|]);
       exists (DiskSelectorFrame.enabled (disk_selector w));
       destruct w as [? ? ? ? ? ? ? ds ? ? ? ? ? ? ? ? ? ? ? ? ?]; now destruct ds).
  - destruct (after_queue w) as [|k rest]; [apply same_selection_refl|].
    destruct k; simpl.
    + unfold _on_scan_complete.
      match goal with |- same_selection _ (_calculate_layout ?x) =>
        destruct (calculate_layout_frame x)
          as (Hm & Hs & Ht & _ & _ & _ & _ & _ & _ & _ & Hds & _);
        split; [rewrite Hm|split; [rewrite Hs|split; [rewrite Ht|rewrite Hds]]]
      end;
        destruct w as [m ? ? ? ? ? ? ds ? ? ? ? ? ? ? ? ? ? ? ? ?]; destruct m; simpl;
        try reflexivity; exists (DiskSelectorFrame.enabled ds); now destruct ds.
    + repeat (split; [reflexivity|]).
      exists (DiskSelectorFrame.enabled (disk_selector w)).
      destruct w as [? ? ? ? ? ? ? ds ? ? ? ? ? ? ? ? ? ? ? ? ?]; now destruct ds.
    + repeat (split; [reflexivity|]).
      exists (DiskSelectorFrame.enabled (disk_selector w)).
      destruct w as [? ? ? ? ? ? ? ds ? ? ? ? ? ? ? ? ? ? ? ? ?]; now destruct ds.
    + repeat (split; [reflexivity|]).
      exists (DiskSelectorFrame.enabled (disk_selector w)).
      destruct w as [? ? ? ? ? ? ? ds ? ? ? ? ? ? ? ? ? ? ? ? ?]; now destruct ds.
    + unfold run_complete_ui.
      destruct w as [m ? ? ? ? ? ? ds ? ? ? ? ? ? ? ? ? ? ? ? ?]; destruct m; simpl;
        (repeat (split; [reflexivity|])); now exists true.
    + unfold run_error_ui.
      destruct w as [m ? ? ? ? ? ? ds ? ? ? ? ? ? ? ? ? ? ? ? ?]; destruct m; simpl;
        (repeat (split; [reflexivity|])); now exists true.
Qed.

(** Nothing that runs while a dialog is open assigns the mode or one of
    the two disks, or changes a selection of the selector. *)
Lemma wait_window_keeps_selection (during : list background) (w : t) :
  same_selection w (wait_window during w).
Proof.
  revert w. induction during as [|b rest IH]; intros w; simpl.
  - apply same_selection_refl.
  - eapply same_selection_trans; [apply background_step_keeps_selection | apply IH].
Qed.

Lemma background_step_dialogs (b : background) (w : t) :
  exists more, dialogs (background_step b w) = dialogs w ++ more.
Proof.
  assert (exists more, dialogs w = dialogs w ++ more) as Hsame
    by (exists []; now rewrite app_nil_r).
  destruct b; simpl.
  - destruct (scan_threads w); [exact Hsame|].
    unfold scan_thread. simpl. destruct (source_disk w); [destruct scanned|]; exact Hsame.
  - destruct (engine_threads w); [exact Hsame|]. destruct c; exact Hsame.
  - destruct (after_queue w) as [|k rest]; [exact Hsame|].
    destruct k; simpl; try exact Hsame.
    + unfold _on_scan_complete.
      match goal with |- context [_calculate_layout ?x] =>
        destruct (calculate_layout_dialogs x) as [more Hmore]; exists more; rewrite Hmore
      end.
      destruct w; simpl. now destruct current_mode0.
    + now eexists.
    + unfold run_complete_ui. destruct w; simpl. destruct current_mode0; now eexists.
    + unfold run_error_ui. destruct w; simpl. destruct current_mode0; now eexists.
Qed.

(** The dialogs shown before stay, in their order. *)
Lemma wait_window_dialogs (during : list background) (w : t) :
  exists more, dialogs (wait_window during w) = dialogs w ++ more.
Proof.
  revert w. induction during as [|b rest IH]; intros w; simpl.
  - exists []. now rewrite app_nil_r.
  - destruct (IH (background_step b w)) as [more Hmore].
    destruct (background_step_dialogs b w) as [more0 Hmore0].
    exists (more0 ++ more). now rewrite Hmore, Hmore0, app_assoc.
Qed.

(** *** A target that is not larger *)

(** The handler of the main window alone. *)
Lemma main_rejects_target_not_larger (during : list background) (w : t)
    (d src : DiskInfo.t) :
  source_disk w = Some src ->
  DiskInfo.size_bytes d <= DiskInfo.size_bytes src ->
  let w' := _on_target_selected (wait_window during) d w in
  (exists more,
     dialogs w' = dialogs w ++ info "无效目标" (invalid_target_message d src) :: more) /\
  DiskSelectorFrame.target_combobox (disk_selector w') = EmptyString /\
  DiskSelectorFrame.target_disk (disk_selector w') = None /\
  DiskSelectorFrame.target_info (disk_selector w') = DiskSelectorFrame.not_selected /\
  target_disk w' = None.
Proof.
  intros Hsrc Hle w'. subst w'. unfold _on_target_selected.
  apply Z.leb_le in Hle.
  change (source_disk
            (set_migrate_button false
               (set_target_partition_frame None
                  (set_target_layout None (set_target_disk (Some d) w)))))
    with (source_disk w).
  rewrite Hsrc, Hle.
  split; [|repeat split].
  match goal with |- context [wait_window during ?x] =>
    destruct (wait_window_dialogs during x) as [more Hmore]
  end.
  exists more.
  change (dialogs (wait_window during
            (show_custom_info "无效目标" (invalid_target_message d src)
               (set_migrate_button false
                  (set_target_partition_frame None
                     (set_target_layout None (set_target_disk (Some d) w)))))) =
          dialogs w ++ info "无效目标" (invalid_target_message d src) :: more).
  rewrite Hmore. simpl. now rewrite <- app_assoc.
Qed.

(** C4, as amended.  A selection in the target combobox of a disk other
    than the source's own device, whose capacity in bytes is not larger
    than the source's, is rejected, whatever runs while the dialog is open:
    the dialog that says so is shown, the target combobox is emptied, and
    neither the selector nor the window keeps a target disk. *)
Theorem target_not_larger_rejected (w : t) (name : string) (d src : DiskInfo.t)
    (during : list background) :
  offered name w = true ->
  DiskSelectorFrame.target_selector_shown (disk_selector w) = true ->
  name <> EmptyString ->
  DiskSelectorFrame.disk_map (disk_selector w) !! name = Some d ->
  source_disk w = Some src ->
  DiskSelectorFrame.same_as_source d (disk_selector w) = false ->
  DiskInfo.size_bytes d <= DiskInfo.size_bytes src ->
  let w' := step (select_target_during name during) w in
  target_rejected name during w /\
  exists more,
    dialogs w' = dialogs w ++ info "无效目标" (invalid_target_message d src) :: more.
Proof.
  intros Hoff Hshown Hname Hmap Hsrc Hother Hle w'.
  assert (w' = _on_target_selected (wait_window during) d
                 (set_disk_selector
                    (DiskSelectorFrame.set_target_info (DiskSelectorFrame.disk_info_text d)
                       (DiskSelectorFrame.set_target_disk (Some d)
                          (DiskSelectorFrame.set_target_combobox name (disk_selector w)))) w))
    as Hw'.
  { subst w'. unfold step. rewrite Hoff, Hshown. simpl.
    unfold selector_on_target_selected, DiskSelectorFrame._on_target_selected.
    destruct w as [? ? ? ? ? ? ? ds ? ? ? ? ? ? ? ? ? ? ? ? ?]; destruct ds; simpl in *.
    rewrite (eqb_empty_false name Hname), Hmap.
    unfold DiskSelectorFrame.same_as_source in *; simpl in *. rewrite Hother.
    reflexivity. }
  unfold target_rejected. fold w'. rewrite Hw'.
  match goal with |- context [_on_target_selected _ d ?x] =>
    destruct (main_rejects_target_not_larger during x d src)
      as ((more & Hd) & Hcombo & Hsel & _ & Ht)
  end; [destruct w; exact Hsrc | exact Hle |].
  rewrite Hd, Hcombo, Hsel, Ht.
  split; [|now exists more].
  split; [now eexists _, _, more|]. repeat split.
Qed.

(** What it does in cleanup mode once a card is selected and scanned. *)
Lemma calculate_layout_cleanup (w : t) (src : PartitionLayout) (sd : DiskInfo.t) :
  current_mode w = cleanup ->
  source_layout w = Some src ->
  source_disk w = Some sd ->
  let o := cleanup_options_for_calc (cleanup_options w) in
  let w' := _calculate_layout w in
  calculator_calls w' = calculator_calls w ++ [(src, DiskInfo.size_bytes sd, o)] /\
  forall new_layout,
    calculate_target_layout src (DiskInfo.size_bytes sd) o = inr new_layout ->
    target_layout w' = Some new_layout /\
    target_partition_frame w' = Some (new_layout, Some sd) /\
    migrate_button w' = true.
Proof.
  intros Hmode Hlayout Hdisk o w'. subst o w'.
  destruct w; simpl in *; subst. calculate_cases.
  - split; [reflexivity|]. intros new_layout Heq. discriminate.
  - split; [reflexivity|]. intros new_layout [= <-]. repeat split.
Qed.

(** C5. In cleanup mode a change of the options stores, for each of Linux,
    Android and emuMMC, the box of the category as its remove flag, and calls
    the calculator with a migrate flag that is the negation of that remove
    flag; and when the calculator leaves out what its options leave out, the
    layout it returns, which becomes the target layout, has no partition of a
    category whose removal is selected. *)
Theorem cleanup_excludes_removed (w : t) (frame : MigrationOptionsFrame) (o : Options)
    (src : PartitionLayout) (sd : DiskInfo.t) :
  current_mode w = cleanup ->
  source_layout w = Some src ->
  source_disk w = Some sd ->
  leaves_out_unselected ->
  let w' := step (change_options frame o) w in
  let c := cleanup_options w' in
  (CleanupOptions.remove_linux c = migrate_linux o /\
   CleanupOptions.remove_android c = migrate_android o /\
   CleanupOptions.remove_emummc c = migrate_emummc o) /\
  exists calc_options,
    calculator_calls w'
    = calculator_calls w ++ [(src, DiskInfo.size_bytes sd, calc_options)] /\
    migrate_linux calc_options = negb (CleanupOptions.remove_linux c) /\
    migrate_android calc_options = negb (CleanupOptions.remove_android c) /\
    migrate_emummc calc_options = negb (CleanupOptions.remove_emummc c) /\
    forall new_layout,
      calculate_target_layout src (DiskInfo.size_bytes sd) calc_options = inr new_layout ->
      target_layout w' = Some new_layout /\
      forall p, In p (partitions new_layout) ->
        (CleanupOptions.remove_linux c = true -> category p <> Linux) /\
        (CleanupOptions.remove_android c = true ->
         category p <> AndroidTraditional /\ category p <> AndroidDynamic) /\
        (CleanupOptions.remove_emummc c = true -> category p <> Emummc).
Proof.
  intros Hmode Hlayout Hdisk Hcalc w' c.
  assert (w' = _calculate_layout
                 (set_cleanup_options (cleanup_options_of o)
                    (set_migration_options_frame frame w))) as Hw'.
  { subst w'. unfold step, _on_options_changed.
    destruct w; simpl in *; subst. reflexivity. }
  destruct (calculate_layout_cleanup
              (set_cleanup_options (cleanup_options_of o)
                 (set_migration_options_frame frame w)) src sd Hmode Hlayout Hdisk)
    as (Hcalls & Hok).
  destruct (calculate_layout_frame
              (set_cleanup_options (cleanup_options_of o)
                 (set_migration_options_frame frame w)))
    as (_ & _ & _ & _ & _ & _ & _ & _ & _ & _ & _ & Hstored & _).
  assert (c = cleanup_options_of o) as Hc by (subst c; rewrite Hw'; exact Hstored).
  rewrite Hc, Hw'. clear Hc Hw' Hstored c w'.
  split; [now repeat split|].
  exists (cleanup_options_for_calc (cleanup_options_of o)).
  split; [exact Hcalls|]. do 3 (split; [reflexivity|]).
  intros new_layout Hnew. split; [now apply Hok|].
  intros p Hp. destruct (Hcalc _ _ _ _ p Hnew Hp) as (Hlinux & Handroid & Hemummc).
  simpl in Hlinux, Handroid, Hemummc. simpl.
  split; [|split].
  - intros Hremove Hcat. specialize (Hlinux Hcat). rewrite Hremove in Hlinux. discriminate.
  - intros Hremove.
    split; intros Hcat; [specialize (Handroid (or_introl Hcat))
                        | specialize (Handroid (or_intror Hcat))];
      rewrite Hremove in Handroid; discriminate.
  - intros Hremove Hcat. specialize (Hemummc Hcat). rewrite Hremove in Hemummc. discriminate.
Qed.

(** A scan in cleanup mode, from the click to the end of
    [_on_scan_complete]. *)
Lemma scan_then_calculate_in_cleanup (w : t) (sd : DiskInfo.t) (scanned : PartitionLayout) :
  current_mode w = cleanup ->
  source_disk w = Some sd ->
  scan_button w = true ->
  after_queue w = [] ->
  let w' := run [click_scan; scan_thread_runs (inr scanned); main_loop_runs_next] w in
  exists o,
    scanner_calls w' = scanner_calls w ++ [DiskInfo.path sd] /\
    calculator_calls w' = calculator_calls w ++ [(scanned, DiskInfo.size_bytes sd, o)] /\
    source_layout w' = Some scanned /\
    source_partition_frame w' = Some (scanned, Some sd) /\
    forall new_layout,
      calculate_target_layout scanned (DiskInfo.size_bytes sd) o = inr new_layout ->
      target_layout w' = Some new_layout /\
      target_partition_frame w' = Some (new_layout, Some sd) /\
      migrate_button w' = true.
Proof.
  intros Hmode Hdisk Hscan Hqueue w'. subst w'.
  destruct w; simpl in *; subst.
  unfold _scan_sd_cards, scan_thread, run_task, _on_scan_complete; simpl.
  match goal with |- context [_calculate_layout ?x] =>
    destruct (calculate_layout_cleanup x scanned sd eq_refl eq_refl eq_refl)
      as (Hcalls & Hok);
    destruct (calculate_layout_frame x)
      as (_ & _ & _ & Hsrc & Hframe & Hscanner & _)
  end.
  eexists. split; [exact Hscanner|]. split; [exact Hcalls|]. split; [exact Hsrc|].
  split; [exact Hframe|]. exact Hok.
Qed.

(** In cleanup mode the stored target disk plays no part. *)
Lemma cleanup_ignores_target_disk (w : t) (x : option DiskInfo.t) :
  current_mode w = cleanup ->
  _calculate_layout (set_target_disk x w) = set_target_disk x (_calculate_layout w).
Proof.
  intros Hmode. destruct w; simpl in *; subst. calculate_cases; reflexivity.
Qed.

(** In cleanup mode the target layout is computed in place for the selected
    card.  Every call of [_calculate_layout] gives the calculator the
    capacity in bytes of the selected card and stores and displays the
    layout it returns for that card; the stored target disk plays no part.
    And a scan that is started on the selected card and runs through, with
    no other event in between, gives the scanner that card's path, the
    calculator the scanned layout and that card's capacity, and displays
    both layouts for that card. *)
Lemma cleanup_layout_in_place (w : t) (sd : DiskInfo.t) :
  current_mode w = cleanup ->
  source_disk w = Some sd ->
  (forall src, source_layout w = Some src ->
     let w' := _calculate_layout w in
     exists o,
       calculator_calls w' = calculator_calls w ++ [(src, DiskInfo.size_bytes sd, o)] /\
       forall new_layout,
         calculate_target_layout src (DiskInfo.size_bytes sd) o = inr new_layout ->
         target_layout w' = Some new_layout /\
         target_partition_frame w' = Some (new_layout, Some sd)) /\
  (forall other,
     _calculate_layout (set_target_disk other w)
     = set_target_disk other (_calculate_layout w)) /\
  (forall scanned, scan_button w = true -> after_queue w = [] ->
     let w' := run [click_scan; scan_thread_runs (inr scanned); main_loop_runs_next] w in
     exists o,
       scanner_calls w' = scanner_calls w ++ [DiskInfo.path sd] /\
       calculator_calls w' = calculator_calls w ++ [(scanned, DiskInfo.size_bytes sd, o)] /\
       source_partition_frame w' = Some (scanned, Some sd) /\
       forall new_layout,
         calculate_target_layout scanned (DiskInfo.size_bytes sd) o = inr new_layout ->
         target_layout w' = Some new_layout /\
         target_partition_frame w' = Some (new_layout, Some sd)).
Proof.
  intros Hmode Hdisk. split; [|split].
  - intros src Hlayout w'.
    destruct (calculate_layout_cleanup w src sd Hmode Hlayout Hdisk) as (Hcalls & Hok).
    eexists. split; [exact Hcalls|]. intros new_layout Hnew.
    destruct (Hok new_layout Hnew) as (Htarget & Hframe & _). now split.
  - intros other. now apply cleanup_ignores_target_disk.
  - intros scanned Hscan Hqueue w'.
    destruct (scan_then_calculate_in_cleanup w sd scanned Hmode Hdisk Hscan Hqueue)
      as (o & Hscanner & Hcalls & _ & Hsource & Hok).
    exists o. split; [exact Hscanner|]. split; [exact Hcalls|]. split; [exact Hsource|].
    intros new_layout Hnew. destruct (Hok new_layout Hnew) as (Htarget & Hframe & _).
    now split.
Qed.

(** *** The action button *)

(** The property reads the button and the two layouts only. *)
Lemma action_needs_layouts_ext (w w' : t) :
  migrate_button w' = migrate_button w ->
  source_layout w' = source_layout w ->
  target_layout w' = target_layout w ->
  action_needs_layouts w -> action_needs_layouts w'.
Proof. unfold action_needs_layouts. intros -> -> ->. auto. Qed.

Lemma no_run_yet_ext (w w' : t) :
  engine_threads w' = engine_threads w ->
  after_queue w' = after_queue w ->
  no_run_yet w -> no_run_yet w'.
Proof. unfold no_run_yet. intros -> ->. auto. Qed.

(** What runs in the background keeps the action button tied to the two
    layouts, except the task that ends a run. *)
Lemma background_step_keeps_invariant (b : background) (w : t) :
  action_needs_layouts w ->
  (b = loop_runs_next ->
   forall k rest, after_queue w = k :: rest -> ends_run k = false) ->
  action_needs_layouts (background_step b w).
Proof.
  intros Hinv Hnext. destruct b; simpl.
  - (* the thread of a scan *)
    destruct w; unfold action_needs_layouts in *; simpl in *.
    destruct scan_threads0; [exact Hinv|].
    unfold scan_thread; simpl. destruct source_disk0; [destruct scanned|]; exact Hinv.
  - (* a callback of the engine *)
    destruct w; unfold action_needs_layouts in *; simpl in *.
    destruct engine_threads0; [exact Hinv|]. destruct c; exact Hinv.
  - (* the next task *)
    destruct (after_queue w) as [|k rest] eqn:Hqueue; [exact Hinv|].
    specialize (Hnext eq_refl k rest eq_refl).
    destruct k; try discriminate; simpl.
    + unfold _on_scan_complete. apply calculate_layout_keeps_invariant.
      destruct w; unfold action_needs_layouts in *; simpl in *.
      destruct current_mode0; simpl; intros Hb; destruct (Hinv Hb); split; congruence.
    + destruct w; unfold action_needs_layouts in *; exact Hinv.
    + destruct w; unfold action_needs_layouts in *; exact Hinv.
    + destruct w; unfold action_needs_layouts in *; exact Hinv.
Qed.

Lemma background_step_keeps_no_run_yet (b : background) (w : t) :
  no_run_yet w -> no_run_yet (background_step b w).
Proof.
  intros [Hthreads Hqueue]. destruct b; simpl.
  - destruct w; unfold no_run_yet; simpl in *.
    destruct scan_threads0; [now split|].
    unfold scan_thread; simpl.
    destruct source_disk0; [destruct scanned|]; simpl; split; auto;
      apply Forall_app; split; auto.
  - rewrite Hthreads. now split.
  - destruct (after_queue w) as [|k rest] eqn:Hq; [split; [assumption|now rewrite Hq]|].
    inversion Hqueue as [|? ? Hk Hrest]; subst.
    destruct k; try discriminate; simpl.
    + unfold _on_scan_complete.
      match goal with |- no_run_yet (_calculate_layout ?v) =>
        destruct (calculate_layout_frame v) as (_ & _ & _ & _ & _ & _ & Hq' & Ht' & _);
        unfold no_run_yet; rewrite Hq', Ht'
      end.
      destruct w; simpl in *. destruct current_mode0; now split.
    + destruct w; unfold no_run_yet; simpl in *; now split.
    + destruct w; unfold no_run_yet; simpl in *; now split.
    + destruct w; unfold no_run_yet; simpl in *; now split.
Qed.

Lemma wait_window_keeps_no_run_yet (during : list background) (w : t) :
  no_run_yet w -> no_run_yet (wait_window during w).
Proof.
  revert w. induction during as [|b rest IH]; intros w Hno; [exact Hno|].
  simpl. apply IH. now apply background_step_keeps_no_run_yet.
Qed.

(** While no engine was started, what runs while a dialog is open keeps
    the action button tied to the two layouts. *)
Lemma wait_window_keeps_invariant (during : list background) (w : t) :
  during = [] \/ no_run_yet w ->
  action_needs_layouts w -> action_needs_layouts (wait_window during w).
Proof.
  intros [-> | Hno]; [auto|].
  revert w Hno. induction during as [|b rest IH]; intros w Hno Hinv; [exact Hinv|].
  simpl. apply IH.
  - now apply background_step_keeps_no_run_yet.
  - apply background_step_keeps_invariant; [exact Hinv|].
    intros _ k rest' Hq. destruct Hno as [_ Hqueue]. rewrite Hq in Hqueue.
    now inversion Hqueue.
Qed.

(** Every event keeps the action button tied to the two layouts, except
    the task that ends a run. *)
Lemma step_keeps_invariant (e : event) (w : t) :
  action_needs_layouts w ->
  ends_no_run e w ->
  action_needs_layouts (step e w).
Proof.
  intros Hinv Hnext. destruct e; simpl.
  - (* click_refresh *)
    destruct (DiskSelectorFrame.enabled (disk_selector w)); [|exact Hinv].
    destruct (refresh_shape drives w) as (m & values & more & -> & _).
    exact Hinv.
  - (* select_source *)
    destruct (offered name w); [|exact Hinv].
    unfold selector_on_source_selected, DiskSelectorFrame._on_source_selected.
    destruct w. unfold action_needs_layouts in *. simpl in *.
    destruct (String.eqb name EmptyString); [exact Hinv|].
    destruct (DiskSelectorFrame.disk_map disk_selector0 !! name); [|exact Hinv].
    simpl. discriminate.
  - (* select_target_during *)
    destruct (offered name w && _); [|exact Hinv].
    unfold selector_on_target_selected, DiskSelectorFrame._on_target_selected.
    cbn [disk_selector set_disk_selector DiskSelectorFrame.target_combobox
         DiskSelectorFrame.set_target_combobox DiskSelectorFrame.disk_map].
    destruct (String.eqb name EmptyString); [exact Hinv|].
    destruct (DiskSelectorFrame.disk_map (disk_selector w) !! name) as [d|]; [|exact Hinv].
    simpl in Hnext.
    destruct (DiskSelectorFrame.same_as_source d _).
    + eapply action_needs_layouts_ext;
        [| | |apply (wait_window_keeps_invariant during)]; try reflexivity.
      * destruct Hnext as [Hd | Hno]; [now left | right; exact Hno].
      * exact Hinv.
    + unfold _on_target_selected.
      cbn [source_disk set_migrate_button set_target_partition_frame set_target_layout
           set_target_disk DiskSelectorFrame.update set_disk_selector].
      destruct (source_disk w) as [src|]; [|unfold action_needs_layouts; simpl; discriminate].
      destruct (DiskInfo.size_bytes d <=? DiskInfo.size_bytes src);
        [|unfold action_needs_layouts; simpl; discriminate].
      eapply action_needs_layouts_ext;
        [| | |apply (wait_window_keeps_invariant during)]; try reflexivity.
      * destruct Hnext as [Hd | Hno]; [now left | right; exact Hno].
      * unfold action_needs_layouts; simpl; discriminate.
  - (* click_mode *)
    unfold _switch_mode. destruct (mode_eqb (current_mode w) m); [exact Hinv|].
    unfold action_needs_layouts. destruct m; simpl; discriminate.
  - (* change_options *)
    unfold _on_options_changed.
    assert (forall v, action_needs_layouts v ->
              action_needs_layouts
                match current_mode v, source_layout v, target_disk v with
                | migration, Some _, Some _ => _calculate_layout v
                | migration, _, _ => v
                | cleanup, Some _, _ => _calculate_layout v
                | cleanup, None, _ => v
                end) as Hcalc.
    { intros v Hv.
      destruct (current_mode v), (source_layout v), (target_disk v);
        auto using calculate_layout_keeps_invariant. }
    apply Hcalc. destruct w; unfold action_needs_layouts in *; simpl in *.
    destruct current_mode0; exact Hinv.
  - (* click_scan *)
    destruct (scan_button w); [|exact Hinv].
    unfold _scan_sd_cards. destruct w; unfold action_needs_layouts in *; simpl in *.
    destruct source_disk0; [|exact Hinv].
    destruct current_mode0, target_disk0; exact Hinv.
  - (* click_action_during *)
    destruct (migrate_button w); [|exact Hinv].
    simpl in Hnext.
    assert (forall title message answer v,
              no_run_yet w -> no_run_yet v ->
              no_run_yet (show_custom_confirm title message answer v)) as Hconfirm
      by (intros ? ? ? v _ Hv; exact Hv).
    assert (forall title message v,
              action_needs_layouts v ->
              action_needs_layouts (wait_window during1
                                      (show_custom_confirm title message response v)) ->
              (during2 = [] \/
               no_run_yet (wait_window during1
                             (show_custom_confirm title message response v))) ->
              forall title2 message2,
                action_needs_layouts
                  (wait_window during2
                     (show_custom_confirm title2 message2 response2
                        (wait_window during1
                           (show_custom_confirm title message response v))))) as Hsecond.
    { intros title message v Hv Hw1 Hside title2 message2.
      apply wait_window_keeps_invariant; [|exact Hw1].
      destruct Hside as [Hd | Hno]; [now left | right; exact Hno]. }
    assert (forall title message,
              action_needs_layouts
                (wait_window during1 (show_custom_confirm title message response w)) /\
              (during2 = [] \/
               no_run_yet (wait_window during1
                             (show_custom_confirm title message response w)))) as Hfirst.
    { intros title message. split.
      - apply wait_window_keeps_invariant; [|exact Hinv].
        destruct Hnext as [[Hd _] | Hno]; [now left | right; exact Hno].
      - destruct Hnext as [[_ Hd] | Hno]; [now left | right].
        apply wait_window_keeps_no_run_yet. exact Hno. }
    unfold _start_migration.
    destruct (current_mode w).
    + destruct (target_disk w), (source_disk w); try exact Hinv.
      match goal with |- context [show_custom_confirm ?title ?message response w] =>
        destruct (Hfirst title message) as [Hw1 Hside]
      end.
      destruct response; cbn [negb]; [|exact Hw1].
      destruct response2; cbn [negb];
        [unfold action_needs_layouts; simpl; discriminate | now apply Hsecond].
    + destruct (removed_parts w), (source_disk w); try exact Hinv.
      match goal with |- context [show_custom_confirm ?title ?message response w] =>
        destruct (Hfirst title message) as [Hw1 Hside]
      end.
      destruct response; cbn [negb]; [|exact Hw1].
      destruct response2; cbn [negb];
        [unfold action_needs_layouts; simpl; discriminate | now apply Hsecond].
  - (* scan_thread_runs *)
    apply (background_step_keeps_invariant (thread_scans scanned));
      [exact Hinv | discriminate].
  - (* engine_calls *)
    apply (background_step_keeps_invariant (engine_reports c));
      [exact Hinv | discriminate].
  - (* main_loop_runs_next *)
    apply (background_step_keeps_invariant loop_runs_next); [exact Hinv|].
    intros _. exact Hnext.
Qed.

Lemma step_keeps_no_run_yet (e : event) (w : t) :
  starts_engine e = false -> no_run_yet w -> no_run_yet (step e w).
Proof.
  intros He Hno. destruct e; try discriminate; simpl.
  - destruct (DiskSelectorFrame.enabled (disk_selector w)); [|exact Hno].
    destruct (refresh_shape drives w) as (m & values & more & -> & _).
    exact Hno.
  - destruct (offered name w); [|exact Hno].
    unfold selector_on_source_selected, DiskSelectorFrame._on_source_selected.
    destruct w; unfold no_run_yet in *; simpl in *.
    destruct (String.eqb name EmptyString); [exact Hno|].
    destruct (DiskSelectorFrame.disk_map disk_selector0 !! name); exact Hno.
  - destruct (offered name w && _); [|exact Hno].
    unfold selector_on_target_selected, DiskSelectorFrame._on_target_selected.
    cbn [disk_selector set_disk_selector DiskSelectorFrame.target_combobox
         DiskSelectorFrame.set_target_combobox DiskSelectorFrame.disk_map].
    destruct (String.eqb name EmptyString); [exact Hno|].
    destruct (DiskSelectorFrame.disk_map (disk_selector w) !! name) as [d|]; [|exact Hno].
    destruct (DiskSelectorFrame.same_as_source d _).
    + eapply no_run_yet_ext; [| |apply (wait_window_keeps_no_run_yet during)];
        try reflexivity.
      exact Hno.
    + unfold _on_target_selected.
      cbn [source_disk set_migrate_button set_target_partition_frame set_target_layout
           set_target_disk DiskSelectorFrame.update set_disk_selector].
      destruct (source_disk w) as [src|]; [|exact Hno].
      destruct (DiskInfo.size_bytes d <=? DiskInfo.size_bytes src); [|exact Hno].
      eapply no_run_yet_ext; [| |apply (wait_window_keeps_no_run_yet during)];
        try reflexivity.
      exact Hno.
  - unfold _switch_mode. destruct (mode_eqb (current_mode w) m); [exact Hno|].
    destruct w; unfold no_run_yet in *; simpl in *. destruct m; exact Hno.
  - destruct Hno as [Hthreads Hqueue]. unfold _on_options_changed, no_run_yet.
    assert (forall v, engine_threads v = [] ->
              Forall (fun k => ends_run k = false) (after_queue v) ->
              no_run_yet
                match current_mode v, source_layout v, target_disk v with
                | migration, Some _, Some _ => _calculate_layout v
                | migration, _, _ => v
                | cleanup, Some _, _ => _calculate_layout v
                | cleanup, None, _ => v
                end) as Hcalc.
    { intros v Hv1 Hv2. unfold no_run_yet.
      destruct (calculate_layout_frame v) as (_ & _ & _ & _ & _ & _ & Hq & Ht & _).
      destruct (current_mode v), (source_layout v), (target_disk v);
        rewrite ?Hq, ?Ht; now split. }
    apply Hcalc; destruct w; simpl in *; destruct current_mode0; assumption.
  - destruct (scan_button w); [|exact Hno].
    unfold _scan_sd_cards. destruct w; unfold no_run_yet in *; simpl in *.
    destruct source_disk0; [|exact Hno].
    destruct current_mode0, target_disk0; exact Hno.
  - now apply (background_step_keeps_no_run_yet (thread_scans scanned)).
  - now apply (background_step_keeps_no_run_yet (engine_reports c)).
  - now apply (background_step_keeps_no_run_yet loop_runs_next).
Qed.

(** Before the first start of an engine the action button is never enabled
    without both layouts. *)
Lemma invariant_until_first_run (events : list event) (w : t) :
  forallb (fun e => negb (starts_engine e)) events = true ->
  no_run_yet w -> action_needs_layouts w ->
  action_needs_layouts (run events w).
Proof.
  revert w. induction events as [|e rest IH]; intros w Hev Hno Hinv; [exact Hinv|].
  simpl in Hev. apply andb_prop in Hev as [He Hrest].
  apply negb_true_iff in He. simpl. apply IH; [exact Hrest | |].
  - now apply step_keeps_no_run_yet.
  - apply step_keeps_invariant; [exact Hinv|].
    destruct e; simpl; auto.
    intros k rest' Hq. destruct Hno as [_ Hqueue]. rewrite Hq in Hqueue.
    now inversion Hqueue.
Qed.
End WindowProperties.

(** ** The layout calculator *)

Section Calculator.
Import LayoutCalculator.
Variables alignment alignment_reserve fat32_min : Z.

Lemma of_category_In (c : Category) (ps : list Partition) (p : Partition) :
  In p (of_category c ps) -> category p = c.
Proof.
  unfold of_category. rewrite filter_In. intros [_ Hc].
  destruct (category p), c; simpl in Hc; congruence.
Qed.

Lemma firstn_subset (n : nat) (ps : list Partition) (p : Partition) :
  In p (firstn n ps) -> In p ps.
Proof.
  revert ps. induction n as [|n IH]; intros [|q ps] Hin; simpl in *; try contradiction.
  destruct Hin as [-> | Hin]; [now left | right; now apply IH].
Qed.

Lemma place_keeps_categories (ps : list Partition) (cursor : Z) (p : Partition) :
  In p (place alignment cursor ps) -> exists q, In q ps /\ category p = category q.
Proof.
  revert cursor. induction ps as [|q ps IH]; intros cursor Hin; [contradiction|].
  simpl in Hin. destruct Hin as [<- | Hin].
  - exists q. split; [now left | reflexivity].
  - destruct (IH _ Hin) as (q' & Hq' & Hcat). exists q'. split; [now right | exact Hcat].
Qed.

(** A category that the options leave out has no partition in the planned
    layout. *)
Lemma plan_carries_only_selected (source : PartitionLayout) (capacity : Z)
    (o : OperationOptions) (l : PartitionLayout) (m : gmap Z (Z * Z)) :
  plan alignment alignment_reserve fat32_min source capacity o = inr (l, m) ->
  forall p, In p (partitions l) -> carried o (category p) = true.
Proof.
  unfold plan. destruct (_ <? fat32_min); [discriminate|].
  destruct (capacity <? _); [discriminate|].
  intros [= <- _] p Hin. simpl in Hin.
  apply in_app_or in Hin as [Hboot | Hmoved].
  - now rewrite (of_category_In _ _ _ Hboot).
  - apply place_keeps_categories in Hmoved as (q & Hq & ->).
    unfold regions, selected_regions, emummc_slots in Hq.
    repeat (apply in_app_or in Hq as [Hq | Hq]).
    + apply in_map_iff in Hq as (q0 & <- & Hq0). simpl.
      apply firstn_subset in Hq0. now rewrite (of_category_In _ _ _ Hq0).
    + destruct (linux o) eqn:Ho; [|contradiction].
      rewrite (of_category_In _ _ _ Hq). exact Ho.
    + destruct (android o) eqn:Ho; [|contradiction].
      apply filter_In in Hq as [_ Hq]. destruct (category q); try discriminate; exact Ho.
    + destruct (emummc o) eqn:Ho; [|contradiction].
      rewrite (of_category_In _ _ _ Hq). exact Ho.
Qed.

End Calculator.

Lemma reference_calculator_respects_options (s : PartitionLayout) (capacity : Z) (o : Options)
    (l : PartitionLayout) :
  Reference.calculator s capacity o = inr l -> respects_options l o.
Proof.
  unfold Reference.calculator.
  destruct (LayoutCalculator.plan _ _ _ _ _ _) as [[]|[l' m]] eqn:Hplan; try discriminate.
  intros [= <-] p Hp. eapply plan_carries_only_selected; eassumption.
Qed.

Lemma reference_calculator_leaves_out_unselected :
  @leaves_out_unselected Reference.collaborators.
Proof.
  intros s capacity o l p Hl Hp.
  pose proof (reference_calculator_respects_options s capacity o l Hl p Hp) as Hcarried.
  split; [|split].
  - intros Hcat. rewrite Hcat in Hcarried. exact Hcarried.
  - intros [Hcat | Hcat]; rewrite Hcat in Hcarried; exact Hcarried.
  - intros Hcat. rewrite Hcat in Hcarried. exact Hcarried.
Qed.



(** ** Runs of the window on two cards *)

Section Runs.
Import MainWindow Reference.
#[local] Existing Instance collaborators.

Example selected_state :
  source_disk selected = Some disk_h /\ target_disk selected = Some disk_i /\
  migrate_button selected = false /\ source_layout selected = None.
Proof. vm_compute. repeat split. Qed.

Example planned_state :
  migrate_button planned = true /\ source_layout planned = Some card_layout /\
  calculator_calls planned = [(card_layout, 64000000000, all_options)] /\
  scanner_calls planned = ["PhysicalDrive1"%string].
Proof. vm_compute. repeat split. Qed.

(** A second scan of a card whose layout is already displayed fails: the
    failure is shown, and what the first scan left is as it was. *)
Example failed_rescan_retains_layout :
  let w' := run (scan_fails "CorruptTable") planned in
  dialogs w'
  = dialogs planned
    ++ [info "扫描失败" ("磁盘扫描失败:" +:+ NL +:+ NL +:+ "CorruptTable")] /\
  source_layout w' = Some card_layout /\
  migrate_button w' = true /\
  ~ nothing_retained w'.
Proof.
  vm_compute. repeat split. intros (Hlayout & _). discriminate.
Qed.

Lemma failed_scan_changes_no_layout_witness :
  nothing_retained (run (scan_fails "CorruptTable") selected).
Proof.
  destruct (failed_scan_changes_no_layout selected disk_h "CorruptTable")
    as (_ & _ & _ & _ & _ & _ & _ & _ & Hnothing).
  - vm_compute. reflexivity.
  - vm_compute. reflexivity.
  - right. vm_compute. discriminate.
  - vm_compute. reflexivity.
  - apply Hnothing. vm_compute. repeat split.
Defined.



(** C4, the counterexample.  Card I is the stored target and card H the
    source; card H is then chosen as target.  Its capacity is not larger
    than the source's, it is its own; the selection is turned down by the
    disk selector, and card I stays the stored target. *)
Lemma source_card_as_target_not_reset :
  current_mode selected = migration /\
  DiskSelectorFrame.disk_map (disk_selector selected) !! name_h = Some disk_h /\
  source_disk selected = Some disk_h /\
  DiskInfo.size_bytes disk_h <= DiskInfo.size_bytes disk_h /\
  target_disk (step (select_target name_h) selected) = Some disk_i /\
  ~ target_rejected name_h [] selected.
Proof.
  repeat split; try (vm_compute; reflexivity); try (vm_compute; discriminate).
  intros (_ & _ & _ & Htarget). vm_compute in Htarget. discriminate.
Qed.

(** Card H is chosen as target and then the larger card I as source; a
    scan is started, and card H is chosen as target again.  While the dialog
    that turns it down is open, the scan ends and its callback runs. *)
Lemma target_not_larger_rejected_witness :
  target_rejected name_h [thread_scans (inr card_layout); loop_runs_next]
    (run [refresh; select_target name_h; select_source name_i; click_scan] init).
Proof.
  apply (target_not_larger_rejected
           (run [refresh; select_target name_h; select_source name_i; click_scan] init)
           name_h disk_h disk_i).
  - vm_compute. reflexivity.
  - vm_compute. reflexivity.
  - vm_compute. discriminate.
  - vm_compute. reflexivity.
  - vm_compute. reflexivity.
  - vm_compute. reflexivity.
  - vm_compute. discriminate.
Defined.

(** In that run the callback of the scan finds card H stored as the
    target: it computes a layout for it and enables the action button, and
    the handler then takes the target back. *)
Example target_rejected_while_scan_ends :
  let w := run [refresh; select_target name_h; select_source name_i; click_scan] init in
  let w' := step (select_target_during name_h
                    [thread_scans (inr card_layout); loop_runs_next]) w in
  target_disk w' = None /\
  calculator_calls w' = [(card_layout, DiskInfo.size_bytes disk_h, all_options)] /\
  target_layout w' <> None /\
  migrate_button w' = true.
Proof. vm_compute. repeat split. discriminate. Qed.

(** The window after a scan of card H in cleanup mode, every box ticked. *)
Example cleanup_scanned_state :
  let w := run scan_succeeds cleanup_selected in
  cleanup_options w = CleanupOptions.mk true true true true /\
  source_layout w = Some card_layout /\ source_disk w = Some disk_h /\
  current_mode w = cleanup.
Proof. vm_compute. repeat split. Qed.

(** Card H was scanned in cleanup mode; the boxes of Linux and emuMMC are
    then ticked and the one of Android is not. *)
Lemma cleanup_excludes_removed_witness :
  let w := run scan_succeeds cleanup_selected in
  let w' := step (change_options all_options (mkOptions true true false true true)) w in
  cleanup_options w' = CleanupOptions.mk true false true true /\
  exists calc_options,
    calculator_calls w' = calculator_calls w ++ [(card_layout, 32000000000, calc_options)] /\
    migrate_linux calc_options = false /\
    migrate_android calc_options = true /\
    migrate_emummc calc_options = false /\
    forall new_layout,
      calculator card_layout 32000000000 calc_options = inr new_layout ->
      target_layout w' = Some new_layout /\
      forall p, In p (partitions new_layout) ->
        category p <> Linux /\ category p <> Emummc.
Proof.
  destruct (cleanup_excludes_removed (run scan_succeeds cleanup_selected) all_options
              (mkOptions true true false true true) card_layout disk_h)
    as ((Hlinux & Handroid & Hemummc) & calc_options & Hcalls & Hl & Ha & He & Hlayout).
  - vm_compute. reflexivity.
  - vm_compute. reflexivity.
  - vm_compute. reflexivity.
  - exact reference_calculator_leaves_out_unselected.
  - split; [vm_compute; reflexivity|].
    exists calc_options. split; [exact Hcalls|].
    split; [rewrite Hl, Hlinux; reflexivity|].
    split; [rewrite Ha, Handroid; reflexivity|].
    split; [rewrite He, Hemummc; reflexivity|].
    intros new_layout Hnew. destruct (Hlayout new_layout Hnew) as [Htarget Hparts].
    split; [exact Htarget|]. intros p Hp.
    destruct (Hparts p Hp) as (Hno_linux & _ & Hno_emummc).
    split; [apply Hno_linux | apply Hno_emummc].
    + rewrite Hlinux. reflexivity.
    + rewrite Hemummc. reflexivity.
Defined.

Example cleanup_layout_in_place_on_card_h :
  let w' := run scan_succeeds cleanup_selected in
  exists o,
    scanner_calls w' = scanner_calls cleanup_selected ++ ["PhysicalDrive1"%string] /\
    calculator_calls w'
    = calculator_calls cleanup_selected ++ [(card_layout, 32000000000, o)] /\
    source_partition_frame w' = Some (card_layout, Some disk_h) /\
    forall new_layout,
      calculator card_layout 32000000000 o = inr new_layout ->
      target_layout w' = Some new_layout /\
      target_partition_frame w' = Some (new_layout, Some disk_h).
Proof.
  destruct (cleanup_layout_in_place cleanup_selected disk_h) as (_ & _ & Hscan).
  - vm_compute. reflexivity.
  - vm_compute. reflexivity.
  - apply (Hscan card_layout).
    + vm_compute. reflexivity.
    + vm_compute. reflexivity.
Qed.

(** C6, at the failing input.  In cleanup mode card H is selected and
    scanned; while the scan thread runs, card I is selected, which drops the
    stored layout; the main loop then runs the callback of the scan.  Only
    card H was scanned, and its layout is stored and displayed for card I,
    the calculator is given it with the capacity of card I, the layout it
    returns is displayed for card I, and the action button is enabled. *)
Theorem scan_overtaken_by_selection :
  let w := run [click_scan; scan_thread_runs (inr card_layout);
                select_source name_i; main_loop_runs_next] cleanup_selected in
  current_mode w = cleanup /\
  scanner_calls w = [DiskInfo.path disk_h] /\
  source_disk w = Some disk_i /\
  DiskInfo.path disk_i <> DiskInfo.path disk_h /\
  source_layout w = Some card_layout /\
  source_partition_frame w = Some (card_layout, Some disk_i) /\
  (exists o new_layout,
     calculator_calls w = [(card_layout, DiskInfo.size_bytes disk_i, o)] /\
     target_layout w = Some new_layout /\
     target_partition_frame w = Some (new_layout, Some disk_i)) /\
  migrate_button w = true.
Proof.
  vm_compute. repeat split; [discriminate|]. eexists _, _. repeat split.
Qed.

(** The scenario of a migration to a card of 64 GiB with Linux kept and
    FAT32 expanded: FAT32 gets the capacity less the boot region, the 4 GiB
    of Linux and the alignment reserve; Linux keeps its size and follows it. *)
Example plan_expands_fat32 :
  match LayoutCalculator.plan alignment alignment_reserve fat32_min card_layout (64 * GiB)
          (LayoutCalculator.mkOperationOptions true false false true) with
  | inr (l, m) =>
      List.map (fun p => (category p, start_sector p, sector_count p)) (partitions l)
      = [(Boot, 0, 2048);
         (Fat32, 2048, 64 * GiB - 2048 - 4 * GiB - alignment_reserve);
         (Linux, 64 * GiB - 4 * GiB - alignment_reserve, 4 * GiB)] /\
      m = ∅
  | inl _ => False
  end.
Proof. vm_compute. split; reflexivity. Qed.

(** Linux dropped and FAT32 left at its size: the emuMMC slot moves left by
    the 4 GiB of Linux, and that is the one entry of the relocation map. *)
Example plan_relocates_emummc :
  match LayoutCalculator.plan alignment alignment_reserve fat32_min card_layout (32 * GiB)
          (LayoutCalculator.mkOperationOptions false false true false) with
  | inr (l, m) =>
      List.map (fun p => (category p, start_sector p, sector_count p)) (partitions l)
      = [(Boot, 0, 2048); (Fat32, 2048, 16 * GiB); (Emummc, 2048 + 16 * GiB, 1 * GiB)] /\
      m = {[ 3 := (2048 + 20 * GiB, 2048 + 16 * GiB) ]}
  | inl _ => False
  end.
Proof. vm_compute. split; reflexivity. Qed.

Example plan_insufficient_space :
  LayoutCalculator.plan alignment alignment_reserve fat32_min card_layout (8 * GiB)
    (LayoutCalculator.mkOperationOptions true false true false)
  = inl LayoutCalculator.InsufficientSpace.
Proof. vm_compute. reflexivity. Qed.

(** C9, at the failing input.  The target is chosen first, then the same
    card as source: nothing turns the second selection down, the scan and
    the calculation go through, and after the two confirmations a
    migration engine is started whose source and target are one physical
    device. *)
Theorem same_card_as_source_and_target :
  let w := run same_card_twice init in
  source_disk w = Some disk_h /\
  target_disk w = Some disk_h /\
  exists sd td source_layout target_layout opts,
    engine_threads w = [MigrationEngine sd td source_layout target_layout opts] /\
    DiskInfo.path sd = DiskInfo.path td.
Proof.
  vm_compute. repeat split. eexists _, _, _, _, _. split; reflexivity.
Qed.

(** C10, at the failing input.  A migration runs; the mode buttons stay
    enabled, and a click on one resets both layouts; when the engine ends,
    with success or with a failure, the window enables its widgets again,
    the action button among them, with no layout set. *)
Theorem action_enabled_without_layouts :
  (let w := run (switch_during_run on_complete) init in
   migrate_button w = true /\ source_layout w = None /\ target_layout w = None /\
   ~ action_needs_layouts w) /\
  (let w := run (switch_during_run (on_error "IoFailure(Copying)")) init in
   migrate_button w = true /\ source_layout w = None /\ target_layout w = None /\
   ~ action_needs_layouts w).
Proof.
  split; vm_compute; repeat split; intros Hinv; destruct (Hinv eq_refl) as [Hs _];
    now apply Hs.
Qed.
End Runs.

(** ** Where a dialog is put *)

Lemma centered_within_a_pixel (parent_pos parent_size size : Z) :
  let pos := Dialog.centered parent_pos parent_size size in
  -1 <= (2 * pos + size) - (2 * parent_pos + parent_size) <= 1.
Proof.
  unfold Dialog.centered. simpl.
  pose proof (Z.div_mod parent_size 2 ltac:(lia)).
  pose proof (Z.mod_pos_bound parent_size 2 ltac:(lia)).
  pose proof (Z.div_mod size 2 ltac:(lia)).
  pose proof (Z.mod_pos_bound size 2 ltac:(lia)).
  lia.
Qed.

Lemma centered_inside (parent_pos parent_size size : Z) :
  0 <= size <= parent_size ->
  let pos := Dialog.centered parent_pos parent_size size in
  parent_pos <= pos /\ pos + size <= parent_pos + parent_size.
Proof.
  intros Hsize. unfold Dialog.centered. simpl.
  pose proof (Z.div_mod parent_size 2 ltac:(lia)).
  pose proof (Z.mod_pos_bound parent_size 2 ltac:(lia)).
  pose proof (Z.div_mod size 2 ltac:(lia)).
  pose proof (Z.mod_pos_bound size 2 ltac:(lia)).
  assert (size / 2 <= parent_size / 2) by (apply Z.div_le_mono; lia).
  lia.
Qed.

Lemma to_53_bits_small (n : Z) : Z.abs n < 2 ^ 53 -> Dialog.to_53_bits n = n.
Proof.
  intros Hn. unfold Dialog.to_53_bits.
  destruct (Z.eq_dec n 0) as [->|Hne]; [reflexivity|].
  assert (Z.log2 (Z.abs n) < 53) as Hlog by (apply Z.log2_lt_pow2; lia).
  destruct (Z.leb_spec (Z.log2 (Z.abs n) + 1 - 53) 0); [reflexivity | lia].
Qed.

(** Below 2^51 the two conversions round nothing. *)
Lemma scale_down_exact (screen_height size : Z) :
  Z.abs size < 2 ^ 51 ->
  Dialog.scale_down screen_height size
  = inr (if screen_height <? 1440 then Z.quot (size * 3) 4 else size).
Proof.
  intros Hsize. unfold Dialog.scale_down, Dialog.float_of_int.
  destruct (screen_height <? 1440); [|reflexivity].
  assert (2 ^ 53 = 4 * 2 ^ 51) as H53 by reflexivity.
  rewrite (to_53_bits_small size) by lia.
  assert (2 ^ 51 < 2 ^ 1024) as Hbig by (apply Z.pow_lt_mono_r; lia).
  destruct (Z.leb_spec (2 ^ 1024) (Z.abs size)); [lia|].
  rewrite (to_53_bits_small (size * 3)) by lia. reflexivity.
Qed.

Lemma scale_down_bounds (screen_height size : Z) :
  0 <= size < 2 ^ 51 ->
  exists scaled,
    Dialog.scale_down screen_height size = inr scaled /\
    0 <= scaled <= size /\
    (screen_height < 1440 -> 4 * scaled <= 3 * size < 4 * scaled + 4) /\
    (1440 <= screen_height -> scaled = size).
Proof.
  intros Hsize. rewrite scale_down_exact by lia. eexists. split; [reflexivity|].
  destruct (Z.ltb_spec screen_height 1440) as [Hlow | Hhigh].
  - rewrite Z.quot_div_nonneg by lia.
    pose proof (Z.div_mod (size * 3) 4 ltac:(lia)).
    pose proof (Z.mod_pos_bound (size * 3) 4 ltac:(lia)).
    repeat split; lia.
  - repeat split; lia.
Qed.

(** Beyond 2^53 the float decides: three quarters of 2^53 + 3 are computed
    from 2^53 + 4; and a size no float can hold raises. *)
Example scale_down_rounds :
  Dialog.scale_down 1080 (2 ^ 53 + 3) = inr 6755399441055747 /\
  Z.quot ((2 ^ 53 + 3) * 3) 4 = 6755399441055746 /\
  Dialog.scale_down 1080 (2 ^ 1024) = inl "int too large to convert to float"%string.
Proof. vm_compute. repeat split. Qed.

(** X19. A dialog that is made is placed so that its centre is within one
    pixel of the centre of its parent, in both directions, whatever the
    sizes and the screen; [_do_center] does the same to a window and keeps
    its size. *)
Theorem dialog_centered (screen_height : Z) (parent : Dialog.rect) (w h : Z) :
  (forall d,
     Dialog.place screen_height parent w h = inr d ->
     -1 <= (2 * Dialog.x d + Dialog.width d)
           - (2 * Dialog.x parent + Dialog.width parent) <= 1 /\
     -1 <= (2 * Dialog.y d + Dialog.height d)
           - (2 * Dialog.y parent + Dialog.height parent) <= 1) /\
  (forall window,
     let m := Dialog._do_center parent window in
     Dialog.width m = Dialog.width window /\ Dialog.height m = Dialog.height window /\
     -1 <= (2 * Dialog.x m + Dialog.width m)
           - (2 * Dialog.x parent + Dialog.width parent) <= 1 /\
     -1 <= (2 * Dialog.y m + Dialog.height m)
           - (2 * Dialog.y parent + Dialog.height parent) <= 1).
Proof.
  split.
  - intros d. unfold Dialog.place.
    destruct (Dialog.scale_down screen_height w) as [e|w']; [discriminate|].
    destruct (Dialog.scale_down screen_height h) as [e|h']; [discriminate|].
    intros [= <-]. simpl. split; apply centered_within_a_pixel.
  - intros window. simpl. split; [reflexivity|]. split; [reflexivity|].
    split; apply centered_within_a_pixel.
Qed.

(** X20. A dialog asked for with a size that its parent can hold, below
    2^51 pixels, is made and lies within the parent.  Its size is the one
    asked for on a screen of 1440 lines or more, and three quarters of it,
    rounded down, on a lower one. *)
Theorem dialog_inside_parent (screen_height : Z) (parent : Dialog.rect) (w h : Z) :
  0 <= w <= Dialog.width parent ->
  0 <= h <= Dialog.height parent ->
  w < 2 ^ 51 ->
  h < 2 ^ 51 ->
  exists d,
    Dialog.place screen_height parent w h = inr d /\
    Dialog.inside parent d /\
    Dialog.width d <= w /\ Dialog.height d <= h /\
    (1440 <= screen_height -> Dialog.width d = w /\ Dialog.height d = h) /\
    (screen_height < 1440 ->
     4 * Dialog.width d <= 3 * w < 4 * Dialog.width d + 4 /\
     4 * Dialog.height d <= 3 * h < 4 * Dialog.height d + 4).
Proof.
  intros Hw Hh Hwb Hhb.
  destruct (scale_down_bounds screen_height w ltac:(lia))
    as (w' & Hsw & Hw' & Hlow_w & Hhigh_w).
  destruct (scale_down_bounds screen_height h ltac:(lia))
    as (h' & Hsh & Hh' & Hlow_h & Hhigh_h).
  unfold Dialog.place. rewrite Hsw, Hsh. eexists. split; [reflexivity|].
  unfold Dialog.inside. simpl.
  destruct (centered_inside (Dialog.x parent) (Dialog.width parent) w' ltac:(lia))
    as [Hx1 Hx2].
  destruct (centered_inside (Dialog.y parent) (Dialog.height parent) h' ltac:(lia))
    as [Hy1 Hy2].
  simpl in *. repeat split; try lia; try (apply Hlow_w; lia); try (apply Hlow_h; lia).
Qed.

Example info_dialog_on_1080p :
  exists d,
    Dialog.place 1080 (Dialog.mk_rect 100 50 1201 801) 550 280 = inr d /\
    Dialog.geometry d = "412x210+494+345"%string.
Proof. eexists. split; vm_compute; reflexivity. Qed.

(** ** The log viewer *)

Lemma prefix_split (p s : string) :
  String.prefix p s = true -> exists rest, s = p +:+ rest.
Proof.
  revert s. induction p as [|c p IH]; intros s Hp.
  - now exists s.
  - destruct s as [|c' s]; [discriminate|]. simpl in Hp.
    destruct (Ascii.ascii_dec c c') as [->|]; [|discriminate].
    destruct (IH s Hp) as [rest ->]. exists rest. reflexivity.
Qed.

Lemma endswith_split (suffix s : string) :
  Menu.endswith suffix s = true -> exists front, s = front +:+ suffix.
Proof.
  induction s as [|c s IH].
  - simpl. destruct suffix; intros Hs; [|discriminate Hs].
    exists EmptyString. reflexivity.
  - change (Menu.endswith suffix (String c s))
      with (if String.eqb (String c s) suffix then true else Menu.endswith suffix s).
    destruct (String.eqb_spec (String c s) suffix) as [<-|].
    + intros _. exists EmptyString. reflexivity.
    + intros Hs. destruct (IH Hs) as [front ->]. exists (String c front). reflexivity.
Qed.

Lemma keyed_keys (getmtime : string -> string + Q) (files : list string)
    (ks : list (Q * string)) :
  Menu.keyed getmtime files = inr ks ->
  List.map snd ks = files /\ forall t f, In (t, f) ks -> getmtime f = inr t.
Proof.
  revert ks. induction files as [|f files IH]; intros ks; simpl.
  - intros [= <-]. split; [reflexivity | contradiction].
  - destruct (getmtime f) as [e|t] eqn:Hf; [discriminate|].
    destruct (Menu.keyed getmtime files) as [e|ks'] eqn:Hrest; [discriminate|].
    intros [= <-]. destruct (IH ks' eq_refl) as [Hnames Htimes]. split.
    + simpl. now rewrite Hnames.
    + intros t' f' [[= <- <-] | Hin]; [exact Hf | now apply Htimes].
Qed.

Lemma keyed_fails (getmtime : string -> string + Q) (files : list string) (e : string) :
  Menu.keyed getmtime files = inl e -> exists f, In f files /\ getmtime f = inl e.
Proof.
  induction files as [|f files IH]; simpl; [discriminate|].
  destruct (getmtime f) as [e'|t] eqn:Hf.
  - intros [= <-]. exists f. split; [now left | exact Hf].
  - destruct (Menu.keyed getmtime files) as [e'|ks']; [|discriminate].
    intros [= <-]. destruct (IH eq_refl) as (f' & Hin & Hf'). exists f'.
    split; [now right | exact Hf'].
Qed.

Lemma keyed_succeeds (getmtime : string -> string + Q) (files : list string) :
  (forall f, In f files -> exists t, getmtime f = inr t) ->
  exists ks, Menu.keyed getmtime files = inr ks.
Proof.
  intros Hall. destruct (Menu.keyed getmtime files) as [e|ks] eqn:Hk; [|now exists ks].
  destruct (keyed_fails _ _ _ Hk) as (f & Hin & Hf).
  destruct (Hall f Hin) as [t Ht]. congruence.
Qed.

Lemma insert_desc_In (k q : Q * string) (placed : list (Q * string)) :
  In q (Menu.insert_desc k placed) <-> q = k \/ In q placed.
Proof.
  induction placed as [|p rest IH]; simpl.
  - intuition.
  - destruct (Qle_bool (fst k) (fst p)); simpl; rewrite ?IH; intuition.
Qed.

Lemma insert_desc_newest_first (k : Q * string) (placed : list (Q * string)) :
  newest_first placed -> newest_first (Menu.insert_desc k placed).
Proof.
  destruct placed as [|p rest]; simpl; [intros _ q []|].
  intros Hp. destruct (Qle_bool (fst k) (fst p)) eqn:Hk; simpl.
  - intros q Hq. apply insert_desc_In in Hq as [-> | Hq]; [|now apply Hp].
    now apply Qle_bool_iff.
  - assert (fst p < fst k)%Q as Hlt.
    { apply Qnot_le_lt. intros Hle. apply Qle_bool_iff in Hle. congruence. }
    intros q [<- | Hq]; [now apply Qlt_le_weak|].
    eapply Qle_trans; [now apply Hp | now apply Qlt_le_weak].
Qed.

Lemma sort_desc_spec (ks : list (Q * string)) :
  newest_first (Menu.sort_desc ks) /\ forall q, In q (Menu.sort_desc ks) <-> In q ks.
Proof.
  unfold Menu.sort_desc.
  assert (forall placed,
            newest_first placed ->
            newest_first (fold_left (fun placed k => Menu.insert_desc k placed) ks placed) /\
            forall q, In q (fold_left (fun placed k => Menu.insert_desc k placed) ks placed)
                      <-> In q placed \/ In q ks) as Hgen.
  { induction ks as [|k ks IH]; intros placed Hplaced; simpl.
    - split; [exact Hplaced | intuition].
    - destruct (IH (Menu.insert_desc k placed) (insert_desc_newest_first _ _ Hplaced))
        as [Hfirst Hin].
      split; [exact Hfirst|]. intros q. rewrite Hin, insert_desc_In. intuition. }
  destruct (Hgen [] I) as [Hfirst Hin]. split; [exact Hfirst|].
  intros q. rewrite Hin. simpl. intuition.
Qed.

Lemma opened_opener (platform file : string) :
  Menu.opened (Menu.opener platform file) = Some file.
Proof.
  unfold Menu.opener.
  destruct (String.eqb platform "win32"); [reflexivity|].
  destruct (String.eqb platform "darwin"); reflexivity.
Qed.

Section LogViewer.
Context `{Collaborators}.

Lemma open_logs_launched (platform : string) (listdir : string + list string)
    (getmtime : string -> string + Q) (raises : Menu.launch -> option string)
    (w w' : MainWindow.t) (action : Menu.launch) :
  Menu._open_logs platform listdir getmtime raises w = (w', Some action) ->
  exists names latest_log t,
    listdir = inr names /\
    action = Menu.opener platform latest_log /\
    raises action = None /\
    w' = w /\
    In latest_log names /\
    Menu.is_log_file latest_log = true /\
    getmtime latest_log = inr t /\
    forall f, In f names -> Menu.is_log_file f = true ->
      exists t', getmtime f = inr t' /\ (t' <= t)%Q.
Proof.
  unfold Menu._open_logs. destruct listdir as [e|names]; [discriminate|].
  destruct (List.filter Menu.is_log_file names) as [|f0 fs] eqn:Hfilter; [discriminate|].
  destruct (Menu.keyed getmtime (f0 :: fs)) as [e|ks] eqn:Hkeyed; [discriminate|].
  destruct (keyed_keys _ _ _ Hkeyed) as [Hnames Htimes].
  destruct (sort_desc_spec ks) as [Hfirst Hin].
  destruct (Menu.sort_desc ks) as [|[t latest] rest] eqn:Hsort; [discriminate|].
  destruct (raises (Menu.opener platform latest)) as [e|] eqn:Hraises; [discriminate|].
  intros [= <- <-].
  assert (In (t, latest) ks) as Hlatest by (apply Hin; now left).
  assert (In latest (List.filter Menu.is_log_file names)) as Hmember.
  { rewrite Hfilter, <- Hnames. now apply (in_map snd) in Hlatest. }
  apply filter_In in Hmember as [Hlisted Hlog].
  exists names, latest, t. split; [reflexivity|]. split; [reflexivity|].
  split; [exact Hraises|]. split; [reflexivity|].
  split; [exact Hlisted|]. split; [exact Hlog|].
  split; [now apply Htimes|].
  intros f Hf Hflog.
  assert (In f (List.map snd ks)) as Hk.
  { rewrite Hnames, <- Hfilter. apply filter_In. now split. }
  apply in_map_iff in Hk as ([t' f'] & Hsnd & Hk). simpl in Hsnd. subst f'.
  exists t'. split; [now apply Htimes|].
  apply Hin in Hk as [[= -> _] | Hk]; [apply Qle_refl|].
  now apply (Hfirst (t', f)).
Qed.

(** X21. What [_open_logs] hands to the desktop is a file of the directory
    whose name starts with nx_migrator_pro_ and ends with .log, and no log
    file of the directory was modified later. *)
Theorem open_logs_opens_latest (platform : string) (listdir : string + list string)
    (getmtime : string -> string + Q) (raises : Menu.launch -> option string)
    (w w' : MainWindow.t) (action : Menu.launch) :
  Menu._open_logs platform listdir getmtime raises w = (w', Some action) ->
  exists names latest_log t,
    listdir = inr names /\
    action = Menu.opener platform latest_log /\
    Menu.opened action = Some latest_log /\
    In latest_log names /\
    (exists stem, latest_log = "nx_migrator_pro_" +:+ stem) /\
    (exists front, latest_log = front +:+ ".log") /\
    getmtime latest_log = inr t /\
    forall f, In f names -> Menu.is_log_file f = true ->
      exists t', getmtime f = inr t' /\ (t' <= t)%Q.
Proof.
  intros Hopen.
  destruct (open_logs_launched _ _ _ _ _ _ _ Hopen)
    as (names & latest & t & -> & -> & _ & _ & Hlisted & Hlog & Ht & Hmax).
  pose proof Hlog as Hlog'. apply andb_prop in Hlog' as [Hprefix Hsuffix].
  exists names, latest, t. split; [reflexivity|]. split; [reflexivity|].
  split; [apply opened_opener|]. split; [exact Hlisted|].
  split; [now apply prefix_split|]. split; [now apply endswith_split|].
  split; [exact Ht | exact Hmax].
Qed.

(** X22. [_open_logs] hands a file to the desktop only when the directory
    can be listed, holds a log file, the modification time of every log file
    in it can be read and the hand-over itself does not raise; the window is
    then left as it was.  When the first three hold, there is a log file of
    the directory for which the hand-over is tried: if it does not raise, that
    file is launched, and if it raises, nothing is launched and the failure is
    shown with the text of the exception.  Whenever nothing is launched,
    exactly one dialog is shown. *)
Theorem open_logs_launch_outcome (platform : string) (listdir : string + list string)
    (getmtime : string -> string + Q) (raises : Menu.launch -> option string)
    (w : MainWindow.t) :
  let result := Menu._open_logs platform listdir getmtime raises w in
  (forall action, snd result = Some action ->
     raises action = None /\ fst result = w /\
     exists names,
       listdir = inr names /\
       (exists f, In f names /\ Menu.is_log_file f = true) /\
       forall f, In f names -> Menu.is_log_file f = true ->
         exists t, getmtime f = inr t) /\
  (forall names,
     listdir = inr names ->
     (exists f, In f names /\ Menu.is_log_file f = true) ->
     (forall f, In f names -> Menu.is_log_file f = true -> exists t, getmtime f = inr t) ->
     exists latest_log,
       In latest_log names /\ Menu.is_log_file latest_log = true /\
       match raises (Menu.opener platform latest_log) with
       | None => result = (w, Some (Menu.opener platform latest_log))
       | Some e =>
           result
           = (MainWindow.show_custom_info "打开日志错误"
                ("打开日志文件失败：" +:+ NL +:+ NL +:+ e) w, None)
       end) /\
  (snd result = None ->
   exists title message,
     MainWindow.dialogs (fst result) = MainWindow.dialogs w ++ [info title message]).
Proof.
  cbv zeta. split; [|split].
  - intros action Haction.
    destruct (Menu._open_logs platform listdir getmtime raises w) as [w' a] eqn:Hopen.
    simpl in Haction. subst a.
    destruct (open_logs_launched _ _ _ _ _ _ _ Hopen)
      as (names & latest & t & -> & _ & Hraises & -> & Hlisted & Hlog & Ht & Hmax).
    split; [exact Hraises|]. split; [reflexivity|].
    exists names. split; [reflexivity|]. split.
    + exists latest. now split.
    + intros f Hf Hflog. destruct (Hmax f Hf Hflog) as (t' & Ht' & _). now exists t'.
  - intros names -> (f & Hf & Hlog) Hall. unfold Menu._open_logs.
    destruct (List.filter Menu.is_log_file names) as [|f0 fs] eqn:Hfilter.
    + assert (In f (List.filter Menu.is_log_file names)) as Hin
        by (apply filter_In; now split).
      rewrite Hfilter in Hin. contradiction.
    + destruct (keyed_succeeds getmtime (f0 :: fs)) as [ks Hks].
      { intros g Hg. rewrite <- Hfilter in Hg. apply filter_In in Hg as [Hg Hglog].
        now apply Hall. }
      rewrite Hks. destruct (keyed_keys _ _ _ Hks) as [Hnames _].
      destruct (sort_desc_spec ks) as [_ Hin].
      destruct (Menu.sort_desc ks) as [|[t latest] rest] eqn:Hsort.
      * destruct ks as [|k ks]; [discriminate|].
        exfalso. apply (Hin k). now left.
      * assert (In latest (List.filter Menu.is_log_file names)) as Hmember.
        { rewrite Hfilter, <- Hnames. apply (in_map snd _ (t, latest)).
          apply Hin. now left. }
        apply filter_In in Hmember as [Hlisted Hlatest].
        exists latest. split; [exact Hlisted|]. split; [exact Hlatest|].
        destruct (raises _); reflexivity.
  - unfold Menu._open_logs, MainWindow.show_custom_info.
    destruct listdir as [e|names]; [intros _; eexists _, _; reflexivity|].
    destruct (List.filter Menu.is_log_file names) as [|f0 fs];
      [intros _; eexists _, _; reflexivity|].
    destruct (Menu.keyed getmtime (f0 :: fs)) as [e|ks];
      [intros _; eexists _, _; reflexivity|].
    destruct (Menu.sort_desc ks) as [|[t latest] rest];
      [intros _; eexists _, _; reflexivity|].
    destruct (raises _); [intros _; eexists _, _; reflexivity|].
    intros Hnone; discriminate Hnone.
Qed.
End LogViewer.

(** ** The disk map *)

Lemma append_not_empty (a : string) (c : Ascii.ascii) (s : string) :
  a +:+ String c s <> EmptyString.
Proof. destruct a; intros Heq; inversion Heq. Qed.

Lemma display_name_not_empty (drive : Drive.t) :
  DiskSelectorFrame.display_name drive <> EmptyString.
Proof. unfold DiskSelectorFrame.display_name. apply append_not_empty. Qed.

Lemma find_last_app {A} (f : A -> bool) (l : list A) (a : A) :
  find f (l ++ [a])
  = match find f l with
    | Some x => Some x
    | None => if f a then Some a else None
    end.
Proof.
  induction l as [|x l IH]; simpl; [reflexivity|].
  destruct (f x); [reflexivity | exact IH].
Qed.

Lemma build_disk_map_lookup_from (drives : list Drive.t) (m : gmap string DiskInfo.t)
    (name : string) :
  DiskSelectorFrame.build_disk_map drives m !! name
  = match find (fun d => String.eqb (DiskSelectorFrame.display_name d) name) (rev drives) with
    | Some d => Some (DiskSelectorFrame.disk_of_drive d)
    | None => m !! name
    end.
Proof.
  revert m. induction drives as [|drive rest IH]; intros m; simpl; [reflexivity|].
  rewrite IH, find_last_app.
  destruct (find _ (rev rest)); [reflexivity|].
  destruct (String.eqb_spec (DiskSelectorFrame.display_name drive) name) as [<-|Hne].
  - apply lookup_insert_eq.
  - now apply lookup_insert_ne.
Qed.

(** X1. After a refresh the disk map sends a display name to the disk of
    the last listed drive that has this name, and holds nothing for a name
    that no listed drive has. *)
Theorem build_disk_map_lookup (drives : list Drive.t) (name : string) :
  DiskSelectorFrame.build_disk_map drives ∅ !! name
  = DiskSelectorFrame.disk_of_drive <$>
      find (fun d => String.eqb (DiskSelectorFrame.display_name d) name) (rev drives).
Proof.
  rewrite build_disk_map_lookup_from.
  destruct (find _ (rev drives)); [reflexivity | apply lookup_empty].
Qed.

Lemma build_disk_map_offered (drives : list Drive.t) (name : string) :
  In name (List.map DiskSelectorFrame.display_name drives) ->
  name <> EmptyString /\ is_Some (DiskSelectorFrame.build_disk_map drives ∅ !! name).
Proof.
  intros Hin. apply in_map_iff in Hin as (drive & <- & Hdrive).
  split; [apply display_name_not_empty|].
  rewrite build_disk_map_lookup_from.
  destruct (find _ (rev drives)) as [d|] eqn:Hfind; [now eexists|].
  exfalso. apply in_rev in Hdrive.
  pose proof (find_none _ _ Hfind drive Hdrive) as Hfalse. simpl in Hfalse.
  rewrite String.eqb_refl in Hfalse. discriminate.
Qed.

Lemma build_disk_map_values (drives : list Drive.t) (name : string) (d : DiskInfo.t) :
  DiskSelectorFrame.build_disk_map drives ∅ !! name = Some d ->
  In d (List.map DiskSelectorFrame.disk_of_drive drives).
Proof.
  rewrite build_disk_map_lookup_from.
  destruct (find _ (rev drives)) as [drive|] eqn:Hfind;
    [|rewrite lookup_empty; discriminate].
  intros [= <-]. apply find_some in Hfind as [Hin _].
  apply in_map. now apply in_rev in Hin.
Qed.

(** ** What every reachable state satisfies *)

Section Selections.
Context `{Collaborators}.
Import MainWindow.

Lemma calculate_layout_keeps_consistent (w : t) :
  selections_consistent w -> selections_consistent (_calculate_layout w).
Proof.
  unfold selections_consistent.
  destruct (calculate_layout_frame w)
    as (Hm & Hs & Ht & _ & _ & _ & _ & _ & _ & _ & Hds & _).
  simpl in *. rewrite Hm, Hs, Ht, Hds. auto.
Qed.

(** The property reads what [same_selection] keeps. *)
Lemma same_selection_consistent (w w' : t) :
  same_selection w w' -> selections_consistent w -> selections_consistent w'.
Proof.
  intros (Hm & Hs & Ht & en & Hds). unfold selections_consistent.
  rewrite Hm, Hs, Ht, Hds. destruct (disk_selector w). exact (fun x => x).
Qed.

Lemma wait_window_keeps_consistent (during : list background) (w : t) :
  selections_consistent w -> selections_consistent (wait_window during w).
Proof. apply same_selection_consistent, wait_window_keeps_selection. Qed.

Lemma step_keeps_consistent (e : event) (w : t) :
  selections_consistent w -> selections_consistent (step e w).
Proof.
  intros Hinv. destruct e; simpl.
  - (* click_refresh *)
    destruct (DiskSelectorFrame.enabled (disk_selector w)); [|exact Hinv].
    destruct (refresh_shape drives w) as (m & values & more & -> & Hlists).
    destruct Hinv as (Hs & Ht & Hshown & Hclean & Hnames).
    split; [exact Hs|]. split; [exact Ht|]. split; [exact Hshown|].
    split; [exact Hclean|]. intros name Hname. cbn in Hname.
    destruct Hlists as [[_ ->] | (listed & _ & _ & ->)]; [now apply Hnames|].
    destruct (snd (DiskSelectorFrame.read_drives listed)); [now apply Hnames|].
    now apply build_disk_map_offered in Hname.
  - (* select_source *)
    destruct (offered name w); [|exact Hinv].
    unfold selector_on_source_selected, DiskSelectorFrame._on_source_selected. simpl.
    destruct (String.eqb name EmptyString); [exact Hinv|].
    destruct (DiskSelectorFrame.disk_map (disk_selector w) !! name) as [d|]; [|exact Hinv].
    destruct Hinv as (Hs & Ht & Hshown & Hclean & Hnames).
    split; [reflexivity|]. split; [exact Ht|]. split; [exact Hshown|].
    split; [exact Hclean | exact Hnames].
  - (* select_target_during *)
    destruct (offered name w); [|exact Hinv]. simpl.
    destruct (DiskSelectorFrame.target_selector_shown (disk_selector w)) eqn:Hvisible;
      [|exact Hinv].
    unfold selector_on_target_selected, DiskSelectorFrame._on_target_selected.
    cbn [disk_selector set_disk_selector DiskSelectorFrame.target_combobox
         DiskSelectorFrame.set_target_combobox DiskSelectorFrame.disk_map].
    destruct (String.eqb name EmptyString); [exact Hinv|].
    destruct (DiskSelectorFrame.disk_map (disk_selector w) !! name) as [d|]; [|exact Hinv].
    assert (current_mode w = migration) as Hmode.
    { destruct Hinv as (_ & _ & Hshown & _). rewrite Hvisible in Hshown.
      destruct (current_mode w); [reflexivity|discriminate]. }
    destruct (DiskSelectorFrame.same_as_source d _).
    + match goal with |- context [wait_window during ?x] =>
        assert (selections_consistent (wait_window during x)) as Hwait
          by (apply wait_window_keeps_consistent; exact Hinv)
      end.
      exact Hwait.
    + unfold _on_target_selected.
      cbn [source_disk set_migrate_button set_target_partition_frame set_target_layout
           set_target_disk DiskSelectorFrame.update set_disk_selector].
      destruct (source_disk w) as [src|] eqn:Hsrc.
      * destruct (DiskInfo.size_bytes d <=? DiskInfo.size_bytes src).
        -- match goal with |- context [wait_window during ?x] =>
             assert (selections_consistent (wait_window during x)) as Hwait
           end.
           { apply wait_window_keeps_consistent.
             destruct Hinv as (Hs & Ht & Hshown & Hclean & Hnames).
             split; [exact Hs|]. split; [reflexivity|]. split; [exact Hshown|].
             split; [intros Hc; cbn in Hc; congruence | exact Hnames]. }
           destruct Hwait as (Hs & Ht & Hshown & Hclean & Hnames).
           split; [exact Hs|]. split; [reflexivity|]. split; [exact Hshown|].
           split; [reflexivity | exact Hnames].
        -- destruct Hinv as (Hs & Ht & Hshown & Hclean & Hnames).
           split; [exact Hs|]. split; [reflexivity|]. split; [exact Hshown|].
           split; [intros Hc; simpl in Hc; congruence | exact Hnames].
      * destruct Hinv as (Hs & Ht & Hshown & Hclean & Hnames).
        split; [exact Hs|]. split; [reflexivity|]. split; [exact Hshown|].
        split; [intros Hc; simpl in Hc; congruence | exact Hnames].
  - (* click_mode *)
    unfold _switch_mode. destruct (mode_eqb (current_mode w) m); [exact Hinv|].
    destruct Hinv as (Hs & Ht & Hshown & Hclean & Hnames).
    destruct m; (split; [reflexivity|]; split; [reflexivity|]; split; [reflexivity|];
                 split; [reflexivity | exact Hnames]).
  - (* change_options *)
    unfold _on_options_changed.
    assert (forall v, selections_consistent v ->
              selections_consistent
                match current_mode v, source_layout v, target_disk v with
                | migration, Some _, Some _ => _calculate_layout v
                | migration, _, _ => v
                | cleanup, Some _, _ => _calculate_layout v
                | cleanup, None, _ => v
                end) as Hcalc.
    { intros v Hv.
      destruct (current_mode v), (source_layout v), (target_disk v);
        auto using calculate_layout_keeps_consistent. }
    apply Hcalc.
    change (current_mode (set_migration_options_frame frame w)) with (current_mode w).
    destruct (current_mode w); exact Hinv.
  - (* click_scan *)
    destruct (scan_button w); [|exact Hinv].
    unfold _scan_sd_cards.
    destruct (source_disk w); [|exact Hinv].
    destruct (current_mode w), (target_disk w); exact Hinv.
  - (* click_action_during *)
    destruct (migrate_button w); [|exact Hinv].
    assert (forall title message answer during v,
              selections_consistent v ->
              selections_consistent
                (wait_window during (show_custom_confirm title message answer v)))
      as Hconfirm.
    { intros title message answer during v Hv.
      apply wait_window_keeps_consistent. exact Hv. }
    unfold _start_migration.
    destruct (current_mode w).
    + destruct (target_disk w), (source_disk w); try exact Hinv.
      destruct response; cbn [negb]; [|now apply Hconfirm].
      destruct response2; cbn [negb]; [|now apply Hconfirm, Hconfirm].
      match goal with |- context [wait_window during2 ?x] =>
        assert (selections_consistent (wait_window during2 x)) as Hwait
          by (now apply Hconfirm, Hconfirm)
      end.
      exact Hwait.
    + destruct (removed_parts w), (source_disk w); try exact Hinv.
      destruct response; cbn [negb]; [|now apply Hconfirm].
      destruct response2; cbn [negb]; [|now apply Hconfirm, Hconfirm].
      match goal with |- context [wait_window during2 ?x] =>
        assert (selections_consistent (wait_window during2 x)) as Hwait
          by (now apply Hconfirm, Hconfirm)
      end.
      exact Hwait.
  - (* scan_thread_runs *)
    apply (same_selection_consistent w); [|exact Hinv].
    apply (background_step_keeps_selection (thread_scans scanned)).
  - (* engine_calls *)
    apply (same_selection_consistent w); [|exact Hinv].
    apply (background_step_keeps_selection (engine_reports c)).
  - (* main_loop_runs_next *)
    apply (same_selection_consistent w); [|exact Hinv].
    apply (background_step_keeps_selection loop_runs_next).
Qed.

Lemma init_consistent (frame : MigrationOptionsFrame) : selections_consistent (init frame).
Proof.
  split; [reflexivity|]. split; [reflexivity|]. split; [reflexivity|].
  split; [discriminate|]. intros name [].
Qed.

Lemma run_keeps_consistent (events : list event) (w : t) :
  selections_consistent w -> selections_consistent (run events w).
Proof.
  revert w. induction events as [|e rest IH]; intros w Hinv; [exact Hinv|].
  simpl. apply IH. now apply step_keeps_consistent.
Qed.

(** Only a refresh changes the disk map and the values the comboboxes
    offer. *)
Lemma step_keeps_lists (e : event) (w : t) :
  (forall drives, e <> click_refresh drives) ->
  DiskSelectorFrame.disk_map (disk_selector (step e w))
  = DiskSelectorFrame.disk_map (disk_selector w) /\
  DiskSelectorFrame.combobox_values (disk_selector (step e w))
  = DiskSelectorFrame.combobox_values (disk_selector w).
Proof.
  assert (forall v v', same_selection v v' ->
            DiskSelectorFrame.disk_map (disk_selector v')
            = DiskSelectorFrame.disk_map (disk_selector v) /\
            DiskSelectorFrame.combobox_values (disk_selector v')
            = DiskSelectorFrame.combobox_values (disk_selector v)) as Hsame.
  { intros v v' (_ & _ & _ & en & ->). now split. }
  intros He. destruct e; simpl.
  - now destruct (He drives).
  - destruct (offered name w); [|now split].
    unfold selector_on_source_selected, DiskSelectorFrame._on_source_selected. simpl.
    destruct (String.eqb name EmptyString); [now split|].
    destruct (DiskSelectorFrame.disk_map (disk_selector w) !! name); now split.
  - destruct (offered name w && _); [|now split].
    unfold selector_on_target_selected, DiskSelectorFrame._on_target_selected.
    cbn [disk_selector set_disk_selector DiskSelectorFrame.target_combobox
         DiskSelectorFrame.set_target_combobox DiskSelectorFrame.disk_map].
    destruct (String.eqb name EmptyString); [now split|].
    destruct (DiskSelectorFrame.disk_map (disk_selector w) !! name) as [d|]; [|now split].
    destruct (DiskSelectorFrame.same_as_source d _).
    + match goal with |- context [wait_window during ?x] =>
        destruct (Hsame x (wait_window during x) (wait_window_keeps_selection during x))
          as [Hmap Hvalues]
      end.
      split; [exact Hmap | exact Hvalues].
    + unfold _on_target_selected.
      cbn [source_disk set_migrate_button set_target_partition_frame set_target_layout
           set_target_disk DiskSelectorFrame.update set_disk_selector].
      destruct (source_disk w) as [src|]; [|now split].
      destruct (DiskInfo.size_bytes d <=? DiskInfo.size_bytes src); [|now split].
      match goal with |- context [wait_window during ?x] =>
        destruct (Hsame x (wait_window during x) (wait_window_keeps_selection during x))
          as [Hmap Hvalues]
      end.
      split; [exact Hmap | exact Hvalues].
  - unfold _switch_mode. destruct (mode_eqb (current_mode w) m); [now split|].
    destruct m; now split.
  - unfold _on_options_changed.
    assert (forall v,
              disk_selector
                match current_mode v, source_layout v, target_disk v with
                | migration, Some _, Some _ => _calculate_layout v
                | migration, _, _ => v
                | cleanup, Some _, _ => _calculate_layout v
                | cleanup, None, _ => v
                end = disk_selector v) as Hcalc.
    { intros v.
      destruct (calculate_layout_frame v)
        as (_ & _ & _ & _ & _ & _ & _ & _ & _ & _ & Hds & _).
      destruct (current_mode v), (source_layout v), (target_disk v); auto. }
    rewrite Hcalc.
    change (current_mode (set_migration_options_frame frame w)) with (current_mode w).
    destruct (current_mode w); now split.
  - destruct (scan_button w); [|now split].
    unfold _scan_sd_cards.
    destruct (source_disk w); [|now split].
    destruct (current_mode w), (target_disk w); now split.
  - destruct (migrate_button w); [|now split].
    assert (forall title message answer during v,
              same_selection v
                (wait_window during (show_custom_confirm title message answer v)))
      as Hconfirm.
    { intros title message answer during v.
      apply (same_selection_trans v (show_custom_confirm title message answer v));
        [exact (same_selection_refl v) | apply wait_window_keeps_selection]. }
    unfold _start_migration.
    destruct (current_mode w).
    + destruct (target_disk w), (source_disk w); try now split.
      destruct response; cbn [negb]; [|now apply Hsame, Hconfirm].
      match goal with |- context [wait_window during2 ?x] =>
        pose proof (Hsame _ _ (same_selection_trans _ _ _ (Hconfirm _ _ true during1 w)
                                 (wait_window_keeps_selection during2 x))) as Hw2
      end.
      destruct response2; cbn [negb]; exact Hw2.
    + destruct (removed_parts w), (source_disk w); try now split.
      destruct response; cbn [negb]; [|now apply Hsame, Hconfirm].
      match goal with |- context [wait_window during2 ?x] =>
        pose proof (Hsame _ _ (same_selection_trans _ _ _ (Hconfirm _ _ true during1 w)
                                 (wait_window_keeps_selection during2 x))) as Hw2
      end.
      destruct response2; cbn [negb]; exact Hw2.
  - apply Hsame, (background_step_keeps_selection (thread_scans scanned)).
  - apply Hsame, (background_step_keeps_selection (engine_reports c)).
  - apply Hsame, (background_step_keeps_selection loop_runs_next).
Qed.

Lemma step_keeps_keys (e : event) (w : t) :
  reads_every_drive e = true ->
  offered_names_are_keys w -> offered_names_are_keys (step e w).
Proof.
  intros He Hkeys.
  destruct e;
    try (unfold offered_names_are_keys;
         match goal with |- context [step ?e w] =>
           destruct (step_keeps_lists e w ltac:(discriminate)) as [-> ->]
         end; exact Hkeys).
  simpl. destruct (DiskSelectorFrame.enabled (disk_selector w)); [|exact Hkeys].
  destruct (refresh_shape drives w) as (m & values & more & -> & Hlists).
  intros name Hname. cbn in Hname |- *.
  destruct Hlists as [[-> ->] | (listed & -> & -> & ->)]; [now apply Hkeys|].
  simpl in He. destruct (snd (DiskSelectorFrame.read_drives listed)); [discriminate|].
  now apply build_disk_map_offered in Hname.
Qed.

Lemma run_keeps_keys (events : list event) (w : t) :
  forallb reads_every_drive events = true ->
  offered_names_are_keys w -> offered_names_are_keys (run events w).
Proof.
  revert w. induction events as [|e rest IH]; intros w Hev Hkeys; [exact Hkeys|].
  simpl in Hev. apply andb_prop in Hev as [He Hrest].
  simpl. apply IH; [exact Hrest|]. now apply step_keeps_keys.
Qed.

Lemma init_keys (frame : MigrationOptionsFrame) : offered_names_are_keys (init frame).
Proof. intros name []. Qed.
End Selections.

Section Reachable.
Context `{Collaborators}.
Import MainWindow.

Lemma offered_In (name : string) (w : t) :
  offered name w = true ->
  DiskSelectorFrame.enabled (disk_selector w) = true /\
  In name (DiskSelectorFrame.combobox_values (disk_selector w)).
Proof.
  unfold offered. intros Hoff. apply andb_prop in Hoff as [Hen Hex].
  split; [exact Hen|]. apply existsb_exists in Hex as (x & Hx & Heq).
  apply String.eqb_eq in Heq. now subst.
Qed.

(** X5. In every state the window reaches from its start the disk selector
    and the window hold the same source disk and the same target disk, and
    the target selector is shown exactly in migration mode. *)
Theorem selector_agrees_with_window (frame : MigrationOptionsFrame) (events : list event) :
  let w := run events (init frame) in
  DiskSelectorFrame.source_disk (disk_selector w) = source_disk w /\
  DiskSelectorFrame.target_disk (disk_selector w) = target_disk w /\
  (DiskSelectorFrame.target_selector_shown (disk_selector w) = true
   <-> current_mode w = migration).
Proof.
  intros w.
  destruct (run_keeps_consistent events (init frame) (init_consistent frame))
    as (Hs & Ht & Hshown & _).
  split; [exact Hs|]. split; [exact Ht|]. fold w in Hshown. rewrite Hshown.
  destruct (current_mode w); simpl; split; congruence.
Qed.

(** X6. In every state the window reaches from its start, cleanup mode
    holds no target disk, in the window or in the selector, and no selection
    of a target can be made. *)
Theorem cleanup_mode_has_no_target (frame : MigrationOptionsFrame) (events : list event) :
  let w := run events (init frame) in
  current_mode w = cleanup ->
  target_disk w = None /\
  DiskSelectorFrame.target_disk (disk_selector w) = None /\
  forall name, step (select_target name) w = w.
Proof.
  intros w Hmode.
  destruct (run_keeps_consistent events (init frame) (init_consistent frame))
    as (_ & Ht & Hshown & Hclean & _).
  fold w in Ht, Hshown, Hclean.
  split; [now apply Hclean|]. split; [rewrite Ht; now apply Hclean|].
  intros name. simpl. rewrite Hshown, Hmode. simpl. now rewrite andb_false_r.
Qed.

(** X3. In every state the window reaches from its start by events whose
    refreshes got through their list of drives, a name that the source
    combobox offers is a key of the disk map, so the handler finds its disk.
    Selecting it stores that disk in the selector and in the window and
    shows its data, drops the source layout, clears both partition views and
    disables the action button; the target disk and the target layout are
    left alone. *)
Theorem offered_source_is_selected (frame : MigrationOptionsFrame) (events : list event)
    (name : string) :
  forallb reads_every_drive events = true ->
  let w := run events (init frame) in
  offered name w = true ->
  exists disk,
    DiskSelectorFrame.disk_map (disk_selector w) !! name = Some disk /\
    let w' := step (select_source name) w in
    source_disk w' = Some disk /\
    DiskSelectorFrame.source_disk (disk_selector w') = Some disk /\
    DiskSelectorFrame.source_info (disk_selector w') = DiskSelectorFrame.disk_info_text disk /\
    source_layout w' = None /\
    source_partition_frame w' = None /\
    target_partition_frame w' = None /\
    migrate_button w' = false /\
    target_disk w' = target_disk w /\
    target_layout w' = target_layout w.
Proof.
  intros Hev w Hoff.
  destruct (run_keeps_consistent events (init frame) (init_consistent frame))
    as (_ & _ & _ & _ & Hnames).
  pose proof (run_keeps_keys events (init frame) Hev (init_keys frame)) as Hkeys.
  fold w in Hnames, Hkeys. destruct (offered_In name w Hoff) as [_ Hin].
  pose proof (Hnames name Hin) as Hne. destruct (Hkeys name Hin) as [disk Hdisk].
  exists disk. split; [exact Hdisk|].
  unfold step. rewrite Hoff.
  unfold selector_on_source_selected, DiskSelectorFrame._on_source_selected.
  clear Hnames Hkeys Hin Hoff. clearbody w.
  destruct w as [? ? ? ? ? ? ? ds ? ? ? ? ? ? ? ? ? ? ? ? ?]; destruct ds; simpl in *.
  rewrite (eqb_empty_false name Hne), Hdisk. simpl.
  repeat split.
Qed.

End Reachable.

(** ** Starting an engine *)

Section Starts.
Context `{Collaborators}.
Import MainWindow.

Lemma calculate_layout_keeps_panel (w : t) :
  progress_panel (_calculate_layout w) = progress_panel w.
Proof. destruct w. calculate_cases; reflexivity. Qed.

Lemma calculate_layout_keeps_never_started (w : t) :
  never_started w -> never_started (_calculate_layout w).
Proof.
  unfold never_started.
  destruct (calculate_layout_frame w)
    as (_ & _ & _ & _ & _ & _ & Hq & Ht & _ & _ & Hds & _).
  simpl in *. rewrite Hq, Ht, Hds, calculate_layout_keeps_panel. auto.
Qed.

Lemma not_in_app_one (p : progress_call) (panel : list progress_call) :
  p <> progress_start -> ~ In progress_start panel -> ~ In progress_start (panel ++ [p]).
Proof.
  intros Hp Hpanel Hin. apply in_app_or in Hin as [Hin | [Heq | []]]; auto.
Qed.

Lemma background_step_keeps_never_started (b : background) (w : t) :
  never_started w -> never_started (background_step b w).
Proof.
  intros Hinv. destruct b; simpl.
  - destruct (scan_threads w); [exact Hinv|].
    unfold scan_thread. simpl.
    destruct Hinv as (Ht & Hq & Hen & Hp).
    destruct (source_disk w); [destruct scanned|];
      (split; [exact Ht|]; split; [|split; [exact Hen | exact Hp]]);
      apply Forall_app; split; auto.
  - destruct Hinv as (Ht & Hq & Hen & Hp). rewrite Ht. now split.
  - destruct (after_queue w) as [|k rest] eqn:Hqueue; [exact Hinv|].
    destruct Hinv as (Ht & Hq & Hen & Hp). rewrite Hqueue in Hq.
    inversion Hq as [|? ? Hk Hrest]; subst.
    destruct k; try discriminate; simpl.
    + unfold _on_scan_complete. apply calculate_layout_keeps_never_started.
      destruct w; simpl in *. destruct current_mode0; now repeat split.
    + now repeat split.
    + split; [exact Ht|]. split; [exact Hrest|]. split; [exact Hen|].
      apply not_in_app_one; [discriminate | exact Hp].
    + now repeat split.
Qed.

Lemma wait_window_keeps_never_started (during : list background) (w : t) :
  never_started w -> never_started (wait_window during w).
Proof.
  revert w. induction during as [|b rest IH]; intros w Hinv; [exact Hinv|].
  simpl. apply IH. now apply background_step_keeps_never_started.
Qed.

Lemma step_keeps_never_started (e : event) (w : t) :
  confirmed_start e = false -> never_started w -> never_started (step e w).
Proof.
  intros He Hinv. destruct e; simpl.
  - destruct (DiskSelectorFrame.enabled (disk_selector w)); [|exact Hinv].
    destruct (refresh_shape drives w) as (m & values & more & -> & _).
    exact Hinv.
  - destruct (offered name w); [|exact Hinv].
    unfold selector_on_source_selected, DiskSelectorFrame._on_source_selected. simpl.
    destruct (String.eqb name EmptyString); [exact Hinv|].
    destruct (DiskSelectorFrame.disk_map (disk_selector w) !! name); exact Hinv.
  - destruct (offered name w && _); [|exact Hinv].
    unfold selector_on_target_selected, DiskSelectorFrame._on_target_selected.
    cbn [disk_selector set_disk_selector DiskSelectorFrame.target_combobox
         DiskSelectorFrame.set_target_combobox DiskSelectorFrame.disk_map].
    destruct (String.eqb name EmptyString); [exact Hinv|].
    destruct (DiskSelectorFrame.disk_map (disk_selector w) !! name) as [d|]; [|exact Hinv].
    destruct (DiskSelectorFrame.same_as_source d _).
    + match goal with |- context [wait_window during ?x] =>
        assert (never_started (wait_window during x)) as Hwait
          by (apply wait_window_keeps_never_started; exact Hinv)
      end.
      exact Hwait.
    + unfold _on_target_selected.
      cbn [source_disk set_migrate_button set_target_partition_frame set_target_layout
           set_target_disk DiskSelectorFrame.update set_disk_selector].
      destruct (source_disk w) as [src|]; [|exact Hinv].
      destruct (DiskInfo.size_bytes d <=? DiskInfo.size_bytes src); [|exact Hinv].
      match goal with |- context [wait_window during ?x] =>
        assert (never_started (wait_window during x)) as Hwait
          by (apply wait_window_keeps_never_started; exact Hinv)
      end.
      exact Hwait.
  - unfold _switch_mode. destruct (mode_eqb (current_mode w) m); [exact Hinv|].
    destruct Hinv as (Ht & Hq & Hen & Hp).
    destruct m; (split; [exact Ht|]; split; [exact Hq|]; split; [exact Hen|];
                 apply not_in_app_one; [discriminate | exact Hp]).
  - unfold _on_options_changed.
    assert (forall v, never_started v ->
              never_started
                match current_mode v, source_layout v, target_disk v with
                | migration, Some _, Some _ => _calculate_layout v
                | migration, _, _ => v
                | cleanup, Some _, _ => _calculate_layout v
                | cleanup, None, _ => v
                end) as Hcalc.
    { intros v Hv.
      destruct (current_mode v), (source_layout v), (target_disk v);
        auto using calculate_layout_keeps_never_started. }
    apply Hcalc.
    change (current_mode (set_migration_options_frame frame w)) with (current_mode w).
    destruct (current_mode w); exact Hinv.
  - destruct (scan_button w); [|exact Hinv].
    unfold _scan_sd_cards.
    destruct (source_disk w); [|exact Hinv].
    destruct (current_mode w), (target_disk w); exact Hinv.
  - destruct (migrate_button w); [|exact Hinv].
    assert (forall title message answer during v,
              never_started v ->
              never_started (wait_window during (show_custom_confirm title message answer v)))
      as Hconfirm.
    { intros title message answer during v Hv.
      apply wait_window_keeps_never_started. exact Hv. }
    unfold _start_migration.
    destruct (current_mode w).
    + destruct (target_disk w), (source_disk w); try exact Hinv.
      destruct response; cbn [negb]; [|now apply Hconfirm].
      destruct response2; cbn [negb]; [discriminate He | now apply Hconfirm, Hconfirm].
    + destruct (removed_parts w), (source_disk w); try exact Hinv.
      destruct response; cbn [negb]; [|now apply Hconfirm].
      destruct response2; cbn [negb]; [discriminate He | now apply Hconfirm, Hconfirm].
  - now apply (background_step_keeps_never_started (thread_scans scanned)).
  - now apply (background_step_keeps_never_started (engine_reports c)).
  - now apply (background_step_keeps_never_started loop_runs_next).
Qed.

Lemma init_never_started (frame : MigrationOptionsFrame) : never_started (init frame).
Proof. split; [reflexivity|]. split; [constructor|]. split; [reflexivity|]. intros []. Qed.

Lemma init_action_needs_layouts (frame : MigrationOptionsFrame) :
  action_needs_layouts (init frame).
Proof. intros Hbutton. discriminate Hbutton. Qed.

Lemma run_without_confirmed_start (events : list event) (w : t) :
  forallb (fun e => negb (confirmed_start e)) events = true ->
  never_started w -> action_needs_layouts w ->
  never_started (run events w) /\ action_needs_layouts (run events w).
Proof.
  revert w. induction events as [|e rest IH]; intros w Hev Hno Hinv; [now split|].
  simpl in Hev. apply andb_prop in Hev as [He Hrest].
  apply negb_true_iff in He. simpl. apply IH; [exact Hrest | |].
  - now apply step_keeps_never_started.
  - assert (no_run_yet w) as Hquiet by (destruct Hno as (Ht & Hq & _); now split).
    apply step_keeps_invariant; [exact Hinv|].
    destruct e; simpl; auto.
    intros k rest' Hq. destruct Hquiet as [_ Hqueue]. rewrite Hq in Hqueue.
    now inversion Hqueue.
Qed.

(** X14. From the start of the window, as long as no click on the action
    button is answered with yes twice, no engine thread exists, no task that
    ends a run is queued, the disk selector stays enabled and the progress
    panel is never started. *)
Theorem nothing_starts_without_two_yes (frame : MigrationOptionsFrame)
    (events : list event) :
  forallb (fun e => negb (confirmed_start e)) events = true ->
  let w := run events (init frame) in
  engine_threads w = [] /\
  DiskSelectorFrame.enabled (disk_selector w) = true /\
  ~ In progress_start (progress_panel w) /\
  Forall (fun k => ends_run k = false) (after_queue w).
Proof.
  intros Hev w.
  destruct (run_without_confirmed_start events (init frame) Hev
              (init_never_started frame) (init_action_needs_layouts frame))
    as [(Ht & Hq & Hen & Hp) _].
  now repeat split.
Qed.


Lemma only_ended_same (w w' : t) :
  engine_threads w' = engine_threads w -> only_ended w w'.
Proof. intros Heq. exists []. now rewrite Heq. Qed.

Lemma only_ended_trans (w1 w2 w3 : t) :
  only_ended w1 w2 -> only_ended w2 w3 -> only_ended w1 w3.
Proof.
  intros [gone1 H1] [gone2 H2]. exists (gone1 ++ gone2).
  now rewrite H1, H2, app_assoc.
Qed.

Lemma background_step_only_ends (b : background) (w : t) :
  only_ended w (background_step b w).
Proof.
  destruct b; simpl.
  - destruct (scan_threads w); [now apply only_ended_same|].
    unfold scan_thread. simpl.
    destruct (source_disk w); [destruct scanned|]; now apply only_ended_same.
  - destruct (engine_threads w) as [|x rest] eqn:Hthreads; [now apply only_ended_same|].
    destruct c.
    + now apply only_ended_same.
    + exists [x]. exact Hthreads.
    + exists [x]. exact Hthreads.
  - destruct (after_queue w) as [|k rest]; [now apply only_ended_same|].
    destruct k; simpl; try now apply only_ended_same.
    + unfold _on_scan_complete. apply only_ended_same.
      match goal with |- context [_calculate_layout ?v] =>
        destruct (calculate_layout_frame v) as (_ & _ & _ & _ & _ & _ & _ & Ht & _)
      end.
      rewrite Ht. destruct w; simpl. now destruct current_mode0.
    + unfold run_complete_ui. apply only_ended_same.
      destruct w; simpl. now destruct current_mode0.
    + unfold run_error_ui. apply only_ended_same.
      destruct w; simpl. now destruct current_mode0.
Qed.

Lemma wait_window_only_ends (during : list background) (w : t) :
  only_ended w (wait_window during w).
Proof.
  revert w. induction during as [|b rest IH]; intros w; simpl.
  - now apply only_ended_same.
  - eapply only_ended_trans; [apply background_step_only_ends | apply IH].
Qed.

(** No event but a click on the action button answered with yes twice
    leaves a thread that was not there. *)
Lemma step_only_ends (e : event) (w : t) :
  confirmed_start e = false -> only_ended w (step e w).
Proof.
  intros He. destruct e; simpl.
  - destruct (DiskSelectorFrame.enabled (disk_selector w)); [|now apply only_ended_same].
    destruct (refresh_shape drives w) as (m & values & more & -> & _).
    now apply only_ended_same.
  - destruct (offered name w); [|now apply only_ended_same].
    unfold selector_on_source_selected, DiskSelectorFrame._on_source_selected. simpl.
    destruct (String.eqb name EmptyString); [now apply only_ended_same|].
    destruct (DiskSelectorFrame.disk_map (disk_selector w) !! name);
      now apply only_ended_same.
  - destruct (offered name w && _); [|now apply only_ended_same].
    unfold selector_on_target_selected, DiskSelectorFrame._on_target_selected.
    cbn [disk_selector set_disk_selector DiskSelectorFrame.target_combobox
         DiskSelectorFrame.set_target_combobox DiskSelectorFrame.disk_map].
    destruct (String.eqb name EmptyString); [now apply only_ended_same|].
    destruct (DiskSelectorFrame.disk_map (disk_selector w) !! name) as [d|];
      [|now apply only_ended_same].
    destruct (DiskSelectorFrame.same_as_source d _).
    + match goal with |- context [wait_window during ?x] =>
        destruct (wait_window_only_ends during x) as [gone Hgone]
      end.
      exists gone. exact Hgone.
    + unfold _on_target_selected.
      cbn [source_disk set_migrate_button set_target_partition_frame set_target_layout
           set_target_disk DiskSelectorFrame.update set_disk_selector].
      destruct (source_disk w) as [src|]; [|now apply only_ended_same].
      destruct (DiskInfo.size_bytes d <=? DiskInfo.size_bytes src);
        [|now apply only_ended_same].
      match goal with |- context [wait_window during ?x] =>
        destruct (wait_window_only_ends during x) as [gone Hgone]
      end.
      exists gone. exact Hgone.
  - unfold _switch_mode. destruct (mode_eqb (current_mode w) m); [now apply only_ended_same|].
    destruct m; now apply only_ended_same.
  - unfold _on_options_changed. apply only_ended_same.
    assert (forall v,
              engine_threads
                match current_mode v, source_layout v, target_disk v with
                | migration, Some _, Some _ => _calculate_layout v
                | migration, _, _ => v
                | cleanup, Some _, _ => _calculate_layout v
                | cleanup, None, _ => v
                end = engine_threads v) as Hcalc.
    { intros v.
      destruct (calculate_layout_frame v) as (_ & _ & _ & _ & _ & _ & _ & Ht & _).
      destruct (current_mode v), (source_layout v), (target_disk v); auto. }
    rewrite Hcalc. destruct w; simpl. now destruct current_mode0.
  - destruct (scan_button w); [|now apply only_ended_same].
    unfold _scan_sd_cards.
    destruct (source_disk w); [|now apply only_ended_same].
    destruct (current_mode w), (target_disk w); now apply only_ended_same.
  - destruct (migrate_button w); [|now apply only_ended_same].
    assert (forall title message answer during v,
              only_ended v (wait_window during (show_custom_confirm title message answer v)))
      as Hconfirm.
    { intros title message answer during v.
      destruct (wait_window_only_ends during
                  (show_custom_confirm title message answer v)) as [gone Hgone].
      exists gone. exact Hgone. }
    unfold _start_migration.
    destruct (current_mode w).
    + destruct (target_disk w), (source_disk w); try now apply only_ended_same.
      destruct response; cbn [negb]; [|now apply Hconfirm].
      destruct response2; cbn [negb]; [discriminate He|].
      eapply only_ended_trans; apply Hconfirm.
    + destruct (removed_parts w), (source_disk w); try now apply only_ended_same.
      destruct response; cbn [negb]; [|now apply Hconfirm].
      destruct response2; cbn [negb]; [discriminate He|].
      eapply only_ended_trans; apply Hconfirm.
  - apply (background_step_only_ends (thread_scans scanned)).
  - apply (background_step_only_ends (engine_reports c)).
  - apply (background_step_only_ends loop_runs_next).
Qed.

(** X16. An event leaves an engine thread that is none of those before only
    if it is a click on the enabled action button answered with yes twice.
    The engine is then constructed from the disks, the layouts and the
    options the window holds when the second confirmation is closed, after
    what ran while the two confirmations were open; it is started, the
    progress panel is started, no dialog follows the second confirmation,
    and the disk selector, the scan button and the action button are
    disabled. *)
Theorem started_engine_uses_selection (e : event) (w : t) :
  ~ only_ended w (step e w) ->
  exists during1 during2,
    e = click_action_during true true during1 during2 /\
    migrate_button w = true /\
    exists title1 message1 title2 message2 x,
      let w1 := wait_window during1 (show_custom_confirm title1 message1 true w) in
      let w2 := wait_window during2 (show_custom_confirm title2 message2 true w1) in
      engine_for w2 = Some x /\
      engine_threads (step e w) = engine_threads w2 ++ [x] /\
      locked (step e w) /\
      progress_panel (step e w) = progress_panel w2 ++ [progress_start] /\
      dialogs (step e w) = dialogs w2.
Proof.
  intros Hnew.
  destruct (confirmed_start e) eqn:He;
    [|exfalso; apply Hnew; now apply step_only_ends].
  destruct e; try discriminate.
  destruct response; [|discriminate]. destruct response2; [|discriminate].
  exists during1, during2. split; [reflexivity|].
  revert Hnew. simpl.
  destruct (migrate_button w) eqn:Hbutton;
    [|intros Hnew; exfalso; apply Hnew; now apply only_ended_same].
  intros Hnew. split; [reflexivity|].
  assert (forall title1 message1 title2 message2,
            same_selection w
              (wait_window during2
                 (show_custom_confirm title2 message2 true
                    (wait_window during1 (show_custom_confirm title1 message1 true w)))))
    as Hsame.
  { intros title1 message1 title2 message2.
    apply (same_selection_trans w (show_custom_confirm title1 message1 true w));
      [exact (same_selection_refl w)|].
    eapply same_selection_trans; [apply wait_window_keeps_selection|].
    match goal with |- same_selection ?v _ =>
      apply (same_selection_trans v (show_custom_confirm title2 message2 true v));
        [exact (same_selection_refl v) | apply wait_window_keeps_selection]
    end. }
  revert Hnew. unfold _start_migration, engine_for, locked.
  destruct (current_mode w) eqn:Hmode.
  - destruct (target_disk w) as [td|] eqn:Htd, (source_disk w) as [sd|] eqn:Hsd;
      try (intros Hnew; exfalso; apply Hnew; now apply only_ended_same).
    intros _. cbn [negb].
    eexists _, _, _, _, _. cbn zeta.
    match goal with |- context [wait_window during2 (show_custom_confirm ?t2 ?m2 true
                                  (wait_window during1 (show_custom_confirm ?t1 ?m1 true w)))] =>
      destruct (Hsame t1 m1 t2 m2) as (Hm & Hs & Ht & _)
    end.
    rewrite Hm, Hs, Ht, Hmode, Hsd, Htd.
    split; [reflexivity|]. split; [reflexivity|].
    split; [now repeat split|]. split; reflexivity.
  - destruct (removed_parts w) as [parts|], (source_disk w) as [sd|] eqn:Hsd;
      try (intros Hnew; exfalso; apply Hnew; now apply only_ended_same).
    intros _. cbn [negb].
    eexists _, _, _, _, _. cbn zeta.
    match goal with |- context [wait_window during2 (show_custom_confirm ?t2 ?m2 true
                                  (wait_window during1 (show_custom_confirm ?t1 ?m1 true w)))] =>
      destruct (Hsame t1 m1 t2 m2) as (Hm & Hs & Ht & _)
    end.
    rewrite Hm, Hs, Hmode, Hsd.
    split; [reflexivity|]. split; [reflexivity|].
    split; [now repeat split|]. split; reflexivity.
Qed.
End Starts.

(** ** Which disks are touched *)

Section Listed.
Context `{Collaborators}.
Import MainWindow.

Lemma only_listed_more (known more : list DiskInfo.t) (w : t) :
  incl known more -> only_listed known w -> only_listed more w.
Proof.
  intros Hincl (Hs & Ht & Hm & Hc & He).
  split; [intros d Hd; apply Hincl; now apply Hs|].
  split; [intros d Hd; apply Hincl; now apply Ht|].
  split; [intros name d Hd; apply Hincl; now apply (Hm name)|].
  split.
  - intros p Hp. destruct (Hc p Hp) as (d & Hd & Hpath). exists d. split; [|exact Hpath].
    now apply Hincl.
  - intros x d Hx Hd. apply Hincl. now apply (He x).
Qed.

Lemma calculate_layout_keeps_only_listed (known : list DiskInfo.t) (w : t) :
  only_listed known w -> only_listed known (_calculate_layout w).
Proof.
  unfold only_listed.
  destruct (calculate_layout_frame w)
    as (_ & Hs & Ht & _ & _ & Hc & _ & He & _ & _ & Hds & _).
  simpl in *. rewrite Hs, Ht, Hc, He, Hds. auto.
Qed.

Lemma read_drives_listed (listed : list DiskSelectorFrame.listed_drive) (d : Drive.t) :
  In d (fst (DiskSelectorFrame.read_drives listed)) ->
  In d (DiskSelectorFrame.drives_of listed).
Proof.
  induction listed as [|[e|drive] rest IH]; simpl; [tauto | tauto |].
  destruct (DiskSelectorFrame.read_drives rest) as [read failure]. simpl in *.
  intros [-> | Hin]; [now left | right; now apply IH].
Qed.

Lemma background_step_keeps_only_listed (known : list DiskInfo.t) (b : background) (w : t) :
  only_listed known w -> only_listed known (background_step b w).
Proof.
  intros Hinv. destruct b; simpl.
  - (* the thread of a scan *)
    destruct (scan_threads w); [exact Hinv|].
    unfold scan_thread. simpl.
    destruct (source_disk w) as [sd|] eqn:Hsd; [|exact Hinv].
    assert (only_listed known
              (set_scanner_calls (scanner_calls w ++ [DiskInfo.path sd]) w)) as Hcalled.
    { destruct Hinv as (Hs & Ht & Hm & Hc & He).
      split; [exact Hs|]. split; [exact Ht|]. split; [exact Hm|]. split; [|exact He].
      intros p Hp. simpl in Hp. apply in_app_or in Hp as [Hp | [<- | []]].
      - now apply Hc.
      - exists sd. split; [now apply Hs | reflexivity]. }
    destruct scanned; exact Hcalled.
  - (* a callback of the engine *)
    destruct (engine_threads w) as [|running rest] eqn:Hthreads; [exact Hinv|].
    assert (only_listed known (set_engine_threads rest w)) as Hrest.
    { destruct Hinv as (Hs & Ht & Hm & Hc & He).
      split; [exact Hs|]. split; [exact Ht|]. split; [exact Hm|]. split; [exact Hc|].
      intros x d Hx Hdisk. apply (He x); [|exact Hdisk]. rewrite Hthreads. now right. }
    destruct c; [exact Hinv | exact Hrest | exact Hrest].
  - (* the next task *)
    destruct (after_queue w) as [|k rest]; [exact Hinv|].
    destruct k; simpl; try exact Hinv.
    + unfold _on_scan_complete. apply calculate_layout_keeps_only_listed.
      destruct w; simpl in *. destruct current_mode0; exact Hinv.
    + unfold run_complete_ui. destruct w; simpl in *. destruct current_mode0; exact Hinv.
    + unfold run_error_ui. destruct w; simpl in *. destruct current_mode0; exact Hinv.
Qed.

Lemma wait_window_keeps_only_listed (known : list DiskInfo.t) (during : list background)
    (w : t) :
  only_listed known w -> only_listed known (wait_window during w).
Proof.
  revert w. induction during as [|b rest IH]; intros w Hinv; [exact Hinv|].
  simpl. apply IH. now apply background_step_keeps_only_listed.
Qed.

Lemma step_keeps_only_listed (known : list DiskInfo.t) (e : event) (w : t) :
  incl (listed_by e) known -> only_listed known w -> only_listed known (step e w).
Proof.
  intros Hincl Hinv. destruct e; simpl.
  - (* click_refresh *)
    destruct (DiskSelectorFrame.enabled (disk_selector w)); [|exact Hinv].
    destruct (refresh_shape drives w) as (m & values & more & -> & Hlists).
    destruct Hinv as (Hs & Ht & Hm & Hc & He).
    split; [exact Hs|]. split; [exact Ht|]. split; [|split; [exact Hc | exact He]].
    intros name disk Hdisk. cbn in Hdisk.
    destruct Hlists as [[-> _] | (listed & -> & -> & _)]; [now apply (Hm name)|].
    apply Hincl. simpl.
    apply build_disk_map_values, in_map_iff in Hdisk as (drive & <- & Hdrive).
    apply in_map. now apply read_drives_listed.
  - (* select_source *)
    destruct (offered name w); [|exact Hinv].
    unfold selector_on_source_selected, DiskSelectorFrame._on_source_selected. simpl.
    destruct (String.eqb name EmptyString); [exact Hinv|].
    destruct (DiskSelectorFrame.disk_map (disk_selector w) !! name) as [d|] eqn:Hd;
      [|exact Hinv].
    destruct Hinv as (Hs & Ht & Hm & Hc & He).
    split; [intros d' [= <-]; now apply (Hm name)|].
    split; [exact Ht|]. split; [exact Hm|]. split; [exact Hc | exact He].
  - (* select_target_during *)
    destruct (offered name w && _); [|exact Hinv].
    unfold selector_on_target_selected, DiskSelectorFrame._on_target_selected.
    cbn [disk_selector set_disk_selector DiskSelectorFrame.target_combobox
         DiskSelectorFrame.set_target_combobox DiskSelectorFrame.disk_map].
    destruct (String.eqb name EmptyString); [exact Hinv|].
    destruct (DiskSelectorFrame.disk_map (disk_selector w) !! name) as [d|] eqn:Hd;
      [|exact Hinv].
    destruct (DiskSelectorFrame.same_as_source d _).
    + match goal with |- context [wait_window during ?x] =>
        assert (only_listed known (wait_window during x)) as Hwait
          by (apply wait_window_keeps_only_listed; exact Hinv)
      end.
      exact Hwait.
    + unfold _on_target_selected.
      cbn [source_disk set_migrate_button set_target_partition_frame set_target_layout
           set_target_disk DiskSelectorFrame.update set_disk_selector].
      assert (forall v, source_disk v = source_disk w ->
                disk_selector v = disk_selector w \/
                DiskSelectorFrame.disk_map (disk_selector v)
                = DiskSelectorFrame.disk_map (disk_selector w) ->
                scanner_calls v = scanner_calls w ->
                engine_threads v = engine_threads w ->
                target_disk v = Some d ->
                only_listed known v) as Hstored.
      { intros v Hvs Hvm Hvc Hve Hvt.
        destruct Hinv as (Hs & Ht & Hm & Hc & He).
        unfold only_listed. rewrite Hvs, Hvc, Hve, Hvt.
        split; [exact Hs|]. split; [intros d' [= <-]; now apply (Hm name)|].
        split; [|split; [exact Hc | exact He]].
        destruct Hvm as [-> | ->]; exact Hm. }
      destruct (source_disk w) as [src|] eqn:Hsrc.
      * destruct (DiskInfo.size_bytes d <=? DiskInfo.size_bytes src).
        -- match goal with |- context [wait_window during ?x] =>
             assert (only_listed known (wait_window during x)) as Hwait
           end.
           { apply wait_window_keeps_only_listed.
             apply Hstored; try reflexivity; [exact Hsrc | now right]. }
           destruct Hwait as (Hs & Ht & Hm & Hc & He).
           split; [exact Hs|]. split; [intros d' Hd'; discriminate Hd'|].
           split; [exact Hm|]. split; [exact Hc | exact He].
        -- apply Hstored; try reflexivity; [exact Hsrc | now right].
      * apply Hstored; try reflexivity; [exact Hsrc | now right].
  - (* click_mode *)
    unfold _switch_mode. destruct (mode_eqb (current_mode w) m); [exact Hinv|].
    destruct Hinv as (Hs & Ht & Hm & Hc & He).
    destruct m; (split; [intros d' Hd'; discriminate Hd'|];
                 split; [intros d' Hd'; discriminate Hd'|];
                 split; [exact Hm|]; split; [exact Hc | exact He]).
  - (* change_options *)
    unfold _on_options_changed.
    assert (forall v, only_listed known v ->
              only_listed known
                match current_mode v, source_layout v, target_disk v with
                | migration, Some _, Some _ => _calculate_layout v
                | migration, _, _ => v
                | cleanup, Some _, _ => _calculate_layout v
                | cleanup, None, _ => v
                end) as Hcalc.
    { intros v Hv.
      destruct (current_mode v), (source_layout v), (target_disk v);
        auto using calculate_layout_keeps_only_listed. }
    apply Hcalc.
    change (current_mode (set_migration_options_frame frame w)) with (current_mode w).
    destruct (current_mode w); exact Hinv.
  - (* click_scan *)
    destruct (scan_button w); [|exact Hinv].
    unfold _scan_sd_cards.
    destruct (source_disk w); [|exact Hinv].
    destruct (current_mode w), (target_disk w); exact Hinv.
  - (* click_action_during *)
    destruct (migrate_button w); [|exact Hinv].
    assert (forall title message answer during v,
              only_listed known v ->
              only_listed known
                (wait_window during (show_custom_confirm title message answer v)))
      as Hconfirm.
    { intros title message answer during v Hv.
      apply wait_window_keeps_only_listed. exact Hv. }
    unfold _start_migration.
    destruct (current_mode w).
    + destruct (target_disk w) as [td|] eqn:Htd, (source_disk w) as [sd|] eqn:Hsd;
        try exact Hinv.
      destruct response; cbn [negb]; [|now apply Hconfirm].
      destruct response2; cbn [negb]; [|now apply Hconfirm, Hconfirm].
      match goal with |- context [wait_window during2 ?x] =>
        assert (only_listed known (wait_window during2 x)) as Hwait
          by (now apply Hconfirm, Hconfirm)
      end.
      destruct Hinv as (Hs0 & Ht0 & _). destruct Hwait as (Hs & Ht & Hm & Hc & He).
      split; [exact Hs|]. split; [exact Ht|]. split; [exact Hm|]. split; [exact Hc|].
      intros x d Hx Hdisk. unfold start_thread in Hx. cbn in Hx.
      apply in_app_or in Hx as [Hx | [<- | []]]; [now apply (He x)|].
      simpl in Hdisk. destruct Hdisk as [<- | [<- | []]]; [now apply Hs0 | now apply Ht0].
    + destruct (removed_parts w), (source_disk w) as [sd|] eqn:Hsd; try exact Hinv.
      destruct response; cbn [negb]; [|now apply Hconfirm].
      destruct response2; cbn [negb]; [|now apply Hconfirm, Hconfirm].
      match goal with |- context [wait_window during2 ?x] =>
        assert (only_listed known (wait_window during2 x)) as Hwait
          by (now apply Hconfirm, Hconfirm)
      end.
      destruct Hinv as (Hs0 & _). destruct Hwait as (Hs & Ht & Hm & Hc & He).
      split; [exact Hs|]. split; [exact Ht|]. split; [exact Hm|]. split; [exact Hc|].
      intros x d Hx Hdisk. unfold start_thread in Hx. cbn in Hx.
      apply in_app_or in Hx as [Hx | [<- | []]]; [now apply (He x)|].
      simpl in Hdisk. destruct Hdisk as [<- | []]. now apply Hs0.
  - (* scan_thread_runs *)
    now apply (background_step_keeps_only_listed known (thread_scans scanned)).
  - (* engine_calls *)
    now apply (background_step_keeps_only_listed known (engine_reports c)).
  - (* main_loop_runs_next *)
    now apply (background_step_keeps_only_listed known loop_runs_next).
Qed.

Lemma run_keeps_only_listed (events : list event) (known : list DiskInfo.t) (w : t) :
  only_listed known w -> only_listed (known ++ listed events) (run events w).
Proof.
  revert known w. induction events as [|e rest IH]; intros known w Hinv.
  - simpl. unfold listed. simpl. now rewrite app_nil_r.
  - simpl. unfold listed. simpl. fold (listed rest). rewrite app_assoc.
    apply IH. apply step_keeps_only_listed.
    + apply incl_appr, incl_refl.
    + eapply only_listed_more; [|exact Hinv]. apply incl_appl, incl_refl.
Qed.

Lemma init_only_listed (frame : MigrationOptionsFrame) : only_listed [] (init frame).
Proof.
  split; [intros d Hd; discriminate Hd|]. split; [intros d Hd; discriminate Hd|].
  split; [intros name d Hd; simpl in Hd; now rewrite lookup_empty in Hd|].
  split; [intros p []|intros x d []].
Qed.

(** X17. Whatever the events, every path given to the scanner, every disk
    given to an engine and every disk stored as source or target is the
    disk of a drive that a refresh listed earlier in the run. *)
Theorem only_listed_disks_are_touched (frame : MigrationOptionsFrame)
    (events : list event) :
  let w := run events (init frame) in
  (forall p, In p (scanner_calls w) ->
     exists d, In d (listed events) /\ DiskInfo.path d = p) /\
  (forall x d, In x (engine_threads w) -> In d (engine_disks x) -> In d (listed events)) /\
  (forall d, source_disk w = Some d \/ target_disk w = Some d -> In d (listed events)).
Proof.
  intros w.
  destruct (run_keeps_only_listed events [] (init frame) (init_only_listed frame))
    as (Hs & Ht & _ & Hc & He).
  simpl in *. fold w in Hs, Ht, Hc, He.
  split; [exact Hc|]. split; [exact He|].
  intros d [Hd | Hd]; [now apply Hs | now apply Ht].
Qed.
End Listed.

(** ** The handlers of the window *)

Section WindowHandlers.
Context `{Collaborators}.
Import MainWindow.

Lemma calculate_layout_in_migration (w : t) (src : PartitionLayout) (sd td : DiskInfo.t) :
  current_mode w = migration ->
  source_layout w = Some src ->
  source_disk w = Some sd ->
  target_disk w = Some td ->
  let o := migration_options w in
  let w' := _calculate_layout w in
  calculator_calls w' = calculator_calls w ++ [(src, DiskInfo.size_bytes td, o)] /\
  forall new_layout,
    calculate_target_layout src (DiskInfo.size_bytes td) o = inr new_layout ->
    target_layout w' = Some new_layout /\
    target_partition_frame w' = Some (new_layout, Some td) /\
    migrate_button w' = true /\
    dialogs w' = dialogs w ++ [info "布局对比" (migration_summary src new_layout o sd td)] /\
    status_label w' = "布局计算完成。准备开始迁移。"%string.
Proof.
  intros Hmode Hlayout Hsource Htarget o w'. subst o w'.
  destruct w; simpl in *; subst. calculate_cases.
  - split; [reflexivity|]. intros new_layout Heq. discriminate.
  - split; [reflexivity|]. intros new_layout [= <-]. repeat split.
Qed.

(** X10. In migration mode, with a scanned source and both disks selected,
    [_calculate_layout] gives the calculator the source layout, the capacity
    in bytes of the target disk and the migration options; the layout it
    returns is stored, displayed for the target disk and summarised in the
    comparison dialog, and the action button is enabled. *)
Theorem calculate_layout_migration (w : t) (src : PartitionLayout) (sd td : DiskInfo.t) :
  current_mode w = migration ->
  source_layout w = Some src ->
  source_disk w = Some sd ->
  target_disk w = Some td ->
  let o := migration_options w in
  let w' := _calculate_layout w in
  calculator_calls w' = calculator_calls w ++ [(src, DiskInfo.size_bytes td, o)] /\
  forall new_layout,
    calculate_target_layout src (DiskInfo.size_bytes td) o = inr new_layout ->
    target_layout w' = Some new_layout /\
    target_partition_frame w' = Some (new_layout, Some td) /\
    migrate_button w' = true /\
    dialogs w' = dialogs w ++ [info "布局对比" (migration_summary src new_layout o sd td)] /\
    status_label w' = "布局计算完成。准备开始迁移。"%string.
Proof.
  intros Hmode Hlayout Hsource Htarget o w'. subst o w'.
  destruct w; simpl in *; subst. calculate_cases.
  - split; [reflexivity|]. intros new_layout Heq. discriminate.
  - split; [reflexivity|]. intros new_layout [= <-]. repeat split.
Qed.

(** X11. When the calculator raises, in either mode, the failure is shown
    in a dialog with the text of the exception and in the status bar; the
    target layout stored before, the target partition view and the state of
    the action button are left as they were. *)
Theorem failed_calculation_keeps_previous_layout (w : t) (src : PartitionLayout)
    (d : DiskInfo.t) (e : string) :
  source_layout w = Some src ->
  capacity_disk w = Some d ->
  calculate_target_layout src (DiskInfo.size_bytes d) (options_for_calc w) = inl e ->
  let w' := _calculate_layout w in
  target_layout w' = target_layout w /\
  target_partition_frame w' = target_partition_frame w /\
  migrate_button w' = migrate_button w /\
  calculator_calls w'
  = calculator_calls w ++ [(src, DiskInfo.size_bytes d, options_for_calc w)] /\
  dialogs w' = dialogs w ++ [info "计算失败" ("计算新布局失败：" +:+ NL +:+ NL +:+ e)] /\
  status_label w' = "布局计算失败。"%string.
Proof.
  intros Hlayout Hdisk Hcalc w'. subst w'.
  unfold capacity_disk, options_for_calc in *.
  destruct w; simpl in *; subst.
  unfold _calculate_layout, calculate_and_display, call_calculator,
    _show_layout_comparison, try_except, bind; simpl.
  destruct current_mode0; simpl in *; subst; simpl; rewrite Hcalc; simpl; repeat split.
Qed.

Lemma switch_mode_changed (m : mode) (w : t) :
  current_mode w <> m ->
  _switch_mode m w
  = set_progress_panel (progress_panel w ++ [progress_reset m])
      (set_disk_selector
         (DiskSelectorFrame.clear_selections
            (DiskSelectorFrame.set_target_selector_shown (mode_eqb m migration)
               (disk_selector w)))
         (set_migrate_button false
            (set_target_partition_frame None
               (set_source_partition_frame None
                  (set_target_layout None
                     (set_source_layout None
                        (set_target_disk None
                           (set_source_disk None
                              (set_migration_options_frame
                                 (set_mode m (migration_options_frame w))
                                 (_update_status
                                    match m with
                                    | migration =>
                                        "迁移模式: 选择源和目标SD卡，然后点击'模拟迁移'。"
                                    | cleanup => "清理模式: 选择要清理不需要分区的SD卡。"
                                    end%string
                                    (set_current_mode m w))))))))))).
Proof.
  intros Hmode. unfold _switch_mode.
  assert (mode_eqb (current_mode w) m = false) as ->.
  { destruct (current_mode w), m; try reflexivity; congruence. }
  destruct m; reflexivity.
Qed.

Lemma nothing_selected_after_switch (m : mode) (w : t) :
  current_mode w <> m ->
  let w' := _switch_mode m w in
  (scan_button w = true ->
   _scan_sd_cards w' = show_custom_info "未选择磁盘" "请先选择一个SD卡。" w') /\
  scan_button w' = scan_button w /\
  migrate_button w' = false.
Proof.
  intros Hmode.
  destruct w as [? ? ? ? ? ? ? ds ? ? ? ? ? ? ? ? ? ? ? ? ?]; destruct ds.
  destruct current_mode0, m; simpl in Hmode; try congruence; vm_compute; repeat split.
Qed.

(** X7. A click on the button of the other mode sets the mode, drops both
    disks and both layouts, clears both partition views and both comboboxes,
    disables the action button and resets the progress panel.  It keeps the
    values the comboboxes offer, the disk map, the two sets of options, the
    scan button, and whatever runs: the threads and the queue of the main
    loop.  After it a click on the scan button only asks for a card, and a
    click on the action button does nothing. *)
Theorem mode_switch_resets (m : mode) (w : t) :
  current_mode w <> m ->
  let w' := step (click_mode m) w in
  let ds := disk_selector w in
  let ds' := disk_selector w' in
  (current_mode w' = m /\
   source_disk w' = None /\ target_disk w' = None /\
   source_layout w' = None /\ target_layout w' = None /\
   source_partition_frame w' = None /\ target_partition_frame w' = None /\
   migrate_button w' = false /\
   progress_panel w' = progress_panel w ++ [progress_reset m]) /\
  (DiskSelectorFrame.source_disk ds' = None /\
   DiskSelectorFrame.target_disk ds' = None /\
   DiskSelectorFrame.source_combobox ds' = EmptyString /\
   DiskSelectorFrame.target_combobox ds' = EmptyString /\
   DiskSelectorFrame.target_selector_shown ds' = mode_eqb m migration /\
   DiskSelectorFrame.combobox_values ds' = DiskSelectorFrame.combobox_values ds /\
   DiskSelectorFrame.disk_map ds' = DiskSelectorFrame.disk_map ds /\
   DiskSelectorFrame.enabled ds' = DiskSelectorFrame.enabled ds) /\
  (engine_threads w' = engine_threads w /\
   scan_threads w' = scan_threads w /\
   after_queue w' = after_queue w /\
   scan_button w' = scan_button w /\
   migration_options w' = migration_options w /\
   cleanup_options w' = cleanup_options w) /\
  (scan_button w = true ->
   step click_scan w' = show_custom_info "未选择磁盘" "请先选择一个SD卡。" w') /\
  (forall response response2, step (click_action response response2) w' = w').
Proof.
  intros Hmode. cbv zeta.
  destruct (nothing_selected_after_switch m w Hmode) as (Hscan & Hsb & Hmb).
  split; [|split; [|split; [|split]]].
  - unfold step. rewrite (switch_mode_changed m w Hmode). repeat split.
  - unfold step. rewrite (switch_mode_changed m w Hmode). repeat split.
  - unfold step. rewrite (switch_mode_changed m w Hmode). repeat split.
  - intros Hbutton.
    change (step click_scan (step (click_mode m) w))
      with (if scan_button (_switch_mode m w) then _scan_sd_cards (_switch_mode m w)
            else _switch_mode m w).
    rewrite Hsb, Hbutton. now apply Hscan.
  - intros response response2.
    change (step (click_action response response2) (step (click_mode m) w))
      with (if migrate_button (_switch_mode m w)
            then _start_migration (wait_window []) (wait_window []) response response2
                   (_switch_mode m w)
            else _switch_mode m w).
    now rewrite Hmb.
Qed.

(** X9. When the mode is switched between the click on the scan button and
    the run of the scan thread, the thread finds no source disk: the scanner
    is not called, whatever it would have returned, the failure is shown as a
    failed scan with the text of the type error, no layout is stored, the
    calculator is not called and the scan button is enabled again. *)
Theorem scan_overtaken_by_mode_switch (w : t) (d : DiskInfo.t) (m : mode)
    (scanned : string + PartitionLayout) :
  scan_button w = true ->
  source_disk w = Some d ->
  current_mode w = cleanup \/ target_disk w <> None ->
  after_queue w = [] ->
  current_mode w <> m ->
  let w' := run [click_scan; click_mode m; scan_thread_runs scanned; main_loop_runs_next] w in
  scanner_calls w' = scanner_calls w /\
  calculator_calls w' = calculator_calls w /\
  source_layout w' = None /\
  target_layout w' = None /\
  migrate_button w' = false /\
  scan_button w' = true /\
  after_queue w' = [] /\
  dialogs w'
  = dialogs w ++ [info "扫描失败" ("磁盘扫描失败:" +:+ NL +:+ NL +:+ none_not_subscriptable)].
Proof.
  intros Hscan Hsource Hready Hqueue Hmode w'. subst w'.
  destruct w as [? ? ? ? ? ? ? ds ? ? ? ? ? ? ? ? ? ? ? ? ?]; destruct ds;
    simpl in *; subst; simpl.
  destruct current_mode0, target_disk0, m;
    try (destruct Hready; congruence); try congruence; simpl; repeat split.
Qed.

Lemma read_drives_all (listed : list DiskSelectorFrame.listed_drive) (read : list Drive.t) :
  DiskSelectorFrame.read_drives listed = (read, None) ->
  List.length read = List.length listed.
Proof.
  revert read. induction listed as [|[e|drive] rest IH]; intros read; simpl.
  - now intros [= <-].
  - discriminate.
  - destruct (DiskSelectorFrame.read_drives rest) as [read' failure].
    intros [= <- ->]. simpl. now rewrite (IH read').
Qed.

(** X2. A click on the enabled refresh button shows exactly one dialog and
    changes nothing else but the values the two comboboxes offer and the disk
    map: the stored disks, the texts of the comboboxes, the layouts and the
    buttons stay as they are.  When the listing fails or is empty, the values
    offered before and the old disk map stay as well.  When the loop over
    the drives is left by an exception, the dialog shows it, the disk map
    holds the drives read until then, and the comboboxes keep the values
    they offered before. *)
Theorem refresh_changes_only_the_lists
    (drives : string + list DiskSelectorFrame.listed_drive) (w : t) :
  DiskSelectorFrame.enabled (disk_selector w) = true ->
  let w' := step (click_refresh drives) w in
  let ds := disk_selector w in
  exists title message values m,
    w' = show_custom_info title message
           (set_disk_selector
              (DiskSelectorFrame.set_combobox_values values
                 (DiskSelectorFrame.set_disk_map m ds)) w) /\
    match drives with
    | inr (first :: rest) =>
        match DiskSelectorFrame.read_drives (first :: rest) with
        | (read, None) =>
            values = List.map DiskSelectorFrame.display_name read /\
            m = DiskSelectorFrame.build_disk_map read ∅
        | (read, Some e) =>
            values = DiskSelectorFrame.combobox_values ds /\
            m = DiskSelectorFrame.build_disk_map read ∅ /\
            title = "错误"%string /\
            message = "列出驱动器失败:" +:+ NL +:+ NL +:+ e
        end
    | _ =>
        values = DiskSelectorFrame.combobox_values ds /\
        m = DiskSelectorFrame.disk_map ds
    end.
Proof.
  intros Hen. unfold step. rewrite Hen.
  unfold selector_refresh_disks, DiskSelectorFrame._refresh_disks.
  destruct drives as [msg|[|d ds]].
  - destruct w as [? ? ? ? ? ? ? sel ? ? ? ? ? ? ? ? ? ? ? ? ?]; destruct sel; simpl in *.
    eexists _, _, _, _. split; [reflexivity|]. split; reflexivity.
  - destruct w as [? ? ? ? ? ? ? sel ? ? ? ? ? ? ? ? ? ? ? ? ?]; destruct sel; simpl in *.
    eexists _, _, _, _. split; [reflexivity|]. split; reflexivity.
  - destruct (DiskSelectorFrame.read_drives (d :: ds)) as [read [e|]] eqn:Hread.
    + destruct w as [? ? ? ? ? ? ? sel ? ? ? ? ? ? ? ? ? ? ? ? ?];
        destruct sel as [? ? ? values ? ? ? ? ? ?].
      exists "错误"%string, ("列出驱动器失败:" +:+ NL +:+ NL +:+ e), values,
        (DiskSelectorFrame.build_disk_map read ∅).
      split; [reflexivity|]. now repeat split.
    + destruct w as [m ? ? ? ? ? ? sel ? ? ? ? ? ? ? ? ? ? ? ? ?];
        destruct sel as [? ? ? values ? ? ? ? ? ?].
      unfold DiskSelectorFrame.update, DiskSelectorFrame.current_mode,
        DiskSelectorFrame.show_custom_info, as_window_ref. cbn [disk_selector current_mode].
      destruct m; [destruct (2 <=? List.length read)%nat eqn:Htwo;
                   [|destruct (List.length read =? 1)%nat eqn:Hone]|].
      * eexists _, _. exists (List.map DiskSelectorFrame.display_name read),
          (DiskSelectorFrame.build_disk_map read ∅).
        split; [reflexivity|]. now split.
      * eexists _, _. exists (List.map DiskSelectorFrame.display_name read),
          (DiskSelectorFrame.build_disk_map read ∅).
        split; [reflexivity|]. now split.
      * exfalso. apply read_drives_all in Hread.
        destruct read as [|r1 [|r2 read]]; simpl in *; discriminate.
      * eexists _, _. exists (List.map DiskSelectorFrame.display_name read),
          (DiskSelectorFrame.build_disk_map read ∅).
        split; [reflexivity|]. now split.
Qed.
End WindowHandlers.

Section OptionChanges.
Context `{Collaborators}.
Import MainWindow.

Lemma calculate_layout_calls (w : t) (src : PartitionLayout) (d : DiskInfo.t) :
  source_layout w = Some src ->
  capacity_disk w = Some d ->
  calculator_calls (_calculate_layout w)
  = calculator_calls w ++ [(src, DiskInfo.size_bytes d, options_for_calc w)].
Proof.
  intros Hlayout Hdisk. unfold capacity_disk, options_for_calc in *.
  destruct w; simpl in *; subst.
  destruct current_mode0; simpl in *; subst; calculate_cases; reflexivity.
Qed.

Lemma options_changed_keeps_options (v : t) :
  let v' :=
    match current_mode v, source_layout v, target_disk v with
    | migration, Some _, Some _ => _calculate_layout v
    | migration, _, _ => v
    | cleanup, Some _, _ => _calculate_layout v
    | cleanup, None, _ => v
    end in
  migration_options v' = migration_options v /\ cleanup_options v' = cleanup_options v.
Proof.
  destruct (calculate_layout_frame v)
    as (_ & _ & _ & _ & _ & _ & _ & _ & _ & _ & _ & Hc & Hm).
  simpl. destruct (current_mode v), (source_layout v), (target_disk v); auto.
Qed.

(** X12. A change of the options is stored for the current mode, in
    cleanup mode with a ticked box read as a removal.  Without a scanned
    source nothing is computed and no dialog is shown.  With a scanned source
    and the disk whose capacity counts, the calculator is called at once
    with the new options, in cleanup mode with each migrate flag the negation
    of the box. *)
Theorem changed_options_are_used (w : t) (frame : MigrationOptionsFrame) (o : Options) :
  let w' := step (change_options frame o) w in
  (current_mode w = migration -> migration_options w' = o) /\
  (current_mode w = cleanup -> cleanup_options w' = cleanup_options_of o) /\
  (source_layout w = None ->
   calculator_calls w' = calculator_calls w /\ dialogs w' = dialogs w) /\
  (forall src d,
     source_layout w = Some src ->
     capacity_disk w = Some d ->
     calculator_calls w'
     = calculator_calls w
       ++ [(src, DiskInfo.size_bytes d,
            match current_mode w with
            | migration => o
            | cleanup =>
                mkOptions true (negb (migrate_linux o)) (negb (migrate_android o))
                  (negb (migrate_emummc o)) (expand_fat32 o)
            end)]).
Proof.
  cbv zeta. unfold step, _on_options_changed.
  split; [|split; [|split]].
  - intros Hmode.
    match goal with |- migration_options match current_mode ?v with _ => _ end = _ =>
      rewrite (proj1 (options_changed_keeps_options v))
    end.
    destruct w; simpl in *; subst. reflexivity.
  - intros Hmode.
    match goal with |- cleanup_options match current_mode ?v with _ => _ end = _ =>
      rewrite (proj2 (options_changed_keeps_options v))
    end.
    destruct w; simpl in *; subst. reflexivity.
  - intros Hlayout. destruct w; simpl in *; subst.
    destruct current_mode0; simpl; split; reflexivity.
  - intros src d Hlayout Hdisk. unfold capacity_disk in Hdisk.
    destruct w; simpl in *; subst.
    destruct current_mode0; simpl in *; subst; simpl.
    + match goal with |- calculator_calls (_calculate_layout ?v) = _ =>
        exact (calculate_layout_calls v src d eq_refl eq_refl)
      end.
    + match goal with |- calculator_calls (_calculate_layout ?v) = _ =>
        exact (calculate_layout_calls v src d eq_refl eq_refl)
      end.
Qed.

(** X8. A scan in migration mode that runs through, from the click to the
    end of [_on_scan_complete]: the scanner is given the path of the source
    disk; the options are read back from the options frame after it was told
    which partitions exist; the calculator is given the scanned layout, the
    capacity in bytes of the target disk and these options; the scanned
    layout is stored and displayed for the source disk, and the layout the
    calculator returns is stored and displayed for the target disk, with the
    action button enabled. *)
Theorem scan_then_calculate_in_migration (w : t) (sd td : DiskInfo.t)
    (scanned : PartitionLayout) :
  current_mode w = migration ->
  source_disk w = Some sd ->
  target_disk w = Some td ->
  scan_button w = true ->
  after_queue w = [] ->
  let w' := run [click_scan; scan_thread_runs (inr scanned); main_loop_runs_next] w in
  let frame :=
    update_available_partitions (has_linux scanned) (has_android scanned)
      (has_emummc scanned) (migration_options_frame w) in
  scanner_calls w' = scanner_calls w ++ [DiskInfo.path sd] /\
  calculator_calls w'
  = calculator_calls w ++ [(scanned, DiskInfo.size_bytes td, options frame)] /\
  migration_options w' = options frame /\
  source_layout w' = Some scanned /\
  source_partition_frame w' = Some (scanned, Some sd) /\
  scan_button w' = true /\
  forall new_layout,
    calculate_target_layout scanned (DiskInfo.size_bytes td) (options frame)
    = inr new_layout ->
    target_layout w' = Some new_layout /\
    target_partition_frame w' = Some (new_layout, Some td) /\
    migrate_button w' = true.
Proof.
  intros Hmode Hsource Htarget Hscan Hqueue w' frame. subst w' frame.
  destruct w; simpl in *; subst.
  unfold _scan_sd_cards, scan_thread, run_task, _on_scan_complete; simpl.
  match goal with |- context [_calculate_layout ?x] =>
    destruct (calculate_layout_in_migration x scanned sd td eq_refl eq_refl eq_refl eq_refl)
      as (Hcalls & Hok);
    destruct (calculate_layout_frame x)
      as (_ & _ & _ & Hsrc & Hframe & Hscanner & _ & _ & _ & Hbutton & _ & _ & Hopts)
  end.
  split; [exact Hscanner|]. split; [exact Hcalls|]. split; [exact Hopts|].
  split; [exact Hsrc|]. split; [exact Hframe|]. split; [exact Hbutton|].
  intros new_layout Hnew. destruct (Hok new_layout Hnew) as (Hl & Hf & Hb & _).
  split; [exact Hl|]. split; [exact Hf | exact Hb].
Qed.

(** X13. The list of partitions in the confirmation of a cleanup names
    Linux, Android and emuMMC, each exactly when its removal is selected and
    the scanned card has it, and nothing else. *)
Theorem removed_parts_lists_what_is_removed (w : t) (l : PartitionLayout) :
  source_layout w = Some l ->
  let c := cleanup_options w in
  exists parts,
    removed_parts w = Some parts /\
    (In "Linux partition"%string parts
     <-> CleanupOptions.remove_linux c = true /\ has_linux l = true) /\
    (In "Android partitions"%string parts
     <-> CleanupOptions.remove_android c = true /\ has_android l = true) /\
    (In "emuMMC partition(s)"%string parts
     <-> CleanupOptions.remove_emummc c = true /\ has_emummc l = true) /\
    (forall part, In part parts ->
       part = "Linux partition"%string \/ part = "Android partitions"%string \/
       part = "emuMMC partition(s)"%string).
Proof.
  intros Hlayout c. subst c. unfold removed_parts. rewrite Hlayout.
  destruct (cleanup_options w) as [rl ra re ef]. destruct l as [ps hl ha ad he ed]. simpl.
  destruct rl, ra, re, hl, ha, he; simpl; eexists; (split; [reflexivity|]); simpl;
    repeat split; intros; intuition (try discriminate; try congruence).
Qed.
End OptionChanges.

(** ** A run of an engine, as the window shows it *)

Section EngineRun.
Context `{Collaborators}.
Import MainWindow.

Lemma run_app (first second : list event) (w : t) :
  run (first ++ second) w = run second (run first w).
Proof. revert w. induction first as [|e rest IH]; intros w; simpl; [reflexivity | apply IH]. Qed.

Lemma delivery_keeps_widgets (cs : list callback) (w : t) :
  let w' := run (List.map engine_calls cs) w in
  progress_panel w' = progress_panel w /\
  dialogs w' = dialogs w /\
  current_mode w' = current_mode w.
Proof.
  revert w. induction cs as [|c cs IH]; intros w; simpl; [now repeat split|].
  destruct (IH (step (engine_calls c) w)) as (Hp & Hd & Hm).
  simpl in *. rewrite Hp, Hd, Hm.
  destruct (engine_threads w); [now repeat split|]. destruct c; now repeat split.
Qed.

Lemma progress_tasks_run (ps : list callback) :
  Forall (fun c => is_terminal c = false) ps ->
  forall (w : t) (rest : list task),
    after_queue w = List.concat (List.map tasks_of ps) ++ rest ->
    let w' :=
      run (repeat main_loop_runs_next (List.length (List.concat (List.map tasks_of ps)))) w in
    after_queue w' = rest /\
    progress_panel w' = progress_panel w ++ List.map panel_call_of ps /\
    dialogs w' = dialogs w /\
    engine_threads w' = engine_threads w /\
    current_mode w' = current_mode w.
Proof.
  induction 1 as [|c ps Hc _ IH]; intros w rest Hqueue.
  - simpl in *. rewrite app_nil_r. now repeat split.
  - destruct c as [stage percent message| |]; try discriminate Hc.
    simpl in Hqueue. simpl.
    rewrite Hqueue. simpl.
    match goal with |- context [run _ ?v] =>
      destruct (IH v rest eq_refl) as (Hq & Hp & Hd & Ht & Hm)
    end.
    simpl in *. rewrite Hq, Hp, Hd, Ht, Hm. simpl.
    rewrite <- app_assoc. now repeat split.
Qed.

(** X18. The callbacks of one run of an engine, progress reports and then
    one terminal callback, followed by as many turns of the main loop as
    tasks were queued: the progress panel receives the reports in order and
    then its completion or its error, exactly one dialog is shown, the queue
    is empty, the thread is gone, and the buttons and the disk selector are
    enabled again. *)
Theorem engine_run_is_shown (cs : list callback) (w : t) (running : engine)
    (others : list engine) :
  progress_then_one_terminal cs ->
  engine_threads w = running :: others ->
  after_queue w = [] ->
  let tasks := List.concat (List.map tasks_of cs) in
  let w' :=
    run (List.map engine_calls cs ++ repeat main_loop_runs_next (List.length tasks)) w in
  progress_panel w' = progress_panel w ++ List.map panel_call_of cs /\
  after_queue w' = [] /\
  engine_threads w' = others /\
  migrate_button w' = true /\
  scan_button w' = true /\
  DiskSelectorFrame.enabled (disk_selector w') = true /\
  exists title message, dialogs w' = dialogs w ++ [info title message].
Proof.
  intros Hcs Hthreads Hqueue tasks w'. subst tasks w'.
  destruct (run_delivered cs w running others Hcs Hthreads) as [Hdelivered Hrest].
  destruct (delivery_keeps_widgets cs w) as (Hp1 & Hd1 & Hm1).
  destruct Hcs as (ps & last & -> & Hps & Hlast).
  rewrite run_app. simpl in Hdelivered, Hrest, Hp1, Hd1, Hm1.
  set (w1 := run (List.map engine_calls (ps ++ [last])) w) in *.
  rewrite Hqueue in Hdelivered. simpl in Hdelivered.
  rewrite List.map_app, List.concat_app in *. simpl in Hdelivered |- *.
  rewrite app_nil_r in *.
  rewrite List.length_app, repeat_app, run_app.
  destruct (progress_tasks_run ps Hps w1 (tasks_of last) Hdelivered)
    as (Hq2 & Hp2 & Hd2 & Ht2 & Hm2).
  simpl in Hq2, Hp2, Hd2, Ht2, Hm2.
  set (w2 := run (repeat main_loop_runs_next
                    (List.length (List.concat (List.map tasks_of ps)))) w1) in *.
  rewrite List.map_app. simpl.
  destruct last as [| |error_msg]; try discriminate Hlast; simpl in *.
  - rewrite Hq2. simpl. unfold run_complete_ui.
    destruct w2; simpl in *.
    destruct current_mode0; simpl;
      (split; [rewrite Hp2, Hp1, app_assoc; reflexivity|];
       split; [reflexivity|]; split; [rewrite Ht2; exact Hrest|];
       split; [reflexivity|]; split; [reflexivity|]; split; [reflexivity|];
       eexists _, _; rewrite Hd2, Hd1; reflexivity).
  - rewrite Hq2. simpl. unfold run_error_ui.
    destruct w2; simpl in *.
    destruct current_mode0; simpl;
      (split; [rewrite Hp2, Hp1, app_assoc; reflexivity|];
       split; [reflexivity|]; split; [rewrite Ht2; exact Hrest|];
       split; [reflexivity|]; split; [reflexivity|]; split; [reflexivity|];
       eexists _, _; rewrite Hd2, Hd1; reflexivity).
Qed.
End EngineRun.

(** ** More runs of the window on the two cards *)

Section MoreRuns.
Import MainWindow Reference.
#[local] Existing Instance collaborators.

Lemma dialog_inside_parent_witness :
  exists d,
    Dialog.place 1080 (Dialog.mk_rect 100 50 1201 801) 550 280 = inr d /\
    Dialog.inside (Dialog.mk_rect 100 50 1201 801) d.
Proof.
  destruct (dialog_inside_parent 1080 (Dialog.mk_rect 100 50 1201 801) 550 280)
    as (d & Hplaced & Hinside & _).
  - simpl. lia.
  - simpl. lia.
  - reflexivity.
  - reflexivity.
  - exists d. split; [exact Hplaced | exact Hinside].
Defined.

Lemma open_logs_opens_latest_witness :
  exists names latest_log t,
    inr example_directory = @inr string (list string) names /\
    Menu.subprocess_run ["xdg-open"; "nx_migrator_pro_20250102.log"]%string
    = Menu.opener "linux" latest_log /\
    Menu.opened (Menu.subprocess_run ["xdg-open"; "nx_migrator_pro_20250102.log"]%string)
    = Some latest_log /\
    In latest_log names /\
    (exists stem, latest_log = "nx_migrator_pro_" +:+ stem) /\
    (exists front, latest_log = front +:+ ".log") /\
    example_mtime latest_log = inr t /\
    forall f, In f names -> Menu.is_log_file f = true ->
      exists t', example_mtime f = inr t' /\ (t' <= t)%Q.
Proof.
  assert (Menu._open_logs "linux" (inr example_directory) example_mtime (fun _ => None) init
          = (init,
             Some (Menu.subprocess_run ["xdg-open"; "nx_migrator_pro_20250102.log"]%string)))
    as Hopen by (unfold Menu._open_logs; reflexivity).
  exact (open_logs_opens_latest _ _ _ _ _ _ _ Hopen).
Defined.

Lemma open_logs_launch_outcome_witness :
  exists latest_log,
    In latest_log example_directory /\ Menu.is_log_file latest_log = true /\
    Menu._open_logs "linux" (inr example_directory) example_mtime (fun _ => None) init
    = (init, Some (Menu.opener "linux" latest_log)).
Proof.
  destruct (open_logs_launch_outcome "linux" (inr example_directory) example_mtime
              (fun _ => None) init) as (_ & Htried & _).
  destruct (Htried example_directory eq_refl) as (latest_log & Hin & Hlog & Hresult).
  - exists "nx_migrator_pro_20250101.log"%string. split; [now left | vm_compute; reflexivity].
  - intros f Hf _. unfold example_mtime.
    destruct (String.eqb f "nx_migrator_pro_20250102.log"); now eexists.
  - exists latest_log. split; [exact Hin|]. split; [exact Hlog | exact Hresult].
Defined.

Lemma cleanup_mode_has_no_target_witness :
  target_disk (run [refresh; select_target name_i; click_mode cleanup] init) = None.
Proof.
  destruct (@cleanup_mode_has_no_target collaborators all_options
              [refresh; select_target name_i; click_mode cleanup]) as [Htarget _].
  - vm_compute. reflexivity.
  - exact Htarget.
Defined.

Lemma offered_source_is_selected_witness :
  exists disk,
    DiskSelectorFrame.disk_map (disk_selector (run [refresh] init)) !! name_h = Some disk /\
    source_disk (step (select_source name_h) (run [refresh] init)) = Some disk.
Proof.
  destruct (@offered_source_is_selected collaborators all_options [refresh] name_h)
    as (disk & Hdisk & Hsource & _).
  - vm_compute. reflexivity.
  - vm_compute. reflexivity.
  - exists disk. split; [exact Hdisk | exact Hsource].
Defined.

(** A refresh whose loop is left by an exception at the second of two
    drives: the comboboxes still offer both cards of the refresh before, the
    map holds card I alone, and the selection of card H finds no disk. *)
Example refresh_left_by_exception :
  let w := run [refresh; click_refresh (inr [inr drive_i; inl "'size_gb'"%string])] init in
  DiskSelectorFrame.combobox_values (disk_selector w) = [name_h; name_i] /\
  DiskSelectorFrame.disk_map (disk_selector w) !! name_h = None /\
  DiskSelectorFrame.disk_map (disk_selector w) !! name_i = Some disk_i /\
  offered name_h w = true /\
  source_disk (step (select_source name_h) w) = None /\
  dialogs w
  = [info "检测到SD卡"
       ("成功检测到 2 张SD卡。" +:+ NL +:+ NL +:+ "请从下拉菜单中选择源驱动器和目标驱动器。");
     info "错误" ("列出驱动器失败:" +:+ NL +:+ NL +:+ "'size_gb'")].
Proof. vm_compute. repeat split. Qed.


Lemma nothing_starts_without_two_yes_witness :
  engine_threads
    (run (select_h_into_i ++ scan_succeeds ++ [click_action true false]) init) = [].
Proof.
  destruct (@nothing_starts_without_two_yes collaborators all_options
              (select_h_into_i ++ scan_succeeds ++ [click_action true false]))
    as [Hthreads _].
  - vm_compute. reflexivity.
  - exact Hthreads.
Defined.


Lemma started_engine_uses_selection_witness :
  locked (step (click_action true true) planned).
Proof.
  destruct (started_engine_uses_selection (click_action true true) planned)
    as (during1 & during2 & _ & _ & title1 & message1 & title2 & message2 & x
        & _ & _ & Hlocked & _).
  - intros [gone Hgone]. vm_compute in Hgone. destruct gone; discriminate Hgone.
  - exact Hlocked.
Defined.

(** A scan was started before the click on the action button, and it ends
    while the first confirmation is open.  The engine gets the source layout
    that the callback of the scan stored, not the one the window held at the
    click. *)
Example engine_uses_layouts_after_dialogs :
  let w := run [click_scan] planned in
  let w' := step (click_action_during true true
                    [thread_scans (inr (mkPartitionLayout [] false false false false false));
                     loop_runs_next] []) w in
  exists sd td target opts,
    engine_threads w'
    = [MigrationEngine sd td (Some (mkPartitionLayout [] false false false false false)) target opts]
    /\ source_layout w = Some card_layout.
Proof. vm_compute. eexists _, _, _, _. split; reflexivity. Qed.

Lemma only_listed_disks_are_touched_witness :
  exists d,
    In d (listed (select_h_into_i ++ scan_succeeds)) /\
    DiskInfo.path d = "PhysicalDrive1"%string.
Proof.
  destruct (@only_listed_disks_are_touched collaborators all_options (select_h_into_i ++ scan_succeeds))
    as [Hscanned _].
  apply Hscanned. vm_compute. now left.
Defined.

Lemma calculate_layout_migration_witness :
  calculator_calls (_calculate_layout planned)
  = calculator_calls planned
    ++ [(card_layout, DiskInfo.size_bytes disk_i, migration_options planned)].
Proof.
  destruct (calculate_layout_migration planned card_layout disk_h disk_i) as [Hcalls _].
  - vm_compute. reflexivity.
  - vm_compute. reflexivity.
  - vm_compute. reflexivity.
  - vm_compute. reflexivity.
  - exact Hcalls.
Defined.

Lemma failed_calculation_keeps_previous_layout_witness :
  target_layout (_calculate_layout (set_target_disk (Some small_disk) planned))
  = target_layout (set_target_disk (Some small_disk) planned).
Proof.
  destruct (failed_calculation_keeps_previous_layout
              (set_target_disk (Some small_disk) planned) card_layout small_disk
              "SizeTooSmallFat32") as [Hkept _].
  - vm_compute. reflexivity.
  - vm_compute. reflexivity.
  - vm_compute. reflexivity.
  - exact Hkept.
Defined.

Lemma mode_switch_resets_witness :
  current_mode (step (click_mode cleanup) planned) = cleanup.
Proof.
  destruct (mode_switch_resets cleanup planned) as ((Hmode & _) & _).
  - vm_compute. discriminate.
  - exact Hmode.
Defined.

Lemma scan_overtaken_by_mode_switch_witness :
  scanner_calls
    (run [click_scan; click_mode cleanup; scan_thread_runs (inr card_layout);
          main_loop_runs_next] selected)
  = scanner_calls selected.
Proof.
  destruct (scan_overtaken_by_mode_switch selected disk_h cleanup (inr card_layout))
    as [Hscanner _].
  - vm_compute. reflexivity.
  - vm_compute. reflexivity.
  - right. vm_compute. discriminate.
  - vm_compute. reflexivity.
  - vm_compute. discriminate.
  - exact Hscanner.
Defined.

Lemma refresh_changes_only_the_lists_witness :
  exists title message values m,
    step (click_refresh (inr [])) init
    = show_custom_info title message
        (set_disk_selector
           (DiskSelectorFrame.set_combobox_values values
              (DiskSelectorFrame.set_disk_map m (disk_selector init))) init) /\
    values = DiskSelectorFrame.combobox_values (disk_selector init) /\
    m = DiskSelectorFrame.disk_map (disk_selector init).
Proof.
  apply (refresh_changes_only_the_lists (inr []) init).
  vm_compute. reflexivity.
Defined.

Lemma changed_options_are_used_witness :
  migration_options
    (step (change_options all_options (mkOptions true false true true true)) planned)
  = mkOptions true false true true true.
Proof.
  destruct (changed_options_are_used planned all_options
              (mkOptions true false true true true)) as [Hstored _].
  apply Hstored. vm_compute. reflexivity.
Defined.

Lemma scan_then_calculate_in_migration_witness :
  scanner_calls (run scan_succeeds selected)
  = scanner_calls selected ++ [DiskInfo.path disk_h].
Proof.
  destruct (scan_then_calculate_in_migration selected disk_h disk_i card_layout)
    as [Hscanner _].
  - vm_compute. reflexivity.
  - vm_compute. reflexivity.
  - vm_compute. reflexivity.
  - vm_compute. reflexivity.
  - vm_compute. reflexivity.
  - exact Hscanner.
Defined.

Lemma removed_parts_lists_what_is_removed_witness :
  exists parts, removed_parts (run scan_succeeds cleanup_selected) = Some parts.
Proof.
  destruct (removed_parts_lists_what_is_removed (run scan_succeeds cleanup_selected)
              card_layout) as (parts & Hparts & _).
  - vm_compute. reflexivity.
  - exists parts. exact Hparts.
Defined.

Lemma engine_run_is_shown_witness :
  migrate_button
    (run (List.map engine_calls [on_progress "Copying" 40 "FAT32"; on_complete]
          ++ repeat main_loop_runs_next
               (List.length
                  (List.concat
                     (List.map tasks_of [on_progress "Copying" 40 "FAT32"; on_complete]))))
       (run [click_action true true] planned))
  = true.
Proof.
  destruct (engine_run_is_shown [on_progress "Copying" 40 "FAT32"; on_complete]
              (run [click_action true true] planned)
              (MigrationEngine disk_h disk_i (source_layout planned) (target_layout planned)
                 all_options) []) as (_ & _ & _ & Hbutton & _).
  - exists [on_progress "Copying" 40 "FAT32"], on_complete.
    split; [reflexivity|]. split; [|reflexivity].
    constructor; [reflexivity | constructor].
  - vm_compute. reflexivity.
  - vm_compute. reflexivity.
  - exact Hbutton.
Defined.
End MoreRuns.
